(** * Vault LLM Assistant: context assembly, provider adapters, post-processing

    A shallow embedding of the decision logic of [src/main.ts] (the Obsidian
    plugin) and of the model catalog it loads, with the properties of the
    specification stated and settled against it.

    Strings are JavaScript strings: finite sequences of UTF-16 code units.
    A code unit is kept as an [N]; string literals of the source are written
    with [lit]. *)

From Stdlib Require Import List String Ascii NArith ZArith Bool Lia.
From Stdlib Require Import DecimalString.
Import ListNotations.

Set Warnings "-register-all,-abstract-large-number".


(* ================================================================== *)
(** * Part I. Definitions                                              *)
(* ================================================================== *)

(** ** JavaScript strings and the built-ins the plugin calls *)

Module Js.

Local Open Scope N_scope.

Definition jsstring := list N.

(** A source literal, code unit by code unit. *)
Definition lit (s : string) : jsstring :=
  map N_of_ascii (list_ascii_of_string s).

Definition LF : N := 10.

Fixpoint eqb (a b : jsstring) : bool :=
  match a, b with
  | [], [] => true
  | x :: a', y :: b' => N.eqb x y && eqb a' b'
  | _, _ => false
  end.

(** [s.startsWith(p)] *)
Fixpoint startsWith (s p : jsstring) {struct p} : bool :=
  match p, s with
  | [], _ => true
  | x :: p', y :: s' => N.eqb x y && startsWith s' p'
  | _ :: _, [] => false
  end.

(** [s.includes(p)] *)
Fixpoint includes (s p : jsstring) : bool :=
  startsWith s p ||
  match s with
  | [] => false
  | _ :: s' => includes s' p
  end.

(** [s.endsWith(p)] *)
Definition endsWith (s p : jsstring) : bool :=
  startsWith (rev s) (rev p).

(** Truthiness of a string value: the empty string is falsy. *)
Definition truthy (s : jsstring) : bool :=
  match s with [] => false | _ :: _ => true end.

(** The characters matched by [\s] and stripped by [trim()]:
    WhiteSpace and LineTerminator of the language. *)
Definition isWhiteSpace (c : N) : bool :=
  ((9 <=? c) && (c <=? 13)) || (c =? 32) || (c =? 160) || (c =? 5760)
  || ((8192 <=? c) && (c <=? 8202)) || (c =? 8232) || (c =? 8233)
  || (c =? 8239) || (c =? 8287) || (c =? 12288) || (c =? 65279).

Fixpoint trimStart (s : jsstring) : jsstring :=
  match s with
  | [] => []
  | c :: s' => if isWhiteSpace c then trimStart s' else s
  end.

Definition trimEnd (s : jsstring) : jsstring := rev (trimStart (rev s)).

Definition trim (s : jsstring) : jsstring := trimEnd (trimStart s).

(** [s.substring(0, n)] and [s.substring(n)] for [0 <= n]. *)
Definition substringTo (n : nat) (s : jsstring) : jsstring := firstn n s.
Definition substringFrom (n : nat) (s : jsstring) : jsstring := skipn n s.

(** [s.split(sep)] for a non-empty separator: the pieces between the
    leftmost non-overlapping occurrences of [sep].  [skip] counts the code
    units of an occurrence still to be passed over; [cur] is the piece
    being collected, reversed. *)
Fixpoint splitAux (sep : jsstring) (skip : nat) (cur : jsstring)
         (s : jsstring) : list jsstring :=
  match s with
  | [] => [rev cur]
  | c :: s' =>
      match skip with
      | S k => splitAux sep k cur s'
      | O =>
          if startsWith s sep
          then rev cur :: splitAux sep (List.length sep - 1)%nat [] s'
          else splitAux sep 0 (c :: cur) s'
      end
  end.

Definition split (sep s : jsstring) : list jsstring := splitAux sep 0 [] s.

(** [s.split(sep, limit)] *)
Definition splitLimit (sep : jsstring) (limit : nat) (s : jsstring)
  : list jsstring :=
  firstn limit (split sep s).

(** Decimal rendering of an integer-valued number, as in a template
    literal. *)
Definition intToString (z : Z) : jsstring :=
  lit (NilZero.string_of_int (Z.to_int z)).

End Js.

Import Js.

(** ** Configuration record *)

Inductive Mode := ModeQuery | ModeCreate.

(** A JSON number, kept as the decimal literal [mantissa * 10^exponent]. *)
Record number := { mantissa : Z; exponent : Z }.

Definition numberOfZ (z : Z) : number := {| mantissa := z; exponent := 0 |}.

Record VaultLLMAssistantSettings := {
  encryptedOpenAIApiKey : jsstring;
  encryptedGeminiApiKey : jsstring;
  apiEndpoint : jsstring;
  modelProvider : jsstring;
  model : jsstring;
  lmStudioApiUrl : jsstring;
  lmStudioModel : jsstring;
  useLocalLLM : bool;
  maxTokens : number;
  temperature : number;
  includeCurrentFileOnly : bool;
  includeFolder : jsstring;
  excludeFolder : list jsstring;
  newNoteFolder : jsstring;
  generateTitlesWithLLM : bool;
  useVaultContent : bool;
  mode : Mode
}.

Definition DEFAULT_SETTINGS : VaultLLMAssistantSettings := {|
  encryptedOpenAIApiKey := lit "";
  encryptedGeminiApiKey := lit "";
  apiEndpoint := lit "https://generativelanguage.googleapis.com/v1beta/models";
  modelProvider := lit "gemini";
  model := lit "gemini-3-pro-preview";
  lmStudioApiUrl := lit "http://localhost:1234/v1";
  lmStudioModel := lit "local-model";
  useLocalLLM := false;
  maxTokens := numberOfZ 2000;
  temperature := {| mantissa := 7; exponent := -1 |};
  includeCurrentFileOnly := false;
  includeFolder := lit "";
  excludeFolder := [];
  newNoteFolder := lit "";
  generateTitlesWithLLM := true;
  useVaultContent := true;
  mode := ModeQuery
|}.

(** ** The document store *)

(** Of a [TFile] the plugin reads only [path]. *)
Record TFile := { path : jsstring }.

(** [vault.getMarkdownFiles()] and [vault.cachedRead(file)]; a read that
    throws is [None]. *)
Record Vault := {
  getMarkdownFiles : list TFile;
  cachedRead : TFile -> option jsstring
}.

(** ** scanVault *)

(** Lines 244-267: the files whose content goes into the context. *)
Definition selectFiles (settings : VaultLLMAssistantSettings) (vault : Vault)
           (currentFile : option TFile) : list TFile :=
  match includeCurrentFileOnly settings, currentFile with
  | true, Some f => [f]
  | _, _ =>
      let allFiles := getMarkdownFiles vault in
      let filesToScan :=
        if truthy (includeFolder settings)
        then filter (fun file => startsWith (path file) (includeFolder settings))
                    allFiles
        else allFiles in
      let filesToScan :=
        if (0 <? List.length (excludeFolder settings))%nat
        then filter (fun file =>
                       negb (existsb (fun folder => startsWith (path file) folder)
                                     (excludeFolder settings)))
                    filesToScan
        else filesToScan in
      filesToScan
  end.

(** The two filters of lines 252-264, written without their guards. *)
Definition included (s : VaultLLMAssistantSettings) (file : TFile) : bool :=
  startsWith (path file) (includeFolder s).

Definition excluded (s : VaultLLMAssistantSettings) (file : TFile) : bool :=
  existsb (fun folder => startsWith (path file) folder) (excludeFolder s).

(** One block of the context blob. *)
Definition fileBlock (p content : jsstring) : jsstring :=
  lit "FILE: " ++ p ++ [LF; LF] ++ content ++ [LF; LF].

(** Lines 270-277: the loop over the selected files; a file whose read
    throws is logged and contributes nothing. *)
Fixpoint readAll (vault : Vault) (files : list TFile) (allContents : jsstring)
  : jsstring :=
  match files with
  | [] => allContents
  | file :: rest =>
      match cachedRead vault file with
      | Some content =>
          readAll vault rest (allContents ++ fileBlock (path file) content)
      | None => readAll vault rest allContents
      end
  end.

(** Lines 269-283: the context blob of the selected files. *)
Definition assemble (vault : Vault) (files : list TFile)
           (additionalContext : jsstring) : jsstring :=
  let allContents := readAll vault files (lit "") in
  if truthy additionalContext
  then additionalContext ++ [LF; LF] ++ allContents
  else allContents.

Definition scanVault (settings : VaultLLMAssistantSettings) (vault : Vault)
           (additionalContext : jsstring) (currentFile : option TFile)
  : jsstring :=
  if negb (useVaultContent settings) then
    (if truthy additionalContext then additionalContext else lit "")
  else
    assemble vault (selectFiles settings vault currentFile) additionalContext.

(** ** extractSourceFiles *)

(** The longest run of characters other than a line feed: [[^\n]+] (or an
    empty run). *)
Fixpoint lineRun (s : jsstring) : jsstring :=
  match s with
  | [] => []
  | c :: s' => if N.eqb c LF then [] else c :: lineRun s'
  end.

(** [/FILE: ([^\n]+)/] tried at the start of [s]: the captured group. *)
Definition fileMarkerAt (s : jsstring) : option jsstring :=
  if startsWith s (lit "FILE: ") then
    match lineRun (skipn 6 s) with
    | [] => None
    | run => Some run
    end
  else None.

(** The [exec] loop of the global regular expression: [skip] is the number
    of code units left before [lastIndex]. *)
Fixpoint execFileMarkers (skip : nat) (s : jsstring) : list jsstring :=
  match s with
  | [] => []
  | _ :: s' =>
      match skip with
      | S k => execFileMarkers k s'
      | O =>
          match fileMarkerAt s with
          | Some run => run :: execFileMarkers (6 + List.length run - 1) s'
          | None => execFileMarkers 0 s'
          end
      end
  end.

Definition extractSourceFiles (vaultContent : jsstring) : list jsstring :=
  execFileMarkers 0 vaultContent.

(** ** Values, thrown errors and the host *)

(** A parsed JSON value.  The fields of an object are in insertion order,
    one entry per key. *)
Inductive json :=
| JNull
| JBool (b : bool)
| JNum (n : number)
| JStr (s : jsstring)
| JArr (items : list json)
| JObj (fields : list (jsstring * json)).

(** A JavaScript value read out of such data: [None] is [undefined]. *)
Definition jsvalue := option json.

(** What the plugin reads of a thrown error object: [error.status] (a
    number when present), [error.message], and [error.text]: absent, or a
    method whose call fails ([Some None]) or yields the response body. *)
Record JsError := {
  errStatus : option Z;
  errMessage : option jsstring;
  errText : option (option jsstring)
}.

(** [new Error(msg)] *)
Definition newError (msg : jsstring) : JsError :=
  {| errStatus := None; errMessage := Some msg; errText := None |}.

(** The outcome of evaluating code that may throw. *)
Inductive completion (A : Type) :=
| Normal (a : A)
| Abrupt (e : JsError).

Arguments Normal {A} a.
Arguments Abrupt {A} e.

Definition bind {A B} (c : completion A) (k : A -> completion B)
  : completion B :=
  match c with
  | Normal a => k a
  | Abrupt e => Abrupt e
  end.

Notation "x <- c ;; k" := (bind c (fun x => k))
  (at level 61, c at next level, right associativity).

(** [try { body } catch (error) { handler }] *)
Definition tryCatch {A} (body : completion A) (handler : JsError -> completion A)
  : completion A :=
  match body with
  | Normal a => Normal a
  | Abrupt e => handler e
  end.

(** A request handed to [requestUrl]; [body] is the object given to
    [JSON.stringify]. *)
Record Request := {
  url : jsstring;
  method : jsstring;
  headers : list (jsstring * jsstring);
  body : json
}.

(** The host: Obsidian and the JavaScript engine.
    - [requestUrl]: the [json] of the response, or the error thrown by the
      request or by reading the body;
    - [JSON_parse]: [None] when the text is not JSON;
    - [numberToString], [toNumber]: conversions of the language ([toNumber]
      is [None] for NaN);
    - [typeError]: the error thrown when a property of [undefined] or
      [null] is read, or a value that is not a function is called;
    - [invalidCharacterError]: the error thrown by [btoa] and [atob];
    - [toLowerCase]: [String.prototype.toLowerCase];
    - [today]: [new Date().toISOString().slice(0, 10)];
    - [userAgent], [vaultName]: [navigator.userAgent], [vault.getName()]. *)
Record Host := {
  requestUrl : Request -> completion json;
  JSON_parse : jsstring -> option json;
  numberToString : number -> jsstring;
  toNumber : json -> option number;
  typeError : JsError;
  invalidCharacterError : JsError;
  toLowerCase : jsstring -> jsstring;
  today : jsstring;
  userAgent : jsstring;
  vaultName : jsstring
}.

(** The plugin instance: its settings and the decrypted keys. *)
Record Plugin := {
  settings : VaultLLMAssistantSettings;
  openAIApiKey : jsstring;
  geminiApiKey : jsstring
}.

Fixpoint lookup (key : jsstring) (fields : list (jsstring * json)) : jsvalue :=
  match fields with
  | [] => None
  | (k, v) :: rest => if Js.eqb k key then Some v else lookup key rest
  end.

(** Truthiness of a value. *)
Definition truthyV (v : jsvalue) : bool :=
  match v with
  | None => false
  | Some JNull => false
  | Some (JBool b) => b
  | Some (JNum n) => negb (Z.eqb (mantissa n) 0)
  | Some (JStr s) => truthy s
  | Some (JArr _) => true
  | Some (JObj _) => true
  end.

(** [v.key] *)
Definition getProp (h : Host) (v : jsvalue) (key : jsstring)
  : completion jsvalue :=
  match v with
  | None => Abrupt (typeError h)
  | Some JNull => Abrupt (typeError h)
  | Some (JObj fields) => Normal (lookup key fields)
  | Some (JArr items) =>
      Normal (if Js.eqb key (lit "length")
              then Some (JNum (numberOfZ (Z.of_nat (List.length items))))
              else None)
  | Some (JStr s) =>
      Normal (if Js.eqb key (lit "length")
              then Some (JNum (numberOfZ (Z.of_nat (List.length s))))
              else None)
  | Some (JBool _) => Normal None
  | Some (JNum _) => Normal None
  end.

(** [v[0]] *)
Definition getFirst (h : Host) (v : jsvalue) : completion jsvalue :=
  match v with
  | None => Abrupt (typeError h)
  | Some JNull => Abrupt (typeError h)
  | Some (JObj fields) => Normal (lookup (lit "0") fields)
  | Some (JArr items) => Normal (nth_error items 0)
  | Some (JStr s) =>
      Normal (match s with [] => None | c :: _ => Some (JStr [c]) end)
  | Some (JBool _) => Normal None
  | Some (JNum _) => Normal None
  end.

(** [v > 0] *)
Definition greaterThanZero (h : Host) (v : jsvalue) : bool :=
  match v with
  | None => false
  | Some (JNum n) => Z.ltb 0 (mantissa n)
  | Some j =>
      match toNumber h j with
      | Some n => Z.ltb 0 (mantissa n)
      | None => false
      end
  end.

(** [arr.join(",")] over already converted items. *)
Fixpoint joinComma (parts : list jsstring) : jsstring :=
  match parts with
  | [] => []
  | [p] => p
  | p :: rest => p ++ lit "," ++ joinComma rest
  end.

(** The string a value becomes inside a template literal or under [+]. *)
Fixpoint toStringJson (h : Host) (j : json) : jsstring :=
  match j with
  | JNull => lit "null"
  | JBool true => lit "true"
  | JBool false => lit "false"
  | JNum n => numberToString h n
  | JStr s => s
  | JArr items =>
      joinComma
        (map (fun item => match item with
                          | JNull => []
                          | _ => toStringJson h item
                          end) items)
  | JObj _ => lit "[object Object]"
  end.

Definition toStringV (h : Host) (v : jsvalue) : jsstring :=
  match v with
  | None => lit "undefined"
  | Some j => toStringJson h j
  end.

Definition str (s : jsstring) : jsvalue := Some (JStr s).

(** ** The model catalog (models.js) *)

Record ModelConfig := {
  id : jsstring;
  name : jsstring;
  endpoint : option jsstring;
  useMaxCompletionTokens : option bool
}.

Definition plainModel (i n : string) : ModelConfig :=
  {| id := lit i; name := lit n; endpoint := None;
     useMaxCompletionTokens := None |}.

Definition responsesModel (i n : string) : ModelConfig :=
  {| id := lit i; name := lit n; endpoint := Some (lit "/v1/responses");
     useMaxCompletionTokens := None |}.

Definition completionTokensModel (i n : string) : ModelConfig :=
  {| id := lit i; name := lit n; endpoint := None;
     useMaxCompletionTokens := Some true |}.

Definition OPENAI_MODELS : list ModelConfig := [
  responsesModel "gpt-5.2-pro" "GPT-5.2 Pro";
  completionTokensModel "gpt-5.2" "GPT-5.2";
  completionTokensModel "gpt-5.1" "GPT-5.1";
  responsesModel "gpt-5-pro" "GPT-5 Pro";
  completionTokensModel "gpt-5" "GPT-5";
  completionTokensModel "gpt-5-mini" "GPT-5 Mini";
  completionTokensModel "gpt-5-nano" "GPT-5 Nano";
  responsesModel "o1-pro" "o1 Pro";
  completionTokensModel "o1" "o1";
  completionTokensModel "o3" "o3";
  completionTokensModel "o3-mini" "o3 Mini";
  completionTokensModel "o4-mini" "o4 Mini";
  plainModel "gpt-4.1" "GPT-4.1";
  plainModel "gpt-4.1-mini" "GPT-4.1 Mini";
  plainModel "gpt-4.1-nano" "GPT-4.1 Nano";
  plainModel "gpt-4o" "GPT-4o";
  plainModel "gpt-4o-mini" "GPT-4o Mini";
  plainModel "gpt-4-turbo" "GPT-4 Turbo";
  plainModel "gpt-4" "GPT-4";
  plainModel "gpt-3.5-turbo" "GPT-3.5 Turbo";
  plainModel "gpt-3.5-turbo-16k" "GPT-3.5 Turbo 16k"
].

(** ** Provider adapters *)

(** [getApiKey] *)
Definition getApiKey (p : Plugin) : jsstring :=
  if useLocalLLM (settings p) then lit ""
  else if Js.eqb (modelProvider (settings p)) (lit "gpt") then openAIApiKey p
  else if Js.eqb (modelProvider (settings p)) (lit "gemini") then geminiApiKey p
  else lit "".

Definition message (role content : string) : json :=
  JObj [(lit "role", JStr (lit role)); (lit "content", JStr (lit content))].

Definition userMessage (prompt : jsstring) : json :=
  JObj [(lit "role", JStr (lit "user")); (lit "content", JStr prompt)].

Definition gptSystemMessage : json :=
  message "system"
    "You are an expert assistant. Answer responsibly, concisely, and precisely. Always cite sources using [[Filename]].".

(** Line 389: [OPENAI_MODELS.find(m => m.id === settings.model)] *)
Definition findModel (catalog : list ModelConfig) (modelId : jsstring)
  : option ModelConfig :=
  find (fun m => Js.eqb (id m) modelId) catalog.

(** Line 396: the endpoint of the request. *)
Definition gptEndpoint (modelConfig : option ModelConfig) : jsstring :=
  match modelConfig with
  | Some m =>
      match endpoint m with
      | Some e => if truthy e then e else lit "/v1/chat/completions"
      | None => lit "/v1/chat/completions"
      end
  | None => lit "/v1/chat/completions"
  end.

Definition usesMaxCompletionTokens (modelConfig : option ModelConfig) : bool :=
  match modelConfig with
  | Some m =>
      match useMaxCompletionTokens m with
      | Some b => b
      | None => false
      end
  | None => false
  end.

(** Lines 391-432: the body of the request, field by field in the order
    the source assigns them. *)
Definition gptRequestBody (catalog : list ModelConfig)
           (s : VaultLLMAssistantSettings) (prompt : jsstring)
  : list (jsstring * json) :=
  let modelConfig := findModel catalog (model s) in
  let endpoint := gptEndpoint modelConfig in
  [(lit "model", JStr (model s)); (lit "temperature", JNum (temperature s))]
  ++ (if Js.eqb endpoint (lit "/v1/responses") then
        [(lit "input", JArr [gptSystemMessage; userMessage prompt])]
      else if Js.eqb endpoint (lit "/v1/completions") then
        [(lit "prompt",
          JStr (lit "System: You are an expert assistant. Answer concisely.
User: " ++ prompt ++ lit "
Assistant:"))]
      else
        [(lit "messages", JArr [gptSystemMessage; userMessage prompt])])
  ++ (if usesMaxCompletionTokens modelConfig then
        [(lit "max_completion_tokens", JNum (maxTokens s))]
      else if negb (Js.eqb endpoint (lit "/v1/responses")) then
        [(lit "max_tokens", JNum (maxTokens s))]
      else []).

Definition gptRequest (catalog : list ModelConfig) (p : Plugin)
           (prompt : jsstring) : Request :=
  let endpoint := gptEndpoint (findModel catalog (model (settings p))) in
  {| url := lit "https://api.openai.com" ++ endpoint;
     method := lit "POST";
     headers := [(lit "Content-Type", lit "application/json");
                 (lit "Authorization", lit "Bearer " ++ getApiKey p)];
     body := JObj (gptRequestBody catalog (settings p) prompt) |}.

(** [jsonResponse.choices[0].message.content], or the fixed text when
    there is no choice (lines 446-450 and 655-659). *)
Definition firstChoice (h : Host) (jsonResponse : json) : completion jsvalue :=
  choices <- getProp h (Some jsonResponse) (lit "choices") ;;
  if truthyV choices then
    len <- getProp h choices (lit "length") ;;
    if greaterThanZero h len then
      choice <- getFirst h choices ;;
      msg <- getProp h choice (lit "message") ;;
      getProp h msg (lit "content")
    else Normal (str (lit "No response generated."))
  else Normal (str (lit "No response generated.")).

(** Lines 458-469 and 556-567: the server's own message, when the error
    carries a body that parses and has [error.message]; every failure on
    the way is swallowed by the inner [try]. *)
Definition serverMessage (h : Host) (error : JsError) : option jsstring :=
  match errText error with
  | Some (Some errorBody) =>
      match JSON_parse h errorBody with
      | Some parsedBody =>
          match getProp h (Some parsedBody) (lit "error") with
          | Normal e =>
              if truthyV e then
                match getProp h e (lit "message") with
                | Normal m => if truthyV m then Some (toStringV h m) else None
                | Abrupt _ => None
                end
              else None
          | Abrupt _ => None
          end
      | None => None
      end
  | _ => None
  end.

(** [error.message || "Unknown error"] *)
Definition messageOrUnknown (error : JsError) : jsstring :=
  match errMessage error with
  | Some m => if truthy m then m else lit "Unknown error"
  | None => lit "Unknown error"
  end.

Definition statusTruthy (error : JsError) : option Z :=
  match errStatus error with
  | Some st => if Z.eqb st 0 then None else Some st
  | None => None
  end.

Definition isServerError (st : Z) : bool :=
  Z.eqb st 500 || Z.eqb st 502 || Z.eqb st 503 || Z.eqb st 504.

(** Lines 452-507: the [catch] of [queryGPT]. *)
Definition gptErrorMessage (h : Host) (error : JsError) : jsstring :=
  let errorMessage := lit "Error querying OpenAI: " in
  match serverMessage h error with
  | Some m => errorMessage ++ lit "Server message: " ++ m
  | None =>
      match statusTruthy error with
      | Some st =>
          if Z.eqb st 401 then
            errorMessage ++ lit "Authentication error. Please check your API key."
          else if Z.eqb st 403 then
            errorMessage ++ lit "Permission denied. Your API key may not have access to this model."
          else if Z.eqb st 404 then
            errorMessage ++ lit "The specified model was not found. It might be deprecated or unavailable."
          else if Z.eqb st 429 then
            errorMessage ++ lit "Rate limit exceeded or quota exceeded. Please check your OpenAI plan and limits."
          else if isServerError st then
            errorMessage ++ lit "OpenAI server error. Please try again later."
          else
            errorMessage ++ lit "Status " ++ intToString st ++ lit ": "
                         ++ messageOrUnknown error
      | None =>
          match errMessage error with
          | Some m =>
              if truthy m then errorMessage ++ m
              else errorMessage ++ lit "Unknown error occurred"
          | None => errorMessage ++ lit "Unknown error occurred"
          end
      end
  end.

Definition queryGPT (h : Host) (p : Plugin) (prompt : jsstring)
  : completion jsvalue :=
  tryCatch
    (jsonResponse <- requestUrl h (gptRequest OPENAI_MODELS p prompt) ;;
     firstChoice h jsonResponse)
    (fun error => Normal (str (gptErrorMessage h error))).

Definition geminiRequest (p : Plugin) (prompt : jsstring) : Request :=
  {| url := lit "https://generativelanguage.googleapis.com/v1beta/models/"
            ++ model (settings p) ++ lit ":generateContent?key=" ++ getApiKey p;
     method := lit "POST";
     headers := [(lit "Content-Type", lit "application/json")];
     body :=
       JObj [(lit "contents",
              JArr [JObj [(lit "parts", JArr [JObj [(lit "text", JStr prompt)]])]]);
             (lit "generationConfig",
              JObj [(lit "maxOutputTokens", JNum (maxTokens (settings p)));
                    (lit "temperature", JNum (temperature (settings p)))])] |}.

(** Lines 538-548: what [queryGemini] makes of a response that arrived. *)
Definition geminiResult (h : Host) (jsonResponse : json) : completion jsvalue :=
  candidates <- getProp h (Some jsonResponse) (lit "candidates") ;;
  len <- (if truthyV candidates
          then getProp h candidates (lit "length")
          else Normal None) ;;
  if truthyV candidates && greaterThanZero h len then
    candidate <- getFirst h candidates ;;
    content <- getProp h candidate (lit "content") ;;
    parts <- getProp h content (lit "parts") ;;
    part <- getFirst h parts ;;
    getProp h part (lit "text")
  else
    err <- getProp h (Some jsonResponse) (lit "error") ;;
    if truthyV err then
      msg <- getProp h err (lit "message") ;;
      Normal (str (lit "Gemini API Error: "
                   ++ (if truthyV msg then toStringV h msg
                       else lit "Unknown error")))
    else Normal (str (lit "No response generated.")).

(** Lines 550-609: the [catch] of [queryGemini]. *)
Definition geminiErrorMessage (h : Host) (error : JsError) : jsstring :=
  let errorMessage := lit "Error querying Gemini: " in
  match serverMessage h error with
  | Some m => errorMessage ++ lit "Server message: " ++ m
  | None =>
      match statusTruthy error with
      | Some st =>
          if Z.eqb st 400 then
            errorMessage ++ lit "Bad request. Check your model name and request format."
          else if Z.eqb st 401 then
            errorMessage ++ lit "Authentication error. Please check your API key."
          else if Z.eqb st 403 then
            errorMessage ++ lit "Permission denied. Your API key may not have access to this model."
          else if Z.eqb st 404 then
            errorMessage ++ lit "The specified model was not found. It might be deprecated or unavailable."
          else if Z.eqb st 429 then
            errorMessage ++ lit "Rate limit exceeded or quota exceeded. Please check your Google AI Studio quota."
          else if isServerError st then
            errorMessage ++ lit "Gemini server error. Please try again later."
          else
            errorMessage ++ lit "Status " ++ intToString st ++ lit ": "
                         ++ messageOrUnknown error
      | None =>
          match errMessage error with
          | Some m =>
              if truthy m then errorMessage ++ m
              else errorMessage ++ lit "Unknown error occurred"
          | None => errorMessage ++ lit "Unknown error occurred"
          end
      end
  end.

Definition queryGemini (h : Host) (p : Plugin) (prompt : jsstring)
  : completion jsvalue :=
  tryCatch
    (jsonResponse <- requestUrl h (geminiRequest p prompt) ;;
     geminiResult h jsonResponse)
    (fun error => Normal (str (geminiErrorMessage h error))).

(** Lines 622-629: the URL of the local server. *)
Definition lmStudioUrl (s : VaultLLMAssistantSettings) : jsstring :=
  let url := lmStudioApiUrl s in
  if negb (endsWith url (lit "/chat/completions")) then
    if endsWith url (lit "/") then url ++ lit "chat/completions"
    else url ++ lit "/chat/completions"
  else url.

Definition lmStudioRequest (p : Plugin) (prompt : jsstring) : Request :=
  {| url := lmStudioUrl (settings p);
     method := lit "POST";
     headers := [(lit "Content-Type", lit "application/json")];
     body :=
       JObj [(lit "model", JStr (lmStudioModel (settings p)));
             (lit "messages",
              JArr [message "system"
                      "You are a helpful assistant that answers questions about the user's Obsidian vault content.";
                    userMessage prompt]);
             (lit "max_tokens", JNum (maxTokens (settings p)));
             (lit "temperature", JNum (temperature (settings p)))] |}.

(** Lines 660-694: the [catch] of [queryLMStudio].  The [case 0] of the
    source sits under [if (error.status)] and is never reached. *)
Definition lmStudioErrorMessage (error : JsError) : jsstring :=
  let errorMessage := lit "Error querying LM Studio: " in
  match statusTruthy error with
  | Some st =>
      if Z.eqb st 404 then
        errorMessage ++ lit "Endpoint not found. Check your LM Studio URL setting."
      else if Z.eqb st 500 then
        errorMessage ++ lit "Server error. Check LM Studio logs."
      else if Z.eqb st 0 then
        errorMessage ++ lit "Connection failed. Is LM Studio running and the server started?"
      else
        errorMessage ++ lit "Status " ++ intToString st ++ lit ": "
                     ++ messageOrUnknown error
  | None =>
      match errMessage error with
      | Some m =>
          if truthy m then
            if includes m (lit "Connection refused")
               || includes m (lit "Failed to fetch")
            then errorMessage ++ lit "Connection failed. Is LM Studio running and the server started?"
            else errorMessage ++ m
          else errorMessage ++ lit "Unknown error occurred"
      | None => errorMessage ++ lit "Unknown error occurred"
      end
  end.

Definition queryLMStudio (h : Host) (p : Plugin) (prompt : jsstring)
  : completion jsvalue :=
  tryCatch
    (jsonResponse <- requestUrl h (lmStudioRequest p prompt) ;;
     firstChoice h jsonResponse)
    (fun error => Normal (str (lmStudioErrorMessage error))).

(** ** Response post-processing *)

(** A pattern character under the [i] flag: a lower-case ASCII letter of
    the pattern also matches its upper-case form. *)
Definition ciEq (p c : N) : bool :=
  N.eqb c p || ((N.leb 97 p) && (N.leb p 122) && N.eqb c (p - 32)%N).

(** A literal pattern under the [i] flag at the start of [s]: the rest. *)
Fixpoint ciPrefix (pat s : jsstring) : option jsstring :=
  match pat, s with
  | [], _ => Some s
  | p :: pat', c :: s' => if ciEq p c then ciPrefix pat' s' else None
  | _ :: _, [] => None
  end.

(** [\s*\n] at the start of [s]: the star is greedy and gives characters
    back until a line feed follows.  The result is what follows the match. *)
Fixpoint wsThenNewline (s : jsstring) : option jsstring :=
  match s with
  | [] => None
  | c :: s' =>
      if isWhiteSpace c then
        match wsThenNewline s' with
        | Some r => Some r
        | None => if N.eqb c LF then Some s' else None
        end
      else None
  end.

(** [/```m(?:d|arkdown)/i] at the start of [s]. *)
Definition fenceAt (s : jsstring) : bool :=
  match ciPrefix (lit "```m") s with
  | Some rest =>
      match ciPrefix (lit "d") rest with
      | Some _ => true
      | None =>
          match ciPrefix (lit "arkdown") rest with
          | Some _ => true
          | None => false
          end
      end
  | None => false
  end.

(** [/```m(?:d|arkdown)\s*\n/i] at the start of [s]: what follows the
    match.  The alternatives are tried in order. *)
Definition openerAt (s : jsstring) : option jsstring :=
  match ciPrefix (lit "```m") s with
  | Some rest =>
      let viaD :=
        match ciPrefix (lit "d") rest with
        | Some r => wsThenNewline r
        | None => None
        end in
      match viaD with
      | Some r => Some r
      | None =>
          match ciPrefix (lit "arkdown") rest with
          | Some r => wsThenNewline r
          | None => None
          end
      end
  | None => None
  end.

(** [text.replace(/^```m(?:d|arkdown)\s*\n/i, "")] *)
Definition stripLeadingOpener (text : jsstring) : jsstring :=
  match openerAt text with
  | Some rest => rest
  | None => text
  end.

(** [/\n```\s*$/i] at the start of [s]: the match runs to the end of the
    input. *)
Definition closerAt (s : jsstring) : bool :=
  startsWith s (LF :: lit "```") && forallb isWhiteSpace (skipn 4 s).

(** [text.replace(/\n```\s*$/i, "")]: the leftmost match is removed. *)
Fixpoint stripTrailingCloser (text : jsstring) : jsstring :=
  match text with
  | [] => []
  | c :: text' => if closerAt text then [] else c :: stripTrailingCloser text'
  end.

(** [text.match(/```m(?:d|arkdown)/i).index]; [None] when there is no
    match. *)
Fixpoint fenceIndex (text : jsstring) : option nat :=
  match text with
  | [] => None
  | _ :: text' =>
      if fenceAt text then Some 0%nat
      else match fenceIndex text' with
           | Some i => Some (S i)
           | None => None
           end
  end.

(** [text.replace(/```m(?:d|arkdown)\s*\n/i, "")]: the leftmost match is
    removed. *)
Fixpoint stripFirstOpener (text : jsstring) : jsstring :=
  match text with
  | [] => []
  | c :: text' =>
      match openerAt text with
      | Some rest => rest
      | None => c :: stripFirstOpener text'
      end
  end.

Definition cleanMarkdownResponse (text : jsstring) : jsstring :=
  let text := stripLeadingOpener text in
  let text := stripTrailingCloser text in
  match fenceIndex text with
  | Some (S i) => stripFirstOpener (substringFrom (S i) text)
  | _ => text
  end.

(** ** queryLLM *)

(** [currentFilePath ? `Current file: ${currentFilePath}` : ""] *)
Definition currentFileLine (currentFilePath : option jsstring) : jsstring :=
  match currentFilePath with
  | Some p => if truthy p then lit "Current file: " ++ p else lit ""
  | None => lit ""
  end.

(** Lines 303-352: the four prompts. *)
Definition buildPrompt (s : VaultLLMAssistantSettings) (query vaultContent : jsstring)
           (currentFilePath : option jsstring) : jsstring :=
  match mode s, useVaultContent s with
  | ModeQuery, true =>
      lit "You are an expert assistant for the user's Obsidian vault.
1. Be concise and precise. Minimize filler text and get straight to the answer.
2. Answer STRICTLY based on the provided notes.
3. Cite sources using the format [[file_path]].
4. Use Markdown formatting.

User's Notes:
" ++ vaultContent ++ lit "

" ++ currentFileLine currentFilePath ++ lit "

User's Question: " ++ query
  | ModeQuery, false =>
      lit "You are an expert assistant.
1. Answer clearly and concisely. Minimize filler text.
2. Use Markdown formatting.

User's Question: " ++ query
  | ModeCreate, true =>
      lit "You are a helpful assistant for creating new notes in the user's Obsidian vault.
You have access to the user's existing notes which are provided below.
Please create a comprehensive note about the requested topic, incorporating relevant information from the existing notes when applicable.
When referencing content from existing notes, cite the source file using the format [[file_path]].

IMPORTANT: Respond ONLY with the note content directly, without any additional text, introductions, or wrapper. DO NOT include ```md at the beginning or ``` at the end.
Use proper Markdown formatting with headings, lists, and code blocks as needed.
If you quote or reference content from the vault, make sure to include proper citations, you may include the specific part of the file that you are referencing using the format [[file_path#title_of_the_section_you_are_referencing]] (Do not change the title of the section you are referencing, use the same title as it is in the file with the same capitalization).
For any code examples, use proper markdown code blocks with language specification.

User's Notes:
" ++ vaultContent ++ lit "

" ++ currentFileLine currentFilePath ++ lit "

Topic to create a note about: " ++ query
  | ModeCreate, false =>
      lit "You are a helpful assistant for creating new notes.
Please create a comprehensive note about the requested topic.

IMPORTANT: Respond ONLY with the note content directly, without any additional text, introductions, or wrapper. DO NOT include ```md at the beginning or ``` at the end.
Use proper Markdown formatting with headings, lists, and code blocks as needed.
For any code examples, use proper markdown code blocks with language specification.

Topic to create a note about: " ++ query
  end.

(** Lines 356-366 and 794-804: the adapter chosen by the settings. *)
Definition dispatch (h : Host) (p : Plugin) (prompt : jsstring)
  : completion jsvalue :=
  if useLocalLLM (settings p) then queryLMStudio h p prompt
  else if Js.eqb (modelProvider (settings p)) (lit "gpt") then queryGPT h p prompt
  else if Js.eqb (modelProvider (settings p)) (lit "gemini") then queryGemini h p prompt
  else Abrupt (newError (lit "Unknown model provider")).

(** A method of [String.prototype] called on a value: it throws unless
    the value is a string. *)
Definition asString (h : Host) (v : jsvalue) : completion jsstring :=
  match v with
  | Some (JStr s) => Normal s
  | _ => Abrupt (typeError h)
  end.

(** [`Error: ${error.message}`] *)
Definition errorText (error : JsError) : jsstring :=
  lit "Error: " ++ match errMessage error with
                   | Some m => m
                   | None => lit "undefined"
                   end.

Definition queryLLM (h : Host) (p : Plugin) (query vaultContent : jsstring)
           (currentFilePath : option jsstring) : completion jsvalue :=
  tryCatch
    (let prompt := buildPrompt (settings p) query vaultContent currentFilePath in
     response <- dispatch h p prompt ;;
     match mode (settings p) with
     | ModeCreate =>
         text <- asString h response ;;
         Normal (str (cleanMarkdownResponse text))
     | ModeQuery => Normal response
     end)
    (fun error => Normal (str (errorText error))).

(** Lines 1479-1482 and 1079-1082: the test that routes a response to the
    error panel. *)
Definition isErrorResponse (response : jsstring) : bool :=
  startsWith response (lit "Error querying ")
  || startsWith response (lit "Gemini API Error:").

(** ** Note titles *)

(** [`LLM response ${new Date().toISOString().slice(0, 10)}`] *)
Definition defaultTitle (h : Host) : jsstring :=
  lit "LLM response " ++ today h.

Definition isQuote (c : N) : bool := N.eqb c 34 || N.eqb c 39.

Fixpoint dropLastIf (f : N -> bool) (s : jsstring) : jsstring :=
  match s with
  | [] => []
  | [c] => if f c then [] else [c]
  | c :: s' => c :: dropLastIf f s'
  end.

(** [s.replace(/^["']|["']$|[.:]$/g, "")]: a quote at the start, and a
    quote, full stop or colon at the end, are removed. *)
Definition stripTitlePunctuation (s : jsstring) : jsstring :=
  let s1 := match s with
            | c :: s' => if isQuote c then s' else s
            | [] => []
            end in
  dropLastIf (fun c => isQuote c || N.eqb c 46 || N.eqb c 58) s1.

Definition orDefault (s fallback : jsstring) : jsstring :=
  if truthy s then s else fallback.

(** Lines 781-819. *)
Definition generateTitleForResponse (h : Host) (p : Plugin)
           (query response : jsstring) : jsstring :=
  let attempt :=
    let prompt :=
      lit "Based on the following question and answer, suggest a concise, descriptive title (5-7 words max) that summarizes the main topic. Return ONLY the title text, nothing else.

Question: " ++ query ++ lit "

Answer: " ++ substringTo 500 response ++ lit "... (truncated for brevity)" in
    titleResponse <- dispatch h p prompt ;;
    title <- asString h titleResponse ;;
    Normal (orDefault (trim (stripTitlePunctuation title)) (defaultTitle h)) in
  match attempt with
  | Normal title => title
  | Abrupt _ => defaultTitle h
  end.

(** Lines 1601-1604: the title made of the query. *)
Definition queryTitle (query : jsstring) : jsstring :=
  if (50 <? List.length query)%nat
  then trim (substringTo 50 query) ++ lit "..."
  else trim query.

(** Lines 1583-1605: the title chosen by the view's "Create note" button. *)
Definition createNoteButtonTitle (h : Host) (p : Plugin)
           (query response : jsstring) : jsstring :=
  if generateTitlesWithLLM (settings p)
  then generateTitleForResponse h p query response
  else queryTitle query.

(** Lines 1096-1112: the title chosen by the modal in create mode.
    [generateTitleForResponse] does not throw, so the [catch] around the
    call is never entered. *)
Definition processQueryTitle (h : Host) (p : Plugin)
           (query content : jsstring) : jsstring :=
  let title := defaultTitle h in
  if generateTitlesWithLLM (settings p)
  then generateTitleForResponse h p query content
  else title.

(** ** Links *)

(** What [processWikiStyleLinks] puts into a paragraph. *)
Inductive Node :=
| TextNode (text : jsstring)
| LinkEl (href : jsstring) (textContent : jsstring).

Definition RBRACKET : N := 93%N.

(** The longest run of characters other than a closing bracket. *)
Fixpoint bracketRun (s : jsstring) : jsstring :=
  match s with
  | [] => []
  | c :: s' => if N.eqb c RBRACKET then [] else c :: bracketRun s'
  end.

(** [/\[\[([^\]]+)\]\]/] at the start of [s]: the captured group. *)
Definition wikiLinkAt (s : jsstring) : option jsstring :=
  if startsWith s (lit "[[") then
    match bracketRun (skipn 2 s) with
    | [] => None
    | run =>
        if startsWith (skipn (2 + List.length run) s) (lit "]]")
        then Some run else None
    end
  else None.

Definition textNode (pending : jsstring) : list Node :=
  match pending with
  | [] => []
  | _ => [TextNode (rev pending)]
  end.

(** Lines 1793-1834: the [exec] loop.  [skip] is the number of code units
    left before [lastIndex]; [pending] is the text since [lastIndex],
    reversed. *)
Fixpoint wikiFragment (skip : nat) (pending : jsstring) (s : jsstring)
  : list Node :=
  match s with
  | [] => textNode pending
  | c :: s' =>
      match skip with
      | S k => wikiFragment k pending s'
      | O =>
          match wikiLinkAt s with
          | Some run =>
              let path := trim run in
              textNode pending ++ LinkEl path path
                :: wikiFragment (4 + List.length run - 1) [] s'
          | None => wikiFragment 0 (c :: pending) s'
          end
      end
  end.

Definition isLinkEl (n : Node) : bool :=
  match n with LinkEl _ _ => true | TextNode _ => false end.

(** Lines 1782-1846, for one paragraph: its content afterwards.  The
    paragraph is rebuilt only when a link was found. *)
Definition processWikiStyleLinks (text : jsstring) : list Node :=
  let fragment := wikiFragment 0 [] text in
  if existsb isLinkEl fragment then fragment
  else match text with
       | [] => []
       | _ => [TextNode text]
       end.

(** What [processLinks] makes of one link. *)
Record LinkTarget := {
  filePath : jsstring;
  fragment : jsstring
}.

(** Line 1740. *)
Definition fullPath (t : LinkTarget) : jsstring :=
  if truthy (fragment t) then filePath t ++ fragment t else filePath t.

(** [s.replace(/\s+/g, "-")] *)
Fixpoint dashRuns (inRun : bool) (s : jsstring) : jsstring :=
  match s with
  | [] => []
  | c :: s' =>
      if isWhiteSpace c then
        if inRun then dashRuns true s' else 45%N :: dashRuns true s'
      else c :: dashRuns false s'
  end.

(** [href.replace(/[\[\],]/g, "")] *)
Definition removeBrackets (href : jsstring) : jsstring :=
  filter (fun c => negb (N.eqb c 91 || N.eqb c 93 || N.eqb c 44)) href.

(** Lines 1716-1737. *)
Definition resolveHref (h : Host) (href : jsstring) : LinkTarget :=
  let cleanHref := trim (removeBrackets href) in
  if includes cleanHref (lit " > ") then
    let parts := splitLimit (lit " > ") 2 cleanHref in
    {| filePath := trim (nth 0 parts []);
       fragment :=
         if (1 <? List.length parts)%nat
         then lit "#" ++ dashRuns false (toLowerCase h (trim (nth 1 parts [])))
         else lit "" |}
  else if includes cleanHref (lit "#") then
    let parts := splitLimit (lit "#") 2 cleanHref in
    {| filePath := trim (nth 0 parts []);
       fragment :=
         if (1 <? List.length parts)%nat
         then lit "#" ++ trim (nth 1 parts [])
         else lit "" |}
  else {| filePath := cleanHref; fragment := lit "" |}.

(** Lines 1712-1714: [link.getAttribute("href") || link.textContent?.trim()],
    for a link built by [processWikiStyleLinks]. *)
Definition linkHref (href textContent : jsstring) : jsstring :=
  if truthy href then href else trim textContent.

(** Lines 1704-1775 over the links of one paragraph: the target of every
    link that has one. *)
Fixpoint linkTargets (h : Host) (nodes : list Node) : list LinkTarget :=
  match nodes with
  | [] => []
  | TextNode _ :: rest => linkTargets h rest
  | LinkEl href textContent :: rest =>
      let href := linkHref href textContent in
      if truthy href then resolveHref h href :: linkTargets h rest
      else linkTargets h rest
  end.

(** [processLinks] on a paragraph holding [text]. *)
Definition processLinks (h : Host) (text : jsstring) : list LinkTarget :=
  linkTargets h (processWikiStyleLinks text).

(** ** Key obfuscation *)

(** [btoa] and [atob] of the browser. *)
Module Base64.

Local Open Scope N_scope.

Definition alphabet : jsstring :=
  lit "ABCDEFGHIJKLMNOPQRSTUVWXYZabcdefghijklmnopqrstuvwxyz0123456789+/".

Definition PAD : N := 61.

(** The character of a six-bit value. *)
Definition encodeSextet (v : N) : N := nth (N.to_nat v) alphabet 0.

Fixpoint indexOf (c : N) (l : jsstring) (i : N) : option N :=
  match l with
  | [] => None
  | x :: l' => if N.eqb x c then Some i else indexOf c l' (i + 1)
  end.

(** The six-bit value of a character of the alphabet. *)
Definition decodeSextet (c : N) : option N := indexOf c alphabet 0.

Fixpoint encodeBytes (l : list N) : jsstring :=
  match l with
  | [] => []
  | [a] =>
      [encodeSextet (a / 4); encodeSextet ((a mod 4) * 16); PAD; PAD]
  | [a; b] =>
      [encodeSextet (a / 4); encodeSextet ((a mod 4) * 16 + b / 16);
       encodeSextet ((b mod 16) * 4); PAD]
  | a :: b :: c :: rest =>
      encodeSextet (a / 4) :: encodeSextet ((a mod 4) * 16 + b / 16)
        :: encodeSextet ((b mod 16) * 4 + c / 64) :: encodeSextet (c mod 64)
        :: encodeBytes rest
  end.

(** [btoa(s)]: [None] when a character is above 255. *)
Definition btoa (s : jsstring) : option jsstring :=
  if forallb (fun c => c <=? 255) s then Some (encodeBytes s) else None.

Definition isAsciiWhitespace (c : N) : bool :=
  (c =? 9) || (c =? 10) || (c =? 12) || (c =? 13) || (c =? 32).

Definition isPadding (s : jsstring) : bool :=
  Js.eqb s [PAD] || Js.eqb s [PAD; PAD].

(** One or two [=] at the end of the data are removed. *)
Fixpoint removePadding (s : jsstring) : jsstring :=
  match s with
  | [] => []
  | c :: s' => if isPadding s then [] else c :: removePadding s'
  end.

Fixpoint decodeSextets (s : jsstring) : option (list N) :=
  match s with
  | [] => Some []
  | c :: s' =>
      match decodeSextet c, decodeSextets s' with
      | Some v, Some vs => Some (v :: vs)
      | _, _ => None
      end
  end.

(** Four sextets give three bytes; two left over give one byte, three
    give two; the bits left over are dropped. *)
Fixpoint decodeBytes (vs : list N) : list N :=
  match vs with
  | s1 :: s2 :: s3 :: s4 :: rest =>
      (s1 * 4 + s2 / 16) :: ((s2 mod 16) * 16 + s3 / 4)
        :: ((s3 mod 4) * 64 + s4) :: decodeBytes rest
  | [s1; s2; s3] => [s1 * 4 + s2 / 16; (s2 mod 16) * 16 + s3 / 4]
  | [s1; s2] => [s1 * 4 + s2 / 16]
  | _ => []
  end.

(** [atob(s)], the forgiving decoding of the HTML standard: [None] when
    it throws. *)
Definition atob (s : jsstring) : option jsstring :=
  let data := filter (fun c => negb (isAsciiWhitespace c)) s in
  let data :=
    if (Nat.eqb (List.length data mod 4) 0) then removePadding data
    else data in
  if Nat.eqb (List.length data mod 4) 1 then None
  else
    match decodeSextets data with
    | Some vs => Some (decodeBytes vs)
    | None => None
    end.

End Base64.

(** [ToInt32] on an integer-valued number. *)
Definition toInt32 (z : Z) : Z := ((z + 2147483648) mod 4294967296 - 2147483648)%Z.

(** [x << 5] *)
Definition shiftLeft5 (x : Z) : Z := toInt32 (Z.shiftl (toInt32 x) 5).

Definition hexDigit (d : Z) : N :=
  nth (Z.to_nat d) (lit "0123456789abcdef") 48%N.

Fixpoint hexDigits (fuel : nat) (n : Z) : jsstring :=
  match fuel with
  | O => []
  | S f =>
      if (n <? 16)%Z then [hexDigit n]
      else hexDigits f (n / 16)%Z ++ [hexDigit (n mod 16)%Z]
  end.

(** [n.toString(16)] for an integer [0 <= n]. *)
Definition toString16 (n : Z) : jsstring :=
  hexDigits (S (Z.to_nat (Z.log2 n))) n.

(** [s.padStart(16, "0")] *)
Definition padStart16 (s : jsstring) : jsstring :=
  repeat 48%N (16 - List.length s) ++ s.

(** Lines 896-911. *)
Definition getDeviceId (h : Host) : jsstring :=
  let userAgentInfo := orDefault (userAgent h) (lit "unknown") in
  let vaultPath := orDefault (vaultName h) (lit "obsidian") in
  let seed := userAgentInfo ++ lit "-" ++ vaultPath in
  let hash :=
    fold_left (fun hash char =>
                 toInt32 (shiftLeft5 hash - hash + Z.of_N char)%Z)
              seed 0%Z in
  padStart16 (toString16 (Z.abs hash)).

(** Lines 853-860 and 878-885: every character is combined with a
    character of the device id; [index] is the index of the first one.
    Reading past the device id throws. *)
Fixpoint xorWithDevice (h : Host) (deviceId : jsstring) (index : nat)
         (s : jsstring) : completion jsstring :=
  match s with
  | [] => Normal []
  | char :: s' =>
      match nth_error deviceId (index mod List.length deviceId) with
      | Some deviceChar =>
          rest <- xorWithDevice h deviceId (S index) s' ;;
          Normal ((N.lxor char deviceChar mod 65536)%N :: rest)
      | None => Abrupt (typeError h)
      end
  end.

Definition encryptApiKey (h : Host) (apiKey : jsstring) : completion jsstring :=
  if negb (truthy apiKey) then Normal (lit "")
  else
    let deviceId := getDeviceId h in
    mixed <- xorWithDevice h deviceId 0 apiKey ;;
    match Base64.btoa mixed with
    | Some encoded => Normal encoded
    | None => Abrupt (invalidCharacterError h)
    end.

Definition decryptApiKey (h : Host) (encryptedKey : jsstring) : jsstring :=
  if negb (truthy encryptedKey) then lit ""
  else
    let attempt :=
      let deviceId := getDeviceId h in
      decoded <- match Base64.atob encryptedKey with
                 | Some d => Normal d
                 | None => Abrupt (invalidCharacterError h)
                 end ;;
      xorWithDevice h deviceId 0 decoded in
    match attempt with
    | Normal key => key
    | Abrupt _ => lit ""
    end.

(** ** Sample data *)

(** The default settings with the scope of the scan set. *)
Definition scopeSettings (useVault currentOnly : bool) (include : jsstring)
           (exclude : list jsstring) : VaultLLMAssistantSettings := {|
  encryptedOpenAIApiKey := encryptedOpenAIApiKey DEFAULT_SETTINGS;
  encryptedGeminiApiKey := encryptedGeminiApiKey DEFAULT_SETTINGS;
  apiEndpoint := apiEndpoint DEFAULT_SETTINGS;
  modelProvider := modelProvider DEFAULT_SETTINGS;
  model := model DEFAULT_SETTINGS;
  lmStudioApiUrl := lmStudioApiUrl DEFAULT_SETTINGS;
  lmStudioModel := lmStudioModel DEFAULT_SETTINGS;
  useLocalLLM := useLocalLLM DEFAULT_SETTINGS;
  maxTokens := maxTokens DEFAULT_SETTINGS;
  temperature := temperature DEFAULT_SETTINGS;
  includeCurrentFileOnly := currentOnly;
  includeFolder := include;
  excludeFolder := exclude;
  newNoteFolder := newNoteFolder DEFAULT_SETTINGS;
  generateTitlesWithLLM := generateTitlesWithLLM DEFAULT_SETTINGS;
  useVaultContent := useVault;
  mode := mode DEFAULT_SETTINGS
|}.

(** The default settings with the provider, the model and the titling
    switch set. *)
Definition providerSettings (local : bool) (provider modelId : jsstring)
           (titles : bool) (m : Mode) : VaultLLMAssistantSettings := {|
  encryptedOpenAIApiKey := encryptedOpenAIApiKey DEFAULT_SETTINGS;
  encryptedGeminiApiKey := encryptedGeminiApiKey DEFAULT_SETTINGS;
  apiEndpoint := apiEndpoint DEFAULT_SETTINGS;
  modelProvider := provider;
  model := modelId;
  lmStudioApiUrl := lmStudioApiUrl DEFAULT_SETTINGS;
  lmStudioModel := lmStudioModel DEFAULT_SETTINGS;
  useLocalLLM := local;
  maxTokens := maxTokens DEFAULT_SETTINGS;
  temperature := temperature DEFAULT_SETTINGS;
  includeCurrentFileOnly := includeCurrentFileOnly DEFAULT_SETTINGS;
  includeFolder := includeFolder DEFAULT_SETTINGS;
  excludeFolder := excludeFolder DEFAULT_SETTINGS;
  newNoteFolder := newNoteFolder DEFAULT_SETTINGS;
  generateTitlesWithLLM := titles;
  useVaultContent := useVaultContent DEFAULT_SETTINGS;
  mode := m
|}.

Definition samplePlugin (s : VaultLLMAssistantSettings) : Plugin :=
  {| settings := s; openAIApiKey := lit "sk-test"; geminiApiKey := lit "AIza-test" |}.

Definition file (p : string) : TFile := {| path := lit p |}.

(** A store of four notes; every read succeeds. *)
Definition sampleVault : Vault := {|
  getMarkdownFiles :=
    [file "notes/a.md"; file "notes/b.md"; file "private/x.md"; file "public/y.md"];
  cachedRead := fun f =>
    if Js.eqb (path f) (lit "notes/a.md") then Some (lit "Paris is the capital of France")
    else if Js.eqb (path f) (lit "notes/b.md") then Some (lit "Berlin is the capital of Germany")
    else if Js.eqb (path f) (lit "private/x.md") then Some (lit "secret")
    else Some (lit "hello")
|}.

(** Lower-casing of the letters A-Z, the part of [toLowerCase] the
    examples need. *)
Definition asciiLower (s : jsstring) : jsstring :=
  map (fun c => if (N.leb 65 c && N.leb c 90)%bool then (c + 32)%N else c) s.

(** A host whose requests all yield [outcome]. *)
Definition sampleHost (outcome : completion json) : Host := {|
  requestUrl := fun _ => outcome;
  JSON_parse := fun _ => None;
  numberToString := fun n => intToString (mantissa n);
  toNumber := fun _ => None;
  typeError := newError (lit "Cannot read properties of undefined");
  invalidCharacterError := newError (lit "Invalid character");
  toLowerCase := asciiLower;
  today := lit "2026-11-02";
  userAgent := lit "Mozilla/5.0";
  vaultName := lit "vault"
|}.

(** A host whose requests are answered by an error object alone. *)
Definition quietHost : Host :=
  sampleHost (Normal (JObj [(lit "error", JObj [(lit "message", JStr (lit "quota"))])])).

Definition defaultPlugin : Plugin := samplePlugin DEFAULT_SETTINGS.

(** Scopes of the scan: the folder [private/] excluded; context switched
    off with "current file only" on; "current file only" on under an
    include folder and an exclude folder. *)
Definition excludePrivate : VaultLLMAssistantSettings :=
  scopeSettings true false (lit "") [lit "private/"].

Definition contextOff : VaultLLMAssistantSettings :=
  scopeSettings false true (lit "") [].

Definition currentOnly : VaultLLMAssistantSettings :=
  scopeSettings true true (lit "notes/") [lit "private/"].

Definition privateNote : TFile := file "private/x.md".

(** A selection with one note twice. *)
Definition twiceSelected : list TFile :=
  [file "notes/a.md"; file "notes/b.md"; file "notes/a.md"].

(** The body of the OpenAI request for a model, under the defaults. *)
Definition sampleBody (modelId : string) : list (jsstring * json) :=
  gptRequestBody OPENAI_MODELS
    (providerSettings false (lit "gpt") (lit modelId) true ModeQuery)
    (lit "Hi").

(** An error as [requestUrl] throws it for an HTTP status. *)
Definition httpError (st : Z) : JsError :=
  {| errStatus := Some st;
     errMessage := Some (lit "Request failed, status " ++ intToString st);
     errText := None |}.

(** A store whose only note has a line feed inside its path. *)
Definition twoLinePath : TFile := {| path := lit "a" ++ [LF] ++ lit "b.md" |}.

Definition twoLineVault : Vault := {|
  getMarkdownFiles := [twoLinePath];
  cachedRead := fun _ => Some (lit "x")
|}.

(** ** Notions used to state the properties *)

(** The documents that were read: path and content, in selection order. *)
Definition readable (vault : Vault) (files : list TFile)
  : list (jsstring * jsstring) :=
  flat_map (fun f => match cachedRead vault f with
                     | Some content => [(path f, content)]
                     | None => []
                     end) files.

(** One block per document. *)
Definition blocks (docs : list (jsstring * jsstring)) : jsstring :=
  List.concat (map (fun d => fileBlock (fst d) (snd d)) docs).

(** The additional context and the blank line after it. *)
Definition contextPrefix (additionalContext : jsstring) : jsstring :=
  if truthy additionalContext then additionalContext ++ [LF; LF] else lit "".

(** The three adapters under one name. *)
Inductive Provider := OpenAI | Gemini | LMStudio.

Definition requestOf (prov : Provider) (p : Plugin) (prompt : jsstring)
  : Request :=
  match prov with
  | OpenAI => gptRequest OPENAI_MODELS p prompt
  | Gemini => geminiRequest p prompt
  | LMStudio => lmStudioRequest p prompt
  end.

Definition queryWith (prov : Provider) (h : Host) (p : Plugin)
           (prompt : jsstring) : completion jsvalue :=
  match prov with
  | OpenAI => queryGPT h p prompt
  | Gemini => queryGemini h p prompt
  | LMStudio => queryLMStudio h p prompt
  end.

Definition errorPrefix (prov : Provider) : jsstring :=
  match prov with
  | OpenAI => lit "Error querying OpenAI: "
  | Gemini => lit "Error querying Gemini: "
  | LMStudio => lit "Error querying LM Studio: "
  end.

(** A response body with an inline error object. *)
Definition carriesError (jsonResponse : json) : bool :=
  match jsonResponse with
  | JObj fields => truthyV (lookup (lit "error") fields)
  | _ => false
  end.

(** A response body without candidates: the field is absent or an empty
    array. *)
Definition noCandidates (jsonResponse : json) : bool :=
  match jsonResponse with
  | JObj fields =>
      match lookup (lit "candidates") fields with
      | None => true
      | Some (JArr []) => true
      | Some _ => false
      end
  | _ => false
  end.

(** The failures of an adapter call, each with the prefix of the text it
    is turned into: the request throws (an HTTP status, or a transport
    error without one), or a Gemini response without candidates carries
    an inline error object. *)
Inductive AdapterFailure (h : Host) (p : Plugin) (prompt : jsstring)
  : Provider -> jsstring -> Prop :=
| RequestFails (prov : Provider) (e : JsError) :
    requestUrl h (requestOf prov p prompt) = Abrupt e ->
    AdapterFailure h p prompt prov (errorPrefix prov)
| InlineError (jsonResponse : json) :
    requestUrl h (geminiRequest p prompt) = Normal jsonResponse ->
    carriesError jsonResponse = true ->
    noCandidates jsonResponse = true ->
    AdapterFailure h p prompt Gemini (lit "Gemini API Error: ").

(** A Gemini body with a candidate and an error object side by side. *)
Definition candidateAndError : json :=
  JObj [(lit "candidates",
         JArr [JObj [(lit "content",
                      JObj [(lit "parts",
                             JArr [JObj [(lit "text", JStr (lit "Hello"))]])])]]);
        (lit "error", JObj [(lit "message", JStr (lit "quota"))])].

(** A Gemini body with an error object alone. *)
Definition errorOnly : json :=
  JObj [(lit "error", JObj [(lit "message", JStr (lit "quota"))])].

(** The title in the words of the specification: the raw query, cut at 50
    characters and followed by an ellipsis when it is longer. *)
Definition truncatedQuery (query : jsstring) : jsstring :=
  if (50 <? List.length query)%nat
  then substringTo 50 query ++ lit "..."
  else query.

(** A plugin with LLM titling switched off. *)
Definition untitledPlugin : Plugin :=
  samplePlugin (providerSettings false (lit "gemini") (lit "gemini-2.5-flash")
                                 false ModeCreate).

(** A query of 52 characters whose 50th is a space. *)
Definition longQuery : jsstring :=
  lit "What is the capital city of France and how big is it".

(** [pat], under the [i] flag, matches the whole of [s]. *)
Definition ciEqual (pat s : jsstring) : bool :=
  match ciPrefix pat s with
  | Some [] => true
  | _ => false
  end.

(** The fence openers of the specification: [```md] and [```markdown] in
    any letter case. *)
Definition isFenceOpener (opener : jsstring) : bool :=
  ciEqual (lit "```md") opener || ciEqual (lit "```markdown") opener.

(** The text has a character that is not whitespace, and no line feed
    before the first such character. *)
Fixpoint startsInline (s : jsstring) : bool :=
  match s with
  | [] => false
  | c :: s' =>
      if isWhiteSpace c then negb (N.eqb c LF) && startsInline s' else true
  end.

(** A fenced answer: opener, line feed, interior, line feed, closer. *)
Definition fenced (opener interior : jsstring) : jsstring :=
  opener ++ LF :: interior ++ LF :: lit "```".

(** An interior that holds a fence opener of its own. *)
Definition nestedInterior : jsstring :=
  lit "Intro" ++ LF :: lit "```md" ++ LF :: lit "Body".

(** Every character has a code point of at most 255. *)
Definition latin1 (s : jsstring) : Prop := Forall (fun c => (c <= 255)%N) s.

(** What is checked of each of the 64 six-bit values: its character
    decodes to it, and is neither whitespace nor the padding character. *)
Definition sextetChecks (v : N) : bool :=
  match Base64.decodeSextet (Base64.encodeSextet v) with
  | Some w => N.eqb w v
  | None => false
  end
  && negb (Base64.isAsciiWhitespace (Base64.encodeSextet v))
  && negb (N.eqb (Base64.encodeSextet v) Base64.PAD).

(** ** Notions used to state the further properties *)

(** What an adapter reads out of a response that arrived. *)
Definition extraction (prov : Provider) (h : Host) (jsonResponse : json)
  : completion jsvalue :=
  match prov with
  | Gemini => geminiResult h jsonResponse
  | OpenAI | LMStudio => firstChoice h jsonResponse
  end.

(** The field of the response that holds the answers. *)
Definition answersKey (prov : Provider) : jsstring :=
  match prov with
  | Gemini => lit "candidates"
  | OpenAI | LMStudio => lit "choices"
  end.

(** The text an adapter makes of a thrown error. *)
Definition adapterErrorText (prov : Provider) (h : Host) (error : JsError)
  : jsstring :=
  match prov with
  | OpenAI => gptErrorMessage h error
  | Gemini => geminiErrorMessage h error
  | LMStudio => lmStudioErrorMessage error
  end.

(** The adapter that [dispatch] calls, when there is one. *)
Definition selectedProvider (s : VaultLLMAssistantSettings) : option Provider :=
  if useLocalLLM s then Some LMStudio
  else if Js.eqb (modelProvider s) (lit "gpt") then Some OpenAI
  else if Js.eqb (modelProvider s) (lit "gemini") then Some Gemini
  else None.

(** A response whose only choice has no message. *)
Definition choiceWithoutMessage : json :=
  JObj [(lit "choices", JArr [JObj []])].

(** An error with a body in which the server explains itself. *)
Definition explainedError (st : Z) : JsError :=
  {| errStatus := Some st;
     errMessage := Some (lit "Request failed");
     errText := Some (Some (lit "{...}")) |}.

(** A host whose requests fail with [explainedError 401] and whose JSON
    parser reads the body of that error. *)
Definition explainingHost : Host := {|
  requestUrl := fun _ => Abrupt (explainedError 401);
  JSON_parse := fun _ =>
    Some (JObj [(lit "error",
                 JObj [(lit "message", JStr (lit "Incorrect API key provided"))])]);
  numberToString := fun n => intToString (mantissa n);
  toNumber := fun _ => None;
  typeError := newError (lit "Cannot read properties of undefined");
  invalidCharacterError := newError (lit "Invalid character");
  toLowerCase := asciiLower;
  today := lit "2026-11-02";
  userAgent := lit "Mozilla/5.0";
  vaultName := lit "vault"
|}.

(** ** The Gemini catalog and the model validator (models.js,
       validate_models.js) *)

Definition GEMINI_MODELS : list ModelConfig := [
  plainModel "gemini-3-pro-preview" "Gemini 3.0 Pro (Preview)";
  plainModel "gemini-3-flash-preview" "Gemini 3.0 Flash (Preview)";
  plainModel "gemini-2.5-pro" "Gemini 2.5 Pro";
  plainModel "gemini-2.5-flash" "Gemini 2.5 Flash";
  plainModel "gemini-2.5-flash-lite" "Gemini 2.5 Flash Lite";
  plainModel "gemini-2.0-flash" "Gemini 2.0 Flash";
  plainModel "gemini-2.0-flash-lite" "Gemini 2.0 Flash Lite";
  plainModel "gemini-pro-latest" "Gemini Pro (Latest)";
  plainModel "gemini-flash-latest" "Gemini Flash (Latest)";
  plainModel "gemini-flash-lite-latest" "Gemini Flash Lite (Latest)"
].

(** [modelObj.endpoint || '/v1/chat/completions'] *)
Definition validatorEndpoint (modelObj : ModelConfig) : jsstring :=
  match endpoint modelObj with
  | Some e => if truthy e then e else lit "/v1/chat/completions"
  | None => lit "/v1/chat/completions"
  end.

Definition validatorMessages : json :=
  JArr [JObj [(lit "role", JStr (lit "user")); (lit "content", JStr (lit "Hi"))]].

(** The body that [validateOpenAI] sends for one model of the catalog. *)
Definition validatorBody (modelObj : ModelConfig) : list (jsstring * json) :=
  let endpoint := validatorEndpoint modelObj in
  let maxTokens := numberOfZ 50 in
  [(lit "model", JStr (id modelObj))]
  ++ (if Js.eqb endpoint (lit "/v1/responses") then
        [(lit "input", validatorMessages)]
      else if Js.eqb endpoint (lit "/v1/completions") then
        [(lit "prompt", JStr (lit "Hi"))]
      else [(lit "messages", validatorMessages)])
  ++ (if match useMaxCompletionTokens modelObj with
         | Some b => b
         | None => false
         end
      then [(lit "max_completion_tokens", JNum maxTokens)]
      else if negb (Js.eqb endpoint (lit "/v1/responses")) then
        [(lit "max_tokens", JNum maxTokens)]
      else []).

Definition validatorUrl (modelObj : ModelConfig) : jsstring :=
  lit "https://api.openai.com" ++ validatorEndpoint modelObj.

(** The arguments of the validator; [parsed.openai] and [parsed.gemini]
    are [None] while unset. *)
Record ParsedArgs := {
  openai : option jsstring;
  gemini : option jsstring
}.

(** The loop of [parseArgs] from index [i] on: [args] is what is left of
    the arguments from that index. *)
Fixpoint parseArgsFrom (args : list jsstring) (parsed : ParsedArgs)
  : ParsedArgs :=
  match args with
  | [] => parsed
  | arg :: rest =>
      match rest with
      | value :: rest' =>
          if Js.eqb arg (lit "--openai") && truthy value then
            parseArgsFrom rest' {| openai := Some value; gemini := gemini parsed |}
          else if Js.eqb arg (lit "--gemini") && truthy value then
            parseArgsFrom rest' {| openai := openai parsed; gemini := Some value |}
          else parseArgsFrom rest parsed
      | [] => parsed
      end
  end.

Definition parseArgs (args : list jsstring) : ParsedArgs :=
  parseArgsFrom args {| openai := None; gemini := None |}.

(** The fields of a request body that say how the prompt and the token
    limit are passed. *)
Definition shapeKeys : list jsstring :=
  [lit "input"; lit "prompt"; lit "messages"; lit "max_tokens";
   lit "max_completion_tokens"].

Definition present (v : jsvalue) : bool :=
  match v with Some _ => true | None => false end.

(** A plugin in create mode that asks OpenAI. *)
Definition creatingPlugin : Plugin :=
  samplePlugin (providerSettings false (lit "gpt") (lit "gpt-4o") true ModeCreate).

(** A plugin in query mode that asks OpenAI. *)
Definition askingPlugin : Plugin :=
  samplePlugin (providerSettings false (lit "gpt") (lit "gpt-4o") true ModeQuery).

(** A host whose requests fail with a server message that quotes a
    markdown fence. *)
Definition fenceQuotingHost : Host := {|
  requestUrl := fun _ => Abrupt (explainedError 400);
  JSON_parse := fun _ =>
    Some (JObj [(lit "error",
                 JObj [(lit "message",
                        JStr (lit "Unexpected ```md" ++ LF :: lit "in input"))])]);
  numberToString := fun n => intToString (mantissa n);
  toNumber := fun _ => None;
  typeError := newError (lit "Cannot read properties of undefined");
  invalidCharacterError := newError (lit "Invalid character");
  toLowerCase := asciiLower;
  today := lit "2026-11-02";
  userAgent := lit "Mozilla/5.0";
  vaultName := lit "vault"
|}.

(** A text without a backtick. *)
Definition noBacktick (s : jsstring) : bool :=
  forallb (fun c => negb (N.eqb c 96)) s.

(** ** createNoteFromContent *)

(** The characters that line 741 removes: backslash, slash, colon,
    asterisk, question mark, double quote, angle brackets and bar. *)
Definition isIllegalInFileName (c : N) : bool :=
  existsb (N.eqb c) [92; 47; 58; 42; 63; 34; 60; 62; 124]%N.

(** Line 741: those characters are removed, then the title is trimmed. *)
Definition cleanTitle (title : jsstring) : jsstring :=
  trim (filter (fun c => negb (isIllegalInFileName c)) title).

(** Lines 743-745. *)
Definition noteFileName (h : Host) (title : jsstring) : jsstring :=
  orDefault (cleanTitle title) (defaultTitle h).

(** Lines 747-750. *)
Definition noteFolderPath (s : VaultLLMAssistantSettings) : jsstring :=
  let folderPath := trim (newNoteFolder s) in
  if truthy folderPath && negb (endsWith folderPath (lit "/"))
  then folderPath ++ lit "/"
  else folderPath.

(** Line 752. *)
Definition noteFullPath (h : Host) (s : VaultLLMAssistantSettings)
           (title : jsstring) : jsstring :=
  noteFolderPath s ++ noteFileName h title ++ lit ".md".

(** What the function asks of the store: [vault.adapter.exists],
    [vault.createFolder] and [vault.create]; each may throw. *)
Record NoteStore := {
  pathExists : jsstring -> completion bool;
  createFolder : jsstring -> completion unit;
  create : jsstring -> jsstring -> completion TFile
}.

(** Lines 736-772: the created file, or [None] for the [null] returned
    when something throws.  Opening the file afterwards is left out. *)
Definition createNoteFromContent (h : Host) (s : VaultLLMAssistantSettings)
           (store : NoteStore) (title content : jsstring) : option TFile :=
  let attempt :=
    let folderPath := noteFolderPath s in
    let fullPath := noteFullPath h s title in
    _ <- (if truthy folderPath then
            folderExists <- pathExists store folderPath ;;
            if negb folderExists then createFolder store folderPath
            else Normal tt
          else Normal tt) ;;
    create store fullPath content in
  match attempt with
  | Normal f => Some f
  | Abrupt _ => None
  end.

(** A store in which nothing exists yet and everything can be created. *)
Definition emptyStore : NoteStore := {|
  pathExists := fun _ => Normal false;
  createFolder := fun _ => Normal tt;
  create := fun p _ => Normal {| path := p |}
|}.

(** The default settings with the folder of new notes set. *)
Definition folderSettings (folder : jsstring) : VaultLLMAssistantSettings := {|
  encryptedOpenAIApiKey := encryptedOpenAIApiKey DEFAULT_SETTINGS;
  encryptedGeminiApiKey := encryptedGeminiApiKey DEFAULT_SETTINGS;
  apiEndpoint := apiEndpoint DEFAULT_SETTINGS;
  modelProvider := modelProvider DEFAULT_SETTINGS;
  model := model DEFAULT_SETTINGS;
  lmStudioApiUrl := lmStudioApiUrl DEFAULT_SETTINGS;
  lmStudioModel := lmStudioModel DEFAULT_SETTINGS;
  useLocalLLM := useLocalLLM DEFAULT_SETTINGS;
  maxTokens := maxTokens DEFAULT_SETTINGS;
  temperature := temperature DEFAULT_SETTINGS;
  includeCurrentFileOnly := includeCurrentFileOnly DEFAULT_SETTINGS;
  includeFolder := includeFolder DEFAULT_SETTINGS;
  excludeFolder := excludeFolder DEFAULT_SETTINGS;
  newNoteFolder := folder;
  generateTitlesWithLLM := generateTitlesWithLLM DEFAULT_SETTINGS;
  useVaultContent := useVaultContent DEFAULT_SETTINGS;
  mode := mode DEFAULT_SETTINGS
|}.

(** ** The error panel *)

(** Lines 1487-1498 and 1085-1087: the title and the details that the
    view shows for an error response (the modal shows the details after
    ["Failed to create note: "]); [None] stands for the branch that shows
    the response as it is. *)
Definition errorParts (response : jsstring) : option (jsstring * jsstring) :=
  if includes response (lit ":") then
    let parts := splitLimit (lit ":") 2 response in
    Some (nth 0 parts [] ++ lit ":", trim (nth 1 parts []))
  else None.

(** The text before the first occurrence of a character. *)
Fixpoint before (c : N) (s : jsstring) : jsstring :=
  match s with
  | [] => []
  | x :: s' => if N.eqb x c then [] else x :: before c s'
  end.

(** A text without a given character. *)
Definition without (c : N) (s : jsstring) : Prop := ~ In c s.

(** The characters that a path or a section name must not have for a
    reference to be read as written: brackets, comma, hash sign and
    greater-than sign. *)
Definition plainRefChar (c : N) : bool :=
  negb (N.eqb c 91 || N.eqb c 93 || N.eqb c 44 || N.eqb c 35 || N.eqb c 62).

(** A non-empty text of such characters without whitespace at either
    end. *)
Definition plainRefPart (s : jsstring) : Prop :=
  s <> [] /\ forallb plainRefChar s = true /\ trim s = s.

(** The title of the error panel for an adapter. *)
Definition panelTitle (prov : Provider) : jsstring :=
  match prov with
  | OpenAI => lit "Error querying OpenAI:"
  | Gemini => lit "Error querying Gemini:"
  | LMStudio => lit "Error querying LM Studio:"
  end.

(** ** Keys in the stored settings *)

(** [settings.encryptedOpenAIApiKey = v] and
    [settings.encryptedGeminiApiKey = v] *)
Definition withEncryptedOpenAIApiKey (v : jsstring) (s : VaultLLMAssistantSettings)
  : VaultLLMAssistantSettings := {|
  encryptedOpenAIApiKey := v;
  encryptedGeminiApiKey := encryptedGeminiApiKey s;
  apiEndpoint := apiEndpoint s;
  modelProvider := modelProvider s;
  model := model s;
  lmStudioApiUrl := lmStudioApiUrl s;
  lmStudioModel := lmStudioModel s;
  useLocalLLM := useLocalLLM s;
  maxTokens := maxTokens s;
  temperature := temperature s;
  includeCurrentFileOnly := includeCurrentFileOnly s;
  includeFolder := includeFolder s;
  excludeFolder := excludeFolder s;
  newNoteFolder := newNoteFolder s;
  generateTitlesWithLLM := generateTitlesWithLLM s;
  useVaultContent := useVaultContent s;
  mode := mode s
|}.

Definition withEncryptedGeminiApiKey (v : jsstring) (s : VaultLLMAssistantSettings)
  : VaultLLMAssistantSettings := {|
  encryptedOpenAIApiKey := encryptedOpenAIApiKey s;
  encryptedGeminiApiKey := v;
  apiEndpoint := apiEndpoint s;
  modelProvider := modelProvider s;
  model := model s;
  lmStudioApiUrl := lmStudioApiUrl s;
  lmStudioModel := lmStudioModel s;
  useLocalLLM := useLocalLLM s;
  maxTokens := maxTokens s;
  temperature := temperature s;
  includeCurrentFileOnly := includeCurrentFileOnly s;
  includeFolder := includeFolder s;
  excludeFolder := excludeFolder s;
  newNoteFolder := newNoteFolder s;
  generateTitlesWithLLM := generateTitlesWithLLM s;
  useVaultContent := useVaultContent s;
  mode := mode s
|}.

Module Persistence.

(** [this.settings] as an object: the settings of the interface and the
    two properties that older versions stored, [None] where the object
    has no such property.  The old properties are taken to hold strings. *)
Record SettingsObject := {
  typed : VaultLLMAssistantSettings;
  encryptedApiKey : option jsstring;
  apiKey : option jsstring
}.

(** The plugin, and what [saveData] was last given. *)
Record State := {
  settings : SettingsObject;
  openAIApiKey : jsstring;
  geminiApiKey : jsstring;
  data : option SettingsObject
}.

(** The state reached, and the error thrown on the way if any. *)
Definition Outcome : Type := State * option JsError.

Definition andThen (r : Outcome) (k : State -> Outcome) : Outcome :=
  match r with
  | (st, None) => k st
  | (st, Some e) => (st, Some e)
  end.

Definition setSettings (o : SettingsObject) (st : State) : State :=
  {| settings := o; openAIApiKey := openAIApiKey st;
     geminiApiKey := geminiApiKey st; data := data st |}.

Definition setOpenAIApiKey (v : jsstring) (st : State) : State :=
  {| settings := settings st; openAIApiKey := v;
     geminiApiKey := geminiApiKey st; data := data st |}.

Definition setGeminiApiKey (v : jsstring) (st : State) : State :=
  {| settings := settings st; openAIApiKey := openAIApiKey st;
     geminiApiKey := v; data := data st |}.

Definition setTyped (s : VaultLLMAssistantSettings) (st : State) : State :=
  setSettings {| typed := s;
                 encryptedApiKey := encryptedApiKey (settings st);
                 apiKey := apiKey (settings st) |} st.

(** [delete this.settings.encryptedApiKey] and [delete this.settings.apiKey] *)
Definition deleteEncryptedApiKey (st : State) : State :=
  setSettings {| typed := typed (settings st);
                 encryptedApiKey := None;
                 apiKey := apiKey (settings st) |} st.

Definition deleteApiKey (st : State) : State :=
  setSettings {| typed := typed (settings st);
                 encryptedApiKey := encryptedApiKey (settings st);
                 apiKey := None |} st.

(** Lines 221-223: [saveData] is given [this.settings]. *)
Definition saveSettings (st : State) : State :=
  {| settings := settings st; openAIApiKey := openAIApiKey st;
     geminiApiKey := geminiApiKey st; data := Some (settings st) |}.

(** Lines 932-938, 164-172 and 182-190: the key of the provider is set in
    memory, then its encrypted form in the settings; [encryptApiKey] may
    throw in between. *)
Definition assignKey (h : Host) (provider apiKey : jsstring) (st : State)
  : Outcome :=
  if Js.eqb provider (lit "gpt") then
    let st := setOpenAIApiKey apiKey st in
    match encryptApiKey h apiKey with
    | Normal encrypted =>
        (setTyped (withEncryptedOpenAIApiKey encrypted (typed (settings st))) st,
         None)
    | Abrupt e => (st, Some e)
    end
  else if Js.eqb provider (lit "gemini") then
    let st := setGeminiApiKey apiKey st in
    match encryptApiKey h apiKey with
    | Normal encrypted =>
        (setTyped (withEncryptedGeminiApiKey encrypted (typed (settings st))) st,
         None)
    | Abrupt e => (st, Some e)
    end
  else (st, None).

(** Lines 931-940. *)
Definition setApiKey (h : Host) (apiKey provider : jsstring) (st : State)
  : Outcome :=
  andThen (assignKey h provider apiKey st)
          (fun st => (saveSettings st, None)).

(** Lines 142-153: the stored keys are decrypted. *)
Definition loadEncryptedKeys (h : Host) (st : State) : State :=
  let st :=
    if truthy (encryptedOpenAIApiKey (typed (settings st)))
    then setOpenAIApiKey
           (decryptApiKey h (encryptedOpenAIApiKey (typed (settings st)))) st
    else st in
  if truthy (encryptedGeminiApiKey (typed (settings st)))
  then setGeminiApiKey
         (decryptApiKey h (encryptedGeminiApiKey (typed (settings st)))) st
  else st.

(** Lines 155-176: the key in the format of older versions. *)
Definition migrateEncryptedApiKey (h : Host) (st : State) : Outcome :=
  match encryptedApiKey (settings st) with
  | Some legacy =>
      if truthy legacy then
        let oldKey := decryptApiKey h legacy in
        if truthy oldKey then
          andThen (assignKey h (modelProvider (typed (settings st))) oldKey st)
                  (fun st => (saveSettings (deleteEncryptedApiKey st), None))
        else (st, None)
      else (st, None)
  | None => (st, None)
  end.

(** Lines 178-196: a key stored as plain text. *)
Definition migrateApiKey (h : Host) (st : State) : Outcome :=
  match apiKey (settings st) with
  | Some plain =>
      if truthy plain then
        andThen
          (if negb (truthy (openAIApiKey st)) && negb (truthy (geminiApiKey st))
           then assignKey h (modelProvider (typed (settings st))) plain st
           else (st, None))
          (fun st => (saveSettings (deleteApiKey st), None))
      else (st, None)
  | None => (st, None)
  end.

(** Lines 134-197.  [merged] is the object that [Object.assign] builds
    from the defaults and the loaded data. *)
Definition loadSettings (h : Host) (merged : SettingsObject) (st : State)
  : Outcome :=
  let st := loadEncryptedKeys h (setSettings merged st) in
  andThen (migrateEncryptedApiKey h st) (migrateApiKey h).

(** The plugin when it has been constructed: both keys are empty. *)
Definition constructed (o : SettingsObject) : State :=
  {| settings := o; openAIApiKey := lit ""; geminiApiKey := lit "";
     data := None |}.

(** Settings without the properties of older versions, and settings of an
    older version with a key in plain text. *)
Definition currentFormat (s : VaultLLMAssistantSettings) : SettingsObject :=
  {| typed := s; encryptedApiKey := None; apiKey := None |}.

Definition plainTextFormat (s : VaultLLMAssistantSettings) (key : jsstring)
  : SettingsObject :=
  {| typed := s; encryptedApiKey := None; apiKey := Some key |}.

End Persistence.

(** The code units of a string. *)
Definition codeUnits (s : jsstring) : Prop := Forall (fun c => (c < 65536)%N) s.

(** A key with a character outside Latin-1: the euro sign. *)
Definition euroKey : jsstring := lit "sk-" ++ [8364%N].

(** The characters of [n.toString(16)]. *)
Definition isHexDigit (c : N) : bool :=
  ((48 <=? c) && (c <=? 57))%N || ((97 <=? c) && (c <=? 102))%N.

(** A plugin just constructed, with the default settings. *)
Definition constructedPlugin : Persistence.State :=
  Persistence.constructed (Persistence.currentFormat DEFAULT_SETTINGS).

(** The default settings with the provider set. *)
Definition settingsOf (provider : string) : VaultLLMAssistantSettings :=
  providerSettings false (lit provider) (model DEFAULT_SETTINGS) true ModeQuery.

(** ** The settings tab *)

(** Assignments to [settings.modelProvider], [settings.apiEndpoint],
    [settings.model] and [settings.excludeFolder]. *)
Definition withModelProvider (v : jsstring) (s : VaultLLMAssistantSettings)
  : VaultLLMAssistantSettings := {|
  encryptedOpenAIApiKey := encryptedOpenAIApiKey s;
  encryptedGeminiApiKey := encryptedGeminiApiKey s;
  apiEndpoint := apiEndpoint s;
  modelProvider := v;
  model := model s;
  lmStudioApiUrl := lmStudioApiUrl s;
  lmStudioModel := lmStudioModel s;
  useLocalLLM := useLocalLLM s;
  maxTokens := maxTokens s;
  temperature := temperature s;
  includeCurrentFileOnly := includeCurrentFileOnly s;
  includeFolder := includeFolder s;
  excludeFolder := excludeFolder s;
  newNoteFolder := newNoteFolder s;
  generateTitlesWithLLM := generateTitlesWithLLM s;
  useVaultContent := useVaultContent s;
  mode := mode s
|}.

Definition withApiEndpoint (v : jsstring) (s : VaultLLMAssistantSettings)
  : VaultLLMAssistantSettings := {|
  encryptedOpenAIApiKey := encryptedOpenAIApiKey s;
  encryptedGeminiApiKey := encryptedGeminiApiKey s;
  apiEndpoint := v;
  modelProvider := modelProvider s;
  model := model s;
  lmStudioApiUrl := lmStudioApiUrl s;
  lmStudioModel := lmStudioModel s;
  useLocalLLM := useLocalLLM s;
  maxTokens := maxTokens s;
  temperature := temperature s;
  includeCurrentFileOnly := includeCurrentFileOnly s;
  includeFolder := includeFolder s;
  excludeFolder := excludeFolder s;
  newNoteFolder := newNoteFolder s;
  generateTitlesWithLLM := generateTitlesWithLLM s;
  useVaultContent := useVaultContent s;
  mode := mode s
|}.

Definition withModel (v : jsstring) (s : VaultLLMAssistantSettings)
  : VaultLLMAssistantSettings := {|
  encryptedOpenAIApiKey := encryptedOpenAIApiKey s;
  encryptedGeminiApiKey := encryptedGeminiApiKey s;
  apiEndpoint := apiEndpoint s;
  modelProvider := modelProvider s;
  model := v;
  lmStudioApiUrl := lmStudioApiUrl s;
  lmStudioModel := lmStudioModel s;
  useLocalLLM := useLocalLLM s;
  maxTokens := maxTokens s;
  temperature := temperature s;
  includeCurrentFileOnly := includeCurrentFileOnly s;
  includeFolder := includeFolder s;
  excludeFolder := excludeFolder s;
  newNoteFolder := newNoteFolder s;
  generateTitlesWithLLM := generateTitlesWithLLM s;
  useVaultContent := useVaultContent s;
  mode := mode s
|}.

Definition withExcludeFolder (v : list jsstring) (s : VaultLLMAssistantSettings)
  : VaultLLMAssistantSettings := {|
  encryptedOpenAIApiKey := encryptedOpenAIApiKey s;
  encryptedGeminiApiKey := encryptedGeminiApiKey s;
  apiEndpoint := apiEndpoint s;
  modelProvider := modelProvider s;
  model := model s;
  lmStudioApiUrl := lmStudioApiUrl s;
  lmStudioModel := lmStudioModel s;
  useLocalLLM := useLocalLLM s;
  maxTokens := maxTokens s;
  temperature := temperature s;
  includeCurrentFileOnly := includeCurrentFileOnly s;
  includeFolder := includeFolder s;
  excludeFolder := v;
  newNoteFolder := newNoteFolder s;
  generateTitlesWithLLM := generateTitlesWithLLM s;
  useVaultContent := useVaultContent s;
  mode := mode s
|}.

(** Lines 1897-1916: the provider dropdown changes to [value]. *)
Definition onProviderChange (value : jsstring) (s : VaultLLMAssistantSettings)
  : VaultLLMAssistantSettings :=
  let s := withModelProvider value s in
  if Js.eqb value (lit "gpt") then
    let s := withApiEndpoint (lit "https://api.openai.com/v1/chat/completions") s in
    if negb (startsWith (model s) (lit "gpt"))
    then withModel (lit "gpt-4o-mini") s
    else s
  else if Js.eqb value (lit "gemini") then
    let s :=
      withApiEndpoint
        (lit "https://generativelanguage.googleapis.com/v1beta/models") s in
    if negb (startsWith (model s) (lit "gemini"))
    then withModel (lit "gemini-3-pro-preview") s
    else s
  else s.

(** Lines 2465-2467:
    [if (!excludeFolder.includes(folder)) excludeFolder.push(folder)] *)
Definition pushNew (folders : list jsstring) (folder : jsstring)
  : list jsstring :=
  if existsb (Js.eqb folder) folders then folders else folders ++ [folder].

(** Lines 2454-2473: the Add button of the exclude folders, with [input]
    in the text box. *)
Definition addExcludeFolders (input : jsstring) (s : VaultLLMAssistantSettings)
  : VaultLLMAssistantSettings :=
  if truthy input then
    let folders := filter truthy (map trim (split (lit ",") input)) in
    withExcludeFolder (fold_left pushNew folders (excludeFolder s)) s
  else s.

(** A model id of a catalog. *)
Definition inCatalog (catalog : list ModelConfig) (modelId : jsstring) : bool :=
  existsb (fun m => Js.eqb (id m) modelId) catalog.

(** [value] is an argument that directly follows [flag]. *)
Definition follows (flag value : jsstring) (args : list jsstring) : Prop :=
  exists pre post, args = pre ++ flag :: value :: post.

(** A key of the validator is given after its flag, and is not empty. *)
Definition givenKey (flag : jsstring) (key : option jsstring)
           (args : list jsstring) : Prop :=
  forall v, key = Some v -> truthy v = true /\ follows flag v args.

(* ================================================================== *)
(** * Part II. Properties                                              *)
(* ================================================================== *)

(** ** Strings *)

Section StringFacts.

Lemma jsstring_eqb_refl (a : jsstring) : Js.eqb a a = true.
Proof.
  induction a as [|x a IH]; simpl; [reflexivity|].
  now rewrite N.eqb_refl, IH.
Qed.

Lemma jsstring_eqb_eq (a b : jsstring) : Js.eqb a b = true <-> a = b.
Proof.
  split.
  - revert b; induction a as [|x a IH]; intros [|y b] H; simpl in H;
      try discriminate; [reflexivity|].
    apply andb_true_iff in H as [Hx Hr].
    apply N.eqb_eq in Hx. f_equal; auto.
  - intros ->. apply jsstring_eqb_refl.
Qed.

Lemma jsstring_eqb_neq (a b : jsstring) : Js.eqb a b = false <-> a <> b.
Proof.
  split.
  - intros H E. apply jsstring_eqb_eq in E. congruence.
  - intros H. destruct (Js.eqb a b) eqn:E; [|reflexivity].
    apply jsstring_eqb_eq in E. contradiction.
Qed.

Lemma startsWith_nil (s : jsstring) : startsWith s [] = true.
Proof. destruct s; reflexivity. Qed.

Lemma startsWith_app (p r : jsstring) : startsWith (p ++ r) p = true.
Proof.
  induction p as [|x p IH]; simpl; [reflexivity|].
  now rewrite N.eqb_refl.
Qed.

(** A pattern without a line feed that starts [c ++ LF :: r] starts [c]. *)
Lemma startsWith_before_LF (p c r : jsstring) :
  ~ In LF p -> startsWith (c ++ LF :: r) p = startsWith c p.
Proof.
  revert c; induction p as [|x p IH]; intros c Hp.
  - reflexivity.
  - destruct c as [|y c]; simpl.
    + destruct (N.eqb_spec x LF) as [->|]; [|reflexivity].
      exfalso. apply Hp. now left.
    + rewrite IH; [reflexivity|]. intros Hin. apply Hp. now right.
Qed.

Lemma includes_false_start (s p : jsstring) :
  includes s p = false -> startsWith s p = false.
Proof.
  destruct s; simpl; intros H; apply orb_false_iff in H; tauto.
Qed.

Lemma includes_false_tail (c : N) (s p : jsstring) :
  includes (c :: s) p = false -> includes s p = false.
Proof.
  simpl. intros H. apply orb_false_iff in H. tauto.
Qed.

End StringFacts.

(** ** Corpus selection *)

Section Selection.

Variable s : VaultLLMAssistantSettings.
Variable vault : Vault.

Lemma filter_all {A} (f : A -> bool) (l : list A) :
  (forall x, f x = true) -> filter f l = l.
Proof.
  intros H. induction l as [|x l IH]; simpl; [reflexivity|].
  now rewrite H, IH.
Qed.

(** Without "current file only" the selection is the catalog filtered by
    the include folder, then by the exclude folders. *)
Lemma selectFiles_filters (currentFile : option TFile) :
  includeCurrentFileOnly s = false ->
  selectFiles s vault currentFile
  = filter (fun f => negb (excluded s f))
           (filter (included s) (getMarkdownFiles vault)).
Proof.
  intros Hoff. unfold selectFiles. rewrite Hoff.
  assert (Hinc : (if truthy (includeFolder s)
                  then filter (fun file => startsWith (path file) (includeFolder s))
                              (getMarkdownFiles vault)
                  else getMarkdownFiles vault)
                 = filter (included s) (getMarkdownFiles vault)).
  { unfold included. destruct (includeFolder s) as [|c inc]; simpl; [|reflexivity].
    symmetry. now apply filter_all. }
  rewrite Hinc. unfold excluded.
  destruct (excludeFolder s) as [|e ex]; simpl; [|reflexivity].
  symmetry. now apply filter_all.
Qed.

Lemma excluded_false (file : TFile) :
  excluded s file = false ->
  forall folder, In folder (excludeFolder s) ->
                 startsWith (path file) folder = false.
Proof.
  unfold excluded. intros H folder Hin.
  destruct (startsWith (path file) folder) eqn:E; [|reflexivity].
  assert (existsb (fun folder => startsWith (path file) folder)
                  (excludeFolder s) = true).
  { apply existsb_exists. exists folder. split; assumption. }
  congruence.
Qed.

End Selection.

(** [C1] With context inclusion enabled and "current file only" off, the
    context of [scanVault] is assembled from the catalog filtered by the
    include folder first and by the exclude folders second; when the
    include folder is a non-empty string every selected path starts with
    it, and no selected path starts with a member of the exclude list. *)
Theorem scanVault_applies_include_then_exclude :
  forall (s : VaultLLMAssistantSettings) (vault : Vault)
         (additionalContext : jsstring) (currentFile : option TFile),
    useVaultContent s = true ->
    includeCurrentFileOnly s = false ->
    let files := selectFiles s vault currentFile in
    scanVault s vault additionalContext currentFile
      = assemble vault files additionalContext
    /\ files = filter (fun f => negb (excluded s f))
                      (filter (included s) (getMarkdownFiles vault))
    /\ (includeFolder s <> lit "" ->
        Forall (fun f => startsWith (path f) (includeFolder s) = true) files)
    /\ Forall (fun f => forall folder, In folder (excludeFolder s) ->
                                       startsWith (path f) folder = false)
              files.
Proof.
  intros s vault extra cur Hctx Hoff files.
  assert (Hsel := selectFiles_filters s vault cur Hoff). fold files in Hsel.
  split; [|split; [exact Hsel|split]].
  - unfold scanVault. now rewrite Hctx.
  - intros _. rewrite Hsel. apply Forall_forall. intros f Hin.
    apply filter_In in Hin as [Hin _]. apply filter_In in Hin as [_ Hinc].
    exact Hinc.
  - rewrite Hsel. apply Forall_forall. intros f Hin.
    apply filter_In in Hin as [_ Hex]. apply negb_true_iff in Hex.
    now apply excluded_false.
Qed.

(** The exclude filter ["private/"] on the sample store, no include
    folder: no selected path starts with an excluded prefix. *)
Lemma scanVault_applies_include_then_exclude_witness :
  useVaultContent excludePrivate = true
  /\ includeCurrentFileOnly excludePrivate = false
  /\ selectFiles excludePrivate sampleVault None
     = [file "notes/a.md"; file "notes/b.md"; file "public/y.md"]
  /\ Forall (fun f => forall folder, In folder (excludeFolder excludePrivate) ->
                                     startsWith (path f) folder = false)
            (selectFiles excludePrivate sampleVault None).
Proof.
  split; [reflexivity|]. split; [reflexivity|].
  split; [reflexivity|].
  exact (proj2 (proj2 (proj2
           (scanVault_applies_include_then_exclude
              excludePrivate sampleVault (lit "") None eq_refl eq_refl)))).
Defined.

(** As stated, [C3] has no condition on context inclusion: with it
    disabled [scanVault] returns the additional context alone, whatever
    the current document. *)
Lemma current_file_only_counterexample :
  includeCurrentFileOnly contextOff = true
  /\ scanVault contextOff sampleVault (lit "") (Some privateNote) = lit ""
  /\ assemble sampleVault [privateNote] (lit "")
     = fileBlock (lit "private/x.md") (lit "secret")
  /\ scanVault contextOff sampleVault (lit "") (Some privateNote)
     <> assemble sampleVault [privateNote] (lit "").
Proof.
  split; [reflexivity|]. split; [reflexivity|]. split; [reflexivity|].
  vm_compute. discriminate.
Qed.

(** [C3], amended: with context inclusion enabled, "current file only" on
    and a current document supplied, the files selected are that document
    alone, whatever the include folder and the exclude folders, and the
    context is assembled from it: its block when the read succeeds,
    nothing when it fails, after the additional context. *)
Theorem current_file_only_bypasses_filters :
  forall (s : VaultLLMAssistantSettings) (vault : Vault)
         (additionalContext : jsstring) (current : TFile),
    useVaultContent s = true ->
    includeCurrentFileOnly s = true ->
    selectFiles s vault (Some current) = [current]
    /\ scanVault s vault additionalContext (Some current)
       = assemble vault [current] additionalContext
    /\ assemble vault [current] additionalContext
       = (if truthy additionalContext then additionalContext ++ [LF; LF]
          else lit "")
         ++ match cachedRead vault current with
            | Some content => fileBlock (path current) content
            | None => lit ""
            end.
Proof.
  intros s vault extra current Hctx Hcur.
  assert (Hsel : selectFiles s vault (Some current) = [current]).
  { unfold selectFiles. now rewrite Hcur. }
  split; [exact Hsel|]. split.
  - unfold scanVault. now rewrite Hctx, Hsel.
  - unfold assemble. simpl.
    destruct (cachedRead vault current) as [content|];
      destruct (truthy extra); simpl; try reflexivity.
    + now rewrite <- app_assoc.
    + now rewrite <- app_assoc.
Qed.

(** The current document lies under an excluded folder and outside the
    include folder, and is selected all the same. *)
Lemma current_file_only_bypasses_filters_witness :
  useVaultContent currentOnly = true
  /\ includeCurrentFileOnly currentOnly = true
  /\ included currentOnly privateNote = false
  /\ excluded currentOnly privateNote = true
  /\ selectFiles currentOnly sampleVault (Some privateNote) = [privateNote]
  /\ scanVault currentOnly sampleVault (lit "") (Some privateNote)
     = fileBlock (lit "private/x.md") (lit "secret").
Proof.
  pose proof (current_file_only_bypasses_filters
                currentOnly sampleVault (lit "") privateNote eq_refl eq_refl)
    as [Hsel [Hscan Hblob]].
  do 4 (split; [reflexivity|]).
  split; [exact Hsel|].
  rewrite Hscan, Hblob. reflexivity.
Defined.

(** ** Context blob and source extraction *)

Section SourceExtraction.

Lemma FILE_marker : lit "FILE: " = [70; 73; 76; 69; 58; 32]%N.
Proof. reflexivity. Qed.

Lemma FILE_marker_one_line : ~ In LF (lit "FILE: ").
Proof.
  rewrite FILE_marker. unfold LF. simpl. intros H.
  repeat (destruct H as [H|H]; [discriminate H|]). exact H.
Qed.

Lemma readAll_blocks (vault : Vault) (files : list TFile) (acc : jsstring) :
  readAll vault files acc = acc ++ blocks (readable vault files).
Proof.
  revert acc. induction files as [|f files IH]; intros acc; simpl.
  - unfold blocks. simpl. now rewrite app_nil_r.
  - destruct (cachedRead vault f) as [content|]; simpl.
    + rewrite IH. unfold blocks. simpl. now rewrite <- app_assoc.
    + apply IH.
Qed.

Lemma assemble_blocks (vault : Vault) (files : list TFile) (extra : jsstring) :
  assemble vault files extra
  = contextPrefix extra ++ blocks (readable vault files).
Proof.
  unfold assemble, contextPrefix. rewrite readAll_blocks. simpl.
  destruct (truthy extra); simpl; [|reflexivity].
  now rewrite <- app_assoc.
Qed.

(** The part of the input before [lastIndex] is passed over. *)
Lemma exec_skip (u r : jsstring) :
  execFileMarkers (List.length u) (u ++ r) = execFileMarkers 0 r.
Proof.
  induction u as [|c u IH]; simpl; [reflexivity|]. exact IH.
Qed.

Lemma fileMarkerAt_none (s : jsstring) :
  startsWith s (lit "FILE: ") = false -> fileMarkerAt s = None.
Proof. unfold fileMarkerAt. now intros ->. Qed.

Lemma exec_LF (r : jsstring) :
  execFileMarkers 0 (LF :: r) = execFileMarkers 0 r.
Proof. reflexivity. Qed.

(** Text without the marker, ended by a line feed, yields no source. *)
Lemma exec_plain_text (c r : jsstring) :
  includes c (lit "FILE: ") = false ->
  execFileMarkers 0 (c ++ LF :: r) = execFileMarkers 0 (LF :: r).
Proof.
  induction c as [|x c IH]; intros Hc; [reflexivity|].
  assert (Hstart := includes_false_start _ _ Hc).
  apply includes_false_tail in Hc.
  change ((x :: c) ++ LF :: r) with (x :: (c ++ LF :: r)).
  cbn [execFileMarkers].
  rewrite fileMarkerAt_none.
  - now apply IH.
  - change (x :: c ++ LF :: r) with ((x :: c) ++ LF :: r).
    rewrite startsWith_before_LF; [exact Hstart|apply FILE_marker_one_line].
Qed.

Lemma lineRun_line (p r : jsstring) :
  ~ In LF p -> lineRun (p ++ LF :: r) = p.
Proof.
  induction p as [|x p IH]; intros Hp; simpl.
  - reflexivity.
  - destruct (N.eqb_spec x LF) as [->|_].
    + exfalso. apply Hp. now left.
    + rewrite IH; [reflexivity|]. intros Hin. apply Hp. now right.
Qed.

Lemma exec_match (c : N) (s run : jsstring) :
  fileMarkerAt (c :: s) = Some run ->
  execFileMarkers 0 (c :: s)
  = run :: execFileMarkers (6 + List.length run - 1) s.
Proof. intros H. cbn [execFileMarkers]. now rewrite H. Qed.

Lemma fileMarkerAt_marker (p r : jsstring) :
  p <> lit "" -> ~ In LF p ->
  fileMarkerAt (lit "FILE: " ++ p ++ LF :: r) = Some p.
Proof.
  intros Hne Hline. unfold fileMarkerAt.
  rewrite startsWith_app.
  replace (skipn 6 (lit "FILE: " ++ p ++ LF :: r)) with (p ++ LF :: r)
    by reflexivity.
  rewrite lineRun_line by exact Hline.
  destruct p; [now contradiction Hne|reflexivity].
Qed.

(** One block yields its path, then the sources of what follows. *)
Lemma exec_block (p content rest : jsstring) :
  p <> lit "" -> ~ In LF p ->
  includes content (lit "FILE: ") = false ->
  execFileMarkers 0 (fileBlock p content ++ rest)
  = p :: execFileMarkers 0 rest.
Proof.
  intros Hne Hline Hcontent. unfold fileBlock.
  repeat rewrite <- app_assoc.
  set (tail := LF :: content ++ [LF; LF] ++ rest).
  change ([LF; LF] ++ content ++ [LF; LF] ++ rest) with (LF :: tail).
  pose proof (fileMarkerAt_marker p tail Hne Hline) as Hm.
  rewrite FILE_marker in Hm |- *.
  change ([70; 73; 76; 69; 58; 32]%N ++ p ++ LF :: tail)
    with (70%N :: ([73; 76; 69; 58; 32]%N ++ p) ++ LF :: tail) in Hm |- *.
  rewrite (exec_match _ _ _ Hm). f_equal.
  replace (6 + List.length p - 1)
    with (List.length ([73; 76; 69; 58; 32]%N ++ p))
    by (rewrite length_app; simpl; lia).
  rewrite exec_skip. unfold tail.
  rewrite !exec_LF.
  change (content ++ [LF; LF] ++ rest) with (content ++ LF :: LF :: rest).
  rewrite exec_plain_text by exact Hcontent.
  now rewrite !exec_LF.
Qed.

Lemma exec_blocks (docs : list (jsstring * jsstring)) :
  (forall p c, In (p, c) docs ->
               p <> lit "" /\ ~ In LF p /\ includes c (lit "FILE: ") = false) ->
  execFileMarkers 0 (blocks docs) = map fst docs.
Proof.
  induction docs as [|[p c] docs IH]; intros H; [reflexivity|].
  change (blocks ((p, c) :: docs)) with (fileBlock p c ++ blocks docs).
  destruct (H p c (or_introl eq_refl)) as [Hne [Hline Hc]].
  rewrite exec_block by assumption. cbn [map fst]. f_equal.
  apply IH. intros p' c' Hin. apply H. now right.
Qed.

End SourceExtraction.

(** As stated, [C4] asks only that no text contains ["FILE: "]: a path
    with a line feed inside is cut at the line feed. *)
Lemma extractSourceFiles_counterexample :
  includes (path twoLinePath) (lit "FILE: ") = false
  /\ includes (lit "x") (lit "FILE: ") = false
  /\ assemble twoLineVault [twoLinePath] (lit "")
     = fileBlock (path twoLinePath) (lit "x")
  /\ extractSourceFiles (assemble twoLineVault [twoLinePath] (lit ""))
     = [lit "a"]
  /\ extractSourceFiles (assemble twoLineVault [twoLinePath] (lit ""))
     <> [path twoLinePath].
Proof.
  repeat split; try reflexivity. vm_compute. discriminate.
Qed.

(** [C4], amended: when every document that is read has a non-empty path
    without a line feed and a content without ["FILE: "], and the
    additional context is without ["FILE: "], the context blob is the
    additional context (followed by a blank line when non-empty) and one
    block ["FILE: <path>\n\n<content>\n\n"] per document read, in selection
    order; and [extractSourceFiles] returns the paths of those documents,
    in that order, duplicates kept. *)
Theorem extractSourceFiles_recovers_paths :
  forall (vault : Vault) (files : list TFile) (additionalContext : jsstring),
    (forall p c, In (p, c) (readable vault files) ->
                 p <> lit "" /\ ~ In LF p
                 /\ includes c (lit "FILE: ") = false) ->
    includes additionalContext (lit "FILE: ") = false ->
    assemble vault files additionalContext
      = contextPrefix additionalContext ++ blocks (readable vault files)
    /\ extractSourceFiles (assemble vault files additionalContext)
       = map fst (readable vault files).
Proof.
  intros vault files extra Hdocs Hextra.
  split; [apply assemble_blocks|].
  rewrite assemble_blocks. unfold extractSourceFiles, contextPrefix.
  destruct (truthy extra).
  - rewrite <- app_assoc. cbn [app].
    rewrite exec_plain_text by exact Hextra.
    rewrite !exec_LF. now apply exec_blocks.
  - now apply exec_blocks.
Qed.

(** The two notes of the folder [notes/], with the note [a] selected
    twice. *)
Lemma extractSourceFiles_recovers_paths_witness :
  extractSourceFiles (assemble sampleVault twiceSelected (lit "See also:"))
  = [lit "notes/a.md"; lit "notes/b.md"; lit "notes/a.md"].
Proof.
  refine (proj2 (extractSourceFiles_recovers_paths
                   sampleVault twiceSelected (lit "See also:") _ eq_refl)).
  intros p c Hin. simpl in Hin.
  repeat (destruct Hin as [Hin|Hin];
          [inversion Hin; subst; clear Hin; repeat split;
           [discriminate
           |unfold LF; simpl; intros H;
            repeat (destruct H as [H|H]; [discriminate H|]); exact H]|]).
  contradiction.
Defined.

(** ** Provider adapters *)

Section Adapters.

Variable h : Host.

Ltac split_branches :=
  repeat match goal with
         | |- context [match ?x with _ => _ end] => destruct x
         end.

Lemma gptErrorMessage_prefix (e : JsError) :
  startsWith (gptErrorMessage h e) (lit "Error querying OpenAI: ") = true.
Proof. unfold gptErrorMessage. split_branches; apply startsWith_app. Qed.

Lemma geminiErrorMessage_prefix (e : JsError) :
  startsWith (geminiErrorMessage h e) (lit "Error querying Gemini: ") = true.
Proof. unfold geminiErrorMessage. split_branches; apply startsWith_app. Qed.

Lemma lmStudioErrorMessage_prefix (e : JsError) :
  startsWith (lmStudioErrorMessage e) (lit "Error querying LM Studio: ") = true.
Proof. unfold lmStudioErrorMessage. split_branches; apply startsWith_app. Qed.

(** Reading a property of a truthy value does not throw. *)
Lemma getProp_truthy (v : jsvalue) (key : jsstring) :
  truthyV v = true -> exists w, getProp h v key = Normal w.
Proof.
  destruct v as [[| | | | |]|]; simpl; intros H;
    try discriminate; eexists; reflexivity.
Qed.

(** The adapters never throw: whatever the request does, a value is
    returned. *)
Lemma adapters_return (prov : Provider) (p : Plugin) (prompt : jsstring) :
  exists v, queryWith prov h p prompt = Normal v.
Proof.
  destruct prov; simpl;
    unfold queryGPT, queryGemini, queryLMStudio, tryCatch;
    match goal with
    | |- context [bind ?c ?k] => destruct (bind c k)
    end; eexists; reflexivity.
Qed.

Lemma geminiResult_inline_error (jsonResponse : json) :
  carriesError jsonResponse = true ->
  noCandidates jsonResponse = true ->
  exists text,
    geminiResult h jsonResponse = Normal (str text)
    /\ startsWith text (lit "Gemini API Error: ") = true.
Proof.
  destruct jsonResponse as [| | | | |fields]; try discriminate.
  unfold carriesError, noCandidates. intros Herr Hcand.
  destruct (getProp_truthy (lookup (lit "error") fields) (lit "message") Herr)
    as [msg Hmsg].
  unfold geminiResult. cbn [getProp bind].
  destruct (lookup (lit "candidates") fields) as [[| | | |[|]|]|];
    try discriminate.
  - cbn [truthyV].
    change (getProp h (Some (JArr [])) (lit "length"))
      with (@Normal jsvalue (Some (JNum (numberOfZ 0)))).
    cbn [bind].
    change (greaterThanZero h (Some (JNum (numberOfZ 0)))) with false.
    cbn [andb]. rewrite Herr, Hmsg. cbn [bind].
    eexists. split; [reflexivity|apply startsWith_app].
  - cbn [truthyV bind andb]. rewrite Herr, Hmsg. cbn [bind].
    eexists. split; [reflexivity|apply startsWith_app].
Qed.

End Adapters.

(** As stated, [C2] counts every Gemini body with an inline error object
    as a failure: when the body also has a candidate, the candidate's text
    is returned. *)
Lemma adapter_failure_counterexample :
  carriesError candidateAndError = true
  /\ queryGemini (sampleHost (Normal candidateAndError)) defaultPlugin (lit "Hi")
     = Normal (str (lit "Hello"))
  /\ startsWith (lit "Hello") (lit "Gemini API Error: ") = false
  /\ startsWith (lit "Hello") (lit "Error querying Gemini: ") = false.
Proof. repeat split; reflexivity. Qed.

(** [C2], amended: when the request of [queryGPT], [queryGemini] or
    [queryLMStudio] throws (an HTTP status, or a transport error without
    one) the function returns a string that begins with
    ["Error querying OpenAI: "], ["Error querying Gemini: "] or
    ["Error querying LM Studio: "]; when a Gemini response without
    candidates carries an inline error object, [queryGemini] returns a
    string that begins with ["Gemini API Error: "].  Nothing is thrown. *)
Theorem adapter_failures_return_prefixed_text :
  forall (h : Host) (p : Plugin) (prompt : jsstring)
         (prov : Provider) (prefix : jsstring),
    AdapterFailure h p prompt prov prefix ->
    exists text,
      queryWith prov h p prompt = Normal (str text)
      /\ startsWith text prefix = true.
Proof.
  intros h p prompt prov prefix Hfail.
  destruct Hfail as [prov e Hreq|jsonResponse Hreq Herr Hcand].
  - destruct prov; simpl in Hreq |- *;
      unfold queryGPT, queryGemini, queryLMStudio, tryCatch;
      rewrite Hreq; cbn [bind]; eexists; (split; [reflexivity|]).
    + apply gptErrorMessage_prefix.
    + apply geminiErrorMessage_prefix.
    + apply lmStudioErrorMessage_prefix.
  - destruct (geminiResult_inline_error h jsonResponse Herr Hcand)
      as [text [Hres Hpre]].
    exists text. split; [|exact Hpre].
    simpl. unfold queryGemini, tryCatch. rewrite Hreq. cbn [bind].
    now rewrite Hres.
Qed.

(** HTTP 429 from OpenAI, and a Gemini body with an error object alone. *)
Lemma adapter_failures_return_prefixed_text_witness :
  (exists text,
      queryGPT (sampleHost (Abrupt (httpError 429)))
               defaultPlugin (lit "Hi") = Normal (str text)
      /\ startsWith text (lit "Error querying OpenAI: ") = true)
  /\ (exists text,
         queryGemini (sampleHost (Normal errorOnly))
                     defaultPlugin (lit "Hi") = Normal (str text)
         /\ startsWith text (lit "Gemini API Error: ") = true).
Proof.
  split.
  - apply (adapter_failures_return_prefixed_text
             (sampleHost (Abrupt (httpError 429)))
             defaultPlugin (lit "Hi") OpenAI).
    apply (RequestFails _ _ _ OpenAI (httpError 429)). reflexivity.
  - apply (adapter_failures_return_prefixed_text
             (sampleHost (Normal errorOnly))
             defaultPlugin (lit "Hi") Gemini).
    apply (InlineError _ _ _ errorOnly); reflexivity.
Defined.

(** Scenario 4 of the specification: the text for HTTP 429 from OpenAI. *)
Lemma queryGPT_rate_limited :
  queryGPT (sampleHost (Abrupt (httpError 429)))
           defaultPlugin (lit "Hi")
  = Normal (str (lit "Error querying OpenAI: Rate limit exceeded or quota exceeded. Please check your OpenAI plan and limits.")).
Proof. reflexivity. Qed.

(** ** The token-limit parameter of the OpenAI request *)

(** [C7] For every model of the catalog, the body built by [queryGPT] has
    neither [max_tokens] nor [max_completion_tokens] when the entry has the
    endpoint ["/v1/responses"]; has [max_completion_tokens] equal to the
    configured [maxTokens] and no [max_tokens] when the entry sets
    [useMaxCompletionTokens]; and has [max_tokens] equal to the configured
    [maxTokens] otherwise. *)
Theorem gpt_token_limit_parameter :
  forall (s : VaultLLMAssistantSettings) (prompt : jsstring) (m : ModelConfig),
    In m OPENAI_MODELS ->
    model s = id m ->
    let body := gptRequestBody OPENAI_MODELS s prompt in
    (endpoint m = Some (lit "/v1/responses") ->
     lookup (lit "max_tokens") body = None
     /\ lookup (lit "max_completion_tokens") body = None)
    /\ (useMaxCompletionTokens m = Some true ->
        lookup (lit "max_completion_tokens") body = Some (JNum (maxTokens s))
        /\ lookup (lit "max_tokens") body = None)
    /\ (endpoint m <> Some (lit "/v1/responses") ->
        useMaxCompletionTokens m <> Some true ->
        lookup (lit "max_tokens") body = Some (JNum (maxTokens s))
        /\ lookup (lit "max_completion_tokens") body = None).
Proof.
  intros s prompt m Hin Hmodel body. subst body.
  unfold gptRequestBody. rewrite Hmodel. clear Hmodel.
  unfold OPENAI_MODELS in Hin. simpl In in Hin.
  repeat (destruct Hin as [<-|Hin];
          [vm_compute; repeat split; intros; congruence|]).
  contradiction.
Qed.

(** One model of each kind: [gpt-5.2-pro] (responses endpoint), [o3]
    (alternate parameter name) and [gpt-4o]. *)
Lemma gpt_token_limit_parameter_witness :
  (lookup (lit "max_tokens") (sampleBody "gpt-5.2-pro") = None
   /\ lookup (lit "max_completion_tokens") (sampleBody "gpt-5.2-pro") = None)
  /\ (lookup (lit "max_completion_tokens") (sampleBody "o3")
      = Some (JNum (numberOfZ 2000))
      /\ lookup (lit "max_tokens") (sampleBody "o3") = None)
  /\ (lookup (lit "max_tokens") (sampleBody "gpt-4o")
      = Some (JNum (numberOfZ 2000))
      /\ lookup (lit "max_completion_tokens") (sampleBody "gpt-4o") = None).
Proof.
  split; [|split].
  - refine (proj1 (gpt_token_limit_parameter
                     (providerSettings false (lit "gpt") (lit "gpt-5.2-pro")
                                       true ModeQuery)
                     (lit "Hi") (responsesModel "gpt-5.2-pro" "GPT-5.2 Pro")
                     _ eq_refl) eq_refl).
    simpl. tauto.
  - refine (proj1 (proj2 (gpt_token_limit_parameter
                     (providerSettings false (lit "gpt") (lit "o3")
                                       true ModeQuery)
                     (lit "Hi") (completionTokensModel "o3" "o3")
                     _ eq_refl)) eq_refl).
    simpl. tauto.
  - refine (proj2 (proj2 (gpt_token_limit_parameter
                     (providerSettings false (lit "gpt") (lit "gpt-4o")
                                       true ModeQuery)
                     (lit "Hi") (plainModel "gpt-4o" "GPT-4o")
                     _ eq_refl)) _ _).
    + simpl. tauto.
    + discriminate.
    + discriminate.
Defined.

(** ** Unknown provider *)

(** [C10] With [useLocalLLM] false and a [modelProvider] that is neither
    ["gpt"] nor ["gemini"], [queryLLM] returns exactly
    ["Error: Unknown model provider"]; this text begins neither with
    ["Error querying "] nor with ["Gemini API Error:"], so the prefix test
    of the callers takes it for an answer. *)
Theorem unknown_provider_passes_the_error_test :
  forall (h : Host) (p : Plugin) (query vaultContent : jsstring)
         (currentFilePath : option jsstring),
    useLocalLLM (settings p) = false ->
    modelProvider (settings p) <> lit "gpt" ->
    modelProvider (settings p) <> lit "gemini" ->
    queryLLM h p query vaultContent currentFilePath
      = Normal (str (lit "Error: Unknown model provider"))
    /\ startsWith (lit "Error: Unknown model provider")
                  (lit "Error querying ") = false
    /\ startsWith (lit "Error: Unknown model provider")
                  (lit "Gemini API Error:") = false
    /\ isErrorResponse (lit "Error: Unknown model provider") = false.
Proof.
  intros h p query vaultContent currentFilePath Hlocal Hgpt Hgemini.
  split; [|repeat split; reflexivity].
  apply jsstring_eqb_neq in Hgpt. apply jsstring_eqb_neq in Hgemini.
  unfold queryLLM, dispatch. rewrite Hlocal, Hgpt, Hgemini.
  reflexivity.
Qed.

Lemma unknown_provider_passes_the_error_test_witness :
  queryLLM (sampleHost (Abrupt (httpError 500)))
           (samplePlugin (providerSettings false (lit "claude") (lit "x")
                                           true ModeCreate))
           (lit "Black holes") (lit "") None
  = Normal (str (lit "Error: Unknown model provider")).
Proof.
  refine (proj1 (unknown_provider_passes_the_error_test
                   (sampleHost (Abrupt (httpError 500)))
                   (samplePlugin (providerSettings false (lit "claude") (lit "x")
                                                   true ModeCreate))
                   (lit "Black holes") (lit "") None eq_refl _ _));
    discriminate.
Defined.

(** ** Note titles without the LLM *)

Section Titles.

Lemma trimStart_fixed (s : jsstring) :
  match s with [] => True | c :: _ => isWhiteSpace c = false end ->
  trimStart s = s.
Proof. destruct s as [|c s]; simpl; [reflexivity|]. now intros ->. Qed.

(** A string that neither begins nor ends with whitespace is left alone
    by [trim]. *)
Lemma trim_fixed (s : jsstring) :
  match s with [] => True | c :: _ => isWhiteSpace c = false end ->
  match rev s with [] => True | c :: _ => isWhiteSpace c = false end ->
  trim s = s.
Proof.
  intros Hstart Hend. unfold trim, trimEnd.
  rewrite (trimStart_fixed s Hstart), (trimStart_fixed (rev s) Hend).
  apply rev_involutive.
Qed.

End Titles.

(** As stated, [C8] promises the raw query cut at 50 characters: the
    view's handler trims the query, also where it is cut, so that a query
    of 52 characters whose 50th is a space gets a title of 49 characters
    and the ellipsis. *)
Lemma title_without_llm_counterexample :
  generateTitlesWithLLM (settings untitledPlugin) = false
  /\ createNoteButtonTitle quietHost untitledPlugin longQuery (lit "Paris")
     = lit "What is the capital city of France and how big is..."
  /\ createNoteButtonTitle quietHost untitledPlugin longQuery (lit "Paris")
     <> truncatedQuery longQuery.
Proof.
  split; [reflexivity|]. split; [reflexivity|].
  vm_compute; discriminate.
Qed.

(** [C8], amended: with LLM titling disabled, the "Create note" button of
    the view titles the note with the query trimmed of surrounding
    whitespace when it has at most 50 characters, and with its first 50
    characters, trimmed, followed by ["..."] when it has more; where
    trimming removes nothing this is the raw query cut at 50 characters
    with the ellipsis. *)
Theorem title_without_llm :
  forall (h : Host) (p : Plugin) (query response : jsstring),
    generateTitlesWithLLM (settings p) = false ->
    createNoteButtonTitle h p query response
      = (if (50 <? List.length query)%nat
         then trim (firstn 50 query) ++ lit "..."
         else trim query)
    /\ (trim (firstn 50 query) = firstn 50 query ->
        createNoteButtonTitle h p query response = truncatedQuery query).
Proof.
  intros h p query response Hoff.
  unfold createNoteButtonTitle. rewrite Hoff.
  split; [reflexivity|].
  intros Hfixed. unfold queryTitle, truncatedQuery, substringTo.
  destruct (50 <? List.length query)%nat eqn:Hlen.
  - now rewrite Hfixed.
  - apply Nat.ltb_ge in Hlen.
    rewrite firstn_all2 in Hfixed by exact Hlen. exact Hfixed.
Qed.

Lemma title_without_llm_witness :
  createNoteButtonTitle quietHost untitledPlugin (lit "  Black holes ") (lit "...")
  = lit "Black holes"
  /\ createNoteButtonTitle quietHost untitledPlugin (lit "Black holes") (lit "...")
     = truncatedQuery (lit "Black holes").
Proof.
  pose proof (title_without_llm quietHost untitledPlugin (lit "  Black holes ")
                                (lit "...") eq_refl) as [Hview _].
  pose proof (title_without_llm quietHost untitledPlugin (lit "Black holes")
                                (lit "...") eq_refl) as [_ Hraw].
  split.
  - rewrite Hview. reflexivity.
  - apply Hraw. reflexivity.
Defined.

(** The create flow of the modal parts from the view's handler at the
    same query: with LLM titling disabled nothing replaces the title it
    starts with, although the notice of its [catch] (line 1109) speaks of
    the topic text. *)
Lemma modal_title_differs_from_view :
  createNoteButtonTitle quietHost untitledPlugin (lit "Black holes") (lit "...")
  = lit "Black holes"
  /\ processQueryTitle quietHost untitledPlugin (lit "Black holes") (lit "...")
     = lit "LLM response 2026-11-02".
Proof. split; reflexivity. Qed.

(** ** Link normalization *)

Section Links.

Variable h : Host.

Lemma linkTargets_app (a b : list Node) :
  linkTargets h (a ++ b) = linkTargets h a ++ linkTargets h b.
Proof.
  induction a as [|[text|href content] a IH]; simpl; [reflexivity|exact IH|].
  destruct (truthy (linkHref href content)); simpl; now rewrite IH.
Qed.

Lemma linkTargets_textNode (pending : jsstring) :
  linkTargets h (textNode pending) = [].
Proof. destruct pending; reflexivity. Qed.

(** The text collected since the last link has no part in the targets. *)
Lemma linkTargets_pending (s : jsstring) :
  forall (skip : nat) (pending : jsstring),
    linkTargets h (wikiFragment skip pending s)
    = linkTargets h (wikiFragment skip [] s).
Proof.
  induction s as [|c s IH]; intros skip pending.
  - simpl. now rewrite linkTargets_textNode.
  - cbn [wikiFragment]. destruct skip as [|k]; [|apply IH].
    destruct (wikiLinkAt (c :: s)) as [run|].
    + now rewrite linkTargets_app, linkTargets_textNode.
    + rewrite IH. symmetry. apply IH.
Qed.

Lemma linkTargets_no_link (nodes : list Node) :
  existsb isLinkEl nodes = false -> linkTargets h nodes = [].
Proof.
  induction nodes as [|[text|href content] nodes IH]; simpl;
    [reflexivity|exact IH|discriminate].
Qed.

Lemma processLinks_fragment (text : jsstring) :
  processLinks h text = linkTargets h (wikiFragment 0 [] text).
Proof.
  unfold processLinks, processWikiStyleLinks.
  destruct (existsb isLinkEl (wikiFragment 0 [] text)) eqn:E; [reflexivity|].
  rewrite (linkTargets_no_link _ E). now destruct text.
Qed.

(** Text without an opening bracket holds no link. *)
Lemma wikiFragment_plain (pre rest pending : jsstring) :
  forallb (fun c => negb (N.eqb c 91)) pre = true ->
  linkTargets h (wikiFragment 0 pending (pre ++ rest))
  = linkTargets h (wikiFragment 0 [] rest).
Proof.
  revert pending. induction pre as [|c pre IH]; intros pending Hpre.
  - apply linkTargets_pending.
  - simpl in Hpre. apply andb_true_iff in Hpre as [Hc Hpre].
    apply negb_true_iff in Hc.
    change ((c :: pre) ++ rest) with (c :: (pre ++ rest)).
    cbn [wikiFragment].
    assert (Hno : wikiLinkAt (c :: pre ++ rest) = None).
    { unfold wikiLinkAt.
      change (startsWith (c :: pre ++ rest) (lit "[["))
        with (N.eqb 91 c && startsWith (pre ++ rest) [91%N]).
      now rewrite N.eqb_sym, Hc. }
    rewrite Hno. now apply IH.
Qed.

Lemma wikiFragment_section_ref (post : jsstring) :
  wikiFragment 0 [] (lit "[[a/b.md#My Section]]" ++ post)
  = LinkEl (lit "a/b.md#My Section") (lit "a/b.md#My Section")
      :: wikiFragment 0 [] post.
Proof. reflexivity. Qed.

Lemma wikiFragment_plain_ref (post : jsstring) :
  wikiFragment 0 [] (lit "[[a/b.md]]" ++ post)
  = LinkEl (lit "a/b.md") (lit "a/b.md") :: wikiFragment 0 [] post.
Proof. reflexivity. Qed.

Lemma resolveHref_section_ref :
  resolveHref h (lit "a/b.md#My Section")
  = {| filePath := lit "a/b.md"; fragment := lit "#My Section" |}.
Proof. reflexivity. Qed.

Lemma resolveHref_plain_ref :
  resolveHref h (lit "a/b.md")
  = {| filePath := lit "a/b.md"; fragment := lit "" |}.
Proof. reflexivity. Qed.

End Links.

(** The looser notation is the one whose section name is lower-cased and
    dashed (here with the lower-casing of ASCII letters). *)
Lemma resolveHref_arrow_notation :
  resolveHref quietHost (lit "a/b.md > My  Section")
  = {| filePath := lit "a/b.md"; fragment := lit "#my-section" |}.
Proof. reflexivity. Qed.

(** As stated, [C6] expects the fragment ["my-section"]: the section of a
    double-bracket reference is kept as written. *)
Lemma section_link_counterexample :
  processLinks quietHost (lit "[[a/b.md#My Section]]")
  = [{| filePath := lit "a/b.md"; fragment := lit "#My Section" |}]
  /\ lit "#My Section" <> lit "#my-section"
  /\ lit "#My Section" <> lit "my-section".
Proof. repeat split; try reflexivity; discriminate. Qed.

(** [C6], amended: for text made of a part without an opening bracket,
    the reference ["[[a/b.md#My Section]]"] and any text after it, link
    normalization yields for the reference the file path ["a/b.md"] and the
    fragment ["#My Section"], the section name as written (the full path is
    ["a/b.md#My Section"]); for ["[[a/b.md]]"] it yields the file path
    ["a/b.md"] and no fragment. *)
Theorem section_link_is_kept_verbatim :
  forall (h : Host) (pre post : jsstring),
    forallb (fun c => negb (N.eqb c 91)) pre = true ->
    let target := {| filePath := lit "a/b.md"; fragment := lit "#My Section" |} in
    let plain := {| filePath := lit "a/b.md"; fragment := lit "" |} in
    processLinks h (pre ++ lit "[[a/b.md#My Section]]" ++ post)
      = target :: processLinks h post
    /\ fullPath target = lit "a/b.md#My Section"
    /\ processLinks h (pre ++ lit "[[a/b.md]]" ++ post)
       = plain :: processLinks h post
    /\ fullPath plain = lit "a/b.md".
Proof.
  intros h pre post Hpre target plain.
  rewrite !processLinks_fragment.
  rewrite !(wikiFragment_plain h pre _ [] Hpre).
  rewrite wikiFragment_section_ref, wikiFragment_plain_ref.
  repeat split.
Qed.

Lemma section_link_is_kept_verbatim_witness :
  processLinks quietHost (lit "Paris, see [[a/b.md#My Section]] and [[a/b.md]].")
  = [{| filePath := lit "a/b.md"; fragment := lit "#My Section" |};
     {| filePath := lit "a/b.md"; fragment := lit "" |}].
Proof.
  pose proof (section_link_is_kept_verbatim
                quietHost (lit "Paris, see ") (lit " and [[a/b.md]].") eq_refl)
    as [Hsection _].
  exact Hsection.
Defined.

(** ** Fence stripping *)

Section Fences.

Lemma ciPrefix_app (p1 p2 s : jsstring) :
  ciPrefix (p1 ++ p2) s
  = match ciPrefix p1 s with
    | Some r => ciPrefix p2 r
    | None => None
    end.
Proof.
  revert s. induction p1 as [|x p1 IH]; intros s; [reflexivity|].
  destruct s as [|c s]; [reflexivity|]. simpl.
  destruct (ciEq x c); [apply IH|reflexivity].
Qed.

Lemma ciEqual_prefix (pat o r : jsstring) :
  ciEqual pat o = true -> ciPrefix pat (o ++ r) = Some r.
Proof.
  unfold ciEqual. revert o. induction pat as [|x pat IH]; intros o H.
  - destruct o; [reflexivity|discriminate].
  - destruct o as [|c o]; [discriminate|]. simpl in H |- *.
    destruct (ciEq x c); [now apply IH|discriminate].
Qed.

Lemma startsInline_no_newline_run (interior r : jsstring) :
  startsInline interior = true -> wsThenNewline (interior ++ r) = None.
Proof.
  induction interior as [|c interior IH]; intros H; [discriminate|].
  simpl in H |- *. destruct (isWhiteSpace c); [|reflexivity].
  apply andb_true_iff in H as [Hc Hrest]. apply negb_true_iff in Hc.
  now rewrite (IH Hrest), Hc.
Qed.

Lemma wsThenNewline_one (x : jsstring) :
  wsThenNewline x = None -> wsThenNewline (LF :: x) = Some x.
Proof. intros H. simpl. now rewrite H. Qed.

Lemma arkdown_is_not_d (rest r : jsstring) :
  ciPrefix (lit "arkdown") rest = Some r -> ciPrefix (lit "d") rest = None.
Proof.
  destruct rest as [|c rest]; [discriminate|].
  change (lit "arkdown") with (97%N :: lit "rkdown").
  change (lit "d") with [100%N]. cbn [ciPrefix].
  destruct (ciEq 97 c) eqn:E; [|discriminate]. intros _.
  unfold ciEq in E. apply orb_true_iff in E as [E|E].
  - apply N.eqb_eq in E. now subst c.
  - apply andb_true_iff in E as [_ E]. apply N.eqb_eq in E. now subst c.
Qed.

(** The anchored pattern takes the opener and the line feed after it, and
    no more, when the interior starts inline. *)
Lemma openerAt_opener (opener x : jsstring) :
  isFenceOpener opener = true ->
  wsThenNewline x = None ->
  openerAt (opener ++ LF :: x) = Some x.
Proof.
  intros Ho Hx. unfold isFenceOpener in Ho.
  apply orb_true_iff in Ho as [Ho|Ho];
    pose proof (ciEqual_prefix _ opener (LF :: x) Ho) as P.
  - change (lit "```md") with (lit "```m" ++ lit "d") in P.
    rewrite ciPrefix_app in P. unfold openerAt.
    destruct (ciPrefix (lit "```m") (opener ++ LF :: x)) as [rest|];
      [|discriminate].
    rewrite P. now rewrite (wsThenNewline_one x Hx).
  - change (lit "```markdown") with (lit "```m" ++ lit "arkdown") in P.
    rewrite ciPrefix_app in P. unfold openerAt.
    destruct (ciPrefix (lit "```m") (opener ++ LF :: x)) as [rest|];
      [|discriminate].
    rewrite (arkdown_is_not_d rest _ P), P.
    now rewrite (wsThenNewline_one x Hx).
Qed.

Lemma closerAt_inside (b : jsstring) :
  b <> [] -> closerAt (b ++ LF :: lit "```") = false.
Proof.
  intros Hb. unfold closerAt.
  change (b ++ LF :: lit "```") with (b ++ [LF; 96; 96]%N ++ [96%N]).
  rewrite app_assoc, skipn_app, forallb_app.
  replace (4 - List.length (b ++ [LF; 96%N; 96%N]))%nat with 0%nat.
  - simpl. now rewrite !andb_false_r.
  - rewrite length_app. destruct b as [|c b]; [contradiction|].
    cbn [List.length]. lia.
Qed.

Lemma stripTrailingCloser_closer (b : jsstring) :
  stripTrailingCloser (b ++ LF :: lit "```") = b.
Proof.
  induction b as [|c b IH]; [reflexivity|].
  change ((c :: b) ++ LF :: lit "```") with (c :: (b ++ LF :: lit "```")).
  cbn [stripTrailingCloser].
  change (c :: b ++ LF :: lit "```") with ((c :: b) ++ LF :: lit "```").
  rewrite closerAt_inside by discriminate. now rewrite IH.
Qed.

(** Without three backticks none of the patterns matches anywhere. *)
Lemma no_backticks_no_tag (s : jsstring) :
  startsWith s (lit "```") = false -> ciPrefix (lit "```m") s = None.
Proof.
  change (lit "```") with [96; 96; 96]%N.
  change (lit "```m") with [96; 96; 96; 109]%N.
  destruct s as [|a [|b [|c s]]]; cbn [startsWith ciPrefix]; intros H;
    unfold ciEq; cbn [N.leb N.compare Pos.compare Pos.compare_cont andb];
    rewrite ?orb_false_r;
    try reflexivity;
    rewrite ?(N.eqb_sym a), ?(N.eqb_sym b), ?(N.eqb_sym c);
    destruct (N.eqb 96 a); try reflexivity;
    destruct (N.eqb 96 b); try reflexivity;
    destruct (N.eqb 96 c); try reflexivity; discriminate.
Qed.

Lemma includes_start (s p : jsstring) :
  startsWith s p = true -> includes s p = true.
Proof. destruct s; simpl; now intros ->. Qed.

Lemma no_backticks_no_closer (s : jsstring) :
  includes s (lit "```") = false -> closerAt s = false.
Proof.
  intros H. unfold closerAt.
  destruct s as [|c s]; [reflexivity|].
  cbn [startsWith]. apply includes_false_tail in H.
  apply includes_false_start in H. rewrite H.
  now rewrite andb_false_r.
Qed.

Lemma no_backticks_stripTrailingCloser (s : jsstring) :
  includes s (lit "```") = false -> stripTrailingCloser s = s.
Proof.
  induction s as [|c s IH]; intros H; [reflexivity|].
  cbn [stripTrailingCloser]. rewrite (no_backticks_no_closer _ H).
  f_equal. apply IH. now apply includes_false_tail in H.
Qed.

Lemma no_backticks_fenceIndex (s : jsstring) :
  includes s (lit "```") = false -> fenceIndex s = None.
Proof.
  induction s as [|c s IH]; intros H; [reflexivity|].
  cbn [fenceIndex]. unfold fenceAt.
  rewrite (no_backticks_no_tag _ (includes_false_start _ _ H)).
  rewrite IH; [reflexivity|]. now apply includes_false_tail in H.
Qed.

End Fences.

(** As stated, [C5] leaves every interior unchanged: an interior with a
    fence opener of its own is cut down to what follows that opener. *)
Lemma cleanMarkdownResponse_counterexample :
  isFenceOpener (lit "```md") = true
  /\ cleanMarkdownResponse (fenced (lit "```md") nestedInterior) = lit "Body"
  /\ cleanMarkdownResponse (fenced (lit "```md") nestedInterior)
     <> nestedInterior.
Proof. repeat split; try reflexivity. vm_compute. discriminate. Qed.

(** An empty interior, and one that begins with a blank line, are not
    returned as they are either: the opener pattern runs on to the last
    line feed of the whitespace after the tag. *)
Lemma cleanMarkdownResponse_blank_start :
  cleanMarkdownResponse (fenced (lit "```md") (lit "")) = lit "```"
  /\ cleanMarkdownResponse (fenced (lit "```md") (LF :: lit "Body"))
     = lit "Body".
Proof. split; reflexivity. Qed.

(** [C5], amended: for an input made of a fence opener ([```md] or
    [```markdown] in any letter case), a line feed, an interior, a line
    feed and the closer [```], where the interior has a character that is
    not whitespace with no line feed before the first such character, and
    where the leftmost fence opener inside the interior, if there is one,
    is at its start, the output is the interior, unchanged; and for an
    input without three backticks in a row the output is the input. *)
Theorem cleanMarkdownResponse_strips_fences :
  (forall opener interior : jsstring,
      isFenceOpener opener = true ->
      startsInline interior = true ->
      fenceIndex interior = None \/ fenceIndex interior = Some 0%nat ->
      cleanMarkdownResponse (fenced opener interior) = interior)
  /\ (forall text : jsstring,
         includes text (lit "```") = false ->
         cleanMarkdownResponse text = text).
Proof.
  split.
  - intros opener interior Ho Hinline Hfence.
    unfold cleanMarkdownResponse, fenced, stripLeadingOpener.
    rewrite (openerAt_opener opener _ Ho
               (startsInline_no_newline_run interior _ Hinline)).
    rewrite stripTrailingCloser_closer.
    destruct Hfence as [-> | ->]; reflexivity.
  - intros text H.
    unfold cleanMarkdownResponse, stripLeadingOpener, openerAt.
    rewrite (no_backticks_no_tag _ (includes_false_start _ _ H)).
    rewrite (no_backticks_stripTrailingCloser _ H).
    now rewrite (no_backticks_fenceIndex _ H).
Qed.

(** Scenario 2 of the specification, and an answer without fences. *)
Lemma cleanMarkdownResponse_strips_fences_witness :
  cleanMarkdownResponse
    (fenced (lit "```markdown") (lit "# Black holes" ++ LF :: lit "..."))
  = lit "# Black holes" ++ LF :: lit "..."
  /\ cleanMarkdownResponse (lit "Paris [[notes/a.md]]")
     = lit "Paris [[notes/a.md]]".
Proof.
  split.
  - apply (proj1 cleanMarkdownResponse_strips_fences);
      [reflexivity|reflexivity|left; reflexivity].
  - apply (proj2 cleanMarkdownResponse_strips_fences). reflexivity.
Defined.

(** ** Key obfuscation *)

Section Base64Facts.

Import Base64.
Local Open Scope N_scope.

(** Lists taken three elements at a time. *)
Lemma list_triples_ind {A : Type} (P : list A -> Prop) :
  P [] ->
  (forall a, P [a]) ->
  (forall a b, P [a; b]) ->
  (forall a b c rest, P rest -> P (a :: b :: c :: rest)) ->
  forall l, P l.
Proof.
  intros H0 H1 H2 H3 l.
  assert (H : P l /\ (forall a, P (a :: l)) /\ (forall a b, P (a :: b :: l))).
  { induction l as [|x l [IH0 [IH1 IH2]]].
    - auto.
    - split; [apply IH1|]. split; [intros a; apply IH2|].
      intros a b. now apply H3. }
  apply H.
Qed.

Lemma sextets_checked :
  forallb sextetChecks (map N.of_nat (seq 0 64)) = true.
Proof. vm_compute. reflexivity. Qed.

Lemma sextet_facts (v : N) :
  v < 64 ->
  decodeSextet (encodeSextet v) = Some v
  /\ isAsciiWhitespace (encodeSextet v) = false
  /\ N.eqb (encodeSextet v) PAD = false.
Proof.
  intros Hv.
  assert (Hin : In v (map N.of_nat (seq 0 64))).
  { apply in_map_iff. exists (N.to_nat v). split; [apply N2Nat.id|].
    apply in_seq. lia. }
  pose proof (proj1 (forallb_forall _ _) sextets_checked v Hin) as H.
  unfold sextetChecks in H.
  apply andb_true_iff in H as [H Hpad].
  apply andb_true_iff in H as [Hdec Hws].
  apply negb_true_iff in Hpad. apply negb_true_iff in Hws.
  destruct (decodeSextet (encodeSextet v)) as [w|]; [|discriminate].
  apply N.eqb_eq in Hdec. subst w. auto.
Qed.

Lemma sextet_bounds (a b c : N) :
  a <= 255 -> b <= 255 -> c <= 255 ->
  a / 4 < 64 /\ (a mod 4) * 16 + b / 16 < 64
  /\ (b mod 16) * 4 + c / 64 < 64 /\ c mod 64 < 64
  /\ (a mod 4) * 16 < 64 /\ (b mod 16) * 4 < 64.
Proof.
  intros Ha Hb Hc.
  pose proof (N.mod_upper_bound a 4). pose proof (N.mod_upper_bound b 16).
  pose proof (N.mod_upper_bound c 64).
  assert (a / 4 < 64) by (apply N.Div0.div_lt_upper_bound; lia).
  assert (b / 16 < 16) by (apply N.Div0.div_lt_upper_bound; lia).
  assert (c / 64 < 4) by (apply N.Div0.div_lt_upper_bound; lia).
  lia.
Qed.

Ltac euclid := zify; Z.to_euclidean_division_equations; lia.

Lemma bytes_rebuilt (a b c : N) :
  b <= 255 -> c <= 255 ->
  (a / 4) * 4 + ((a mod 4) * 16 + b / 16) / 16 = a
  /\ (((a mod 4) * 16 + b / 16) mod 16) * 16
     + ((b mod 16) * 4 + c / 64) / 4 = b
  /\ (((b mod 16) * 4 + c / 64) mod 4) * 64 + c mod 64 = c.
Proof. intros Hb Hc. repeat split; euclid. Qed.

Lemma last_bytes_rebuilt (a b : N) :
  b <= 255 ->
  (a / 4) * 4 + ((a mod 4) * 16) / 16 = a
  /\ (((a mod 4) * 16 + b / 16) mod 16) * 16 + ((b mod 16) * 4) / 4 = b.
Proof. intros Hb. split; euclid. Qed.

Lemma removePadding_cons (c : N) (s : jsstring) :
  N.eqb c PAD = false -> removePadding (c :: s) = c :: removePadding s.
Proof.
  intros H. cbn [removePadding]. unfold isPadding. cbn [Js.eqb].
  now rewrite H.
Qed.

Lemma decodeSextets_cons (c v : N) (s : jsstring) (vs : list N) :
  decodeSextet c = Some v -> decodeSextets s = Some vs ->
  decodeSextets (c :: s) = Some (v :: vs).
Proof. intros Hc Hs. cbn [decodeSextets]. now rewrite Hc, Hs. Qed.

Ltac sextet v :=
  let Hdec := fresh "Hdec" in
  let Hws := fresh "Hws" in
  let Hpad := fresh "Hpad" in
  destruct (sextet_facts v) as [Hdec [Hws Hpad]]; [lia|].

(** Decoding what [encodeBytes] wrote gives the bytes back. *)
Lemma encodeBytes_decoded (l : list N) :
  Forall (fun c => c <= 255) l ->
  exists vs,
    decodeSextets (removePadding (encodeBytes l)) = Some vs
    /\ decodeBytes vs = l
    /\ (List.length (removePadding (encodeBytes l)) mod 4 <> 1)%nat.
Proof.
  induction l as [|a|a b|a b c rest IH] using list_triples_ind; intros Hl.
  - exists []. repeat split. discriminate.
  - inversion Hl as [|? ? Ha _]; subst.
    destruct (sextet_bounds a 0 0) as [B1 [_ [_ [_ [B2 _]]]]]; try lia.
    sextet (a / 4). sextet ((a mod 4) * 16).
    exists [a / 4; (a mod 4) * 16].
    change (encodeBytes [a])
      with [encodeSextet (a / 4); encodeSextet ((a mod 4) * 16); PAD; PAD].
    rewrite !removePadding_cons by assumption.
    change (removePadding [PAD; PAD]) with (@nil N).
    split; [|split; [|discriminate]].
    + repeat (apply decodeSextets_cons; [assumption|]). reflexivity.
    + cbn [decodeBytes]. f_equal.
      apply (proj1 (last_bytes_rebuilt a 0 (N.le_0_l _))).
  - inversion Hl as [|? ? Ha Hl']; subst.
    inversion Hl' as [|? ? Hb _]; subst.
    destruct (sextet_bounds a b 0) as [B1 [B2 [_ [_ [_ B3]]]]]; try lia.
    sextet (a / 4). sextet ((a mod 4) * 16 + b / 16). sextet ((b mod 16) * 4).
    exists [a / 4; (a mod 4) * 16 + b / 16; (b mod 16) * 4].
    change (encodeBytes [a; b])
      with [encodeSextet (a / 4); encodeSextet ((a mod 4) * 16 + b / 16);
            encodeSextet ((b mod 16) * 4); PAD].
    rewrite !removePadding_cons by assumption.
    change (removePadding [PAD]) with (@nil N).
    split; [|split; [|discriminate]].
    + repeat (apply decodeSextets_cons; [assumption|]). reflexivity.
    + cbn [decodeBytes].
      destruct (bytes_rebuilt a b 0) as [E1 _]; try lia.
      destruct (last_bytes_rebuilt a b Hb) as [_ E2].
      now rewrite E1, E2.
  - inversion Hl as [|? ? Ha Hl1]; subst.
    inversion Hl1 as [|? ? Hb Hl2]; subst.
    inversion Hl2 as [|? ? Hc Hrest]; subst.
    destruct (IH Hrest) as [vs [Hvs [Hbytes Hlen]]].
    destruct (sextet_bounds a b c) as [B1 [B2 [B3 [B4 _]]]]; try lia.
    sextet (a / 4). sextet ((a mod 4) * 16 + b / 16).
    sextet ((b mod 16) * 4 + c / 64). sextet (c mod 64).
    exists (a / 4 :: (a mod 4) * 16 + b / 16 :: (b mod 16) * 4 + c / 64
              :: c mod 64 :: vs).
    change (encodeBytes (a :: b :: c :: rest))
      with (encodeSextet (a / 4) :: encodeSextet ((a mod 4) * 16 + b / 16)
              :: encodeSextet ((b mod 16) * 4 + c / 64)
              :: encodeSextet (c mod 64) :: encodeBytes rest).
    rewrite !removePadding_cons by assumption.
    split; [|split].
    + repeat (apply decodeSextets_cons; [assumption|]). exact Hvs.
    + cbn [decodeBytes].
      destruct (bytes_rebuilt a b c Hb Hc) as [E1 [E2 E3]].
      now rewrite E1, E2, E3, Hbytes.
    + cbn [List.length].
      change (S (S (S (S (List.length (removePadding (encodeBytes rest)))))))
        with (4 + List.length (removePadding (encodeBytes rest)))%nat.
      rewrite Nat.add_comm.
      replace (List.length (removePadding (encodeBytes rest)) + 4)%nat
        with (List.length (removePadding (encodeBytes rest)) + 1 * 4)%nat
        by lia.
      now rewrite Nat.Div0.mod_add.
Qed.

Lemma encodeBytes_shape (l : list N) :
  Forall (fun c => c <= 255) l ->
  filter (fun c => negb (isAsciiWhitespace c)) (encodeBytes l) = encodeBytes l
  /\ (List.length (encodeBytes l) mod 4 = 0)%nat.
Proof.
  induction l as [|a|a b|a b c rest IH] using list_triples_ind; intros Hl.
  - split; reflexivity.
  - inversion Hl as [|? ? Ha _]; subst.
    destruct (sextet_bounds a 0 0) as [B1 [_ [_ [_ [B2 _]]]]]; try lia.
    sextet (a / 4). sextet ((a mod 4) * 16).
    split; [|reflexivity].
    cbn [encodeBytes filter]. now rewrite Hws, Hws0.
  - inversion Hl as [|? ? Ha Hl']; subst.
    inversion Hl' as [|? ? Hb _]; subst.
    destruct (sextet_bounds a b 0) as [B1 [B2 [_ [_ [_ B3]]]]]; try lia.
    sextet (a / 4). sextet ((a mod 4) * 16 + b / 16). sextet ((b mod 16) * 4).
    split; [|reflexivity].
    cbn [encodeBytes filter]. now rewrite Hws, Hws0, Hws1.
  - inversion Hl as [|? ? Ha Hl1]; subst.
    inversion Hl1 as [|? ? Hb Hl2]; subst.
    inversion Hl2 as [|? ? Hc Hrest]; subst.
    destruct (IH Hrest) as [Hfilter Hlen].
    destruct (sextet_bounds a b c) as [B1 [B2 [B3 [B4 _]]]]; try lia.
    sextet (a / 4). sextet ((a mod 4) * 16 + b / 16).
    sextet ((b mod 16) * 4 + c / 64). sextet (c mod 64).
    split.
    + cbn [encodeBytes filter]. rewrite Hws, Hws0, Hws1, Hws2.
      cbn [negb]. now rewrite Hfilter.
    + cbn [encodeBytes List.length].
      change (S (S (S (S (List.length (encodeBytes rest))))))
        with (4 + List.length (encodeBytes rest))%nat.
      rewrite Nat.add_comm.
      replace (List.length (encodeBytes rest) + 4)%nat
        with (List.length (encodeBytes rest) + 1 * 4)%nat by lia.
      now rewrite Nat.Div0.mod_add.
Qed.

(** [atob(btoa(s)) = s] *)
Lemma atob_btoa (s : jsstring) :
  Forall (fun c => c <= 255) s ->
  btoa s = Some (encodeBytes s) /\ atob (encodeBytes s) = Some s.
Proof.
  intros Hs. split.
  - unfold btoa.
    replace (forallb (fun c => c <=? 255) s) with true; [reflexivity|].
    symmetry. apply forallb_forall. intros c Hc. apply N.leb_le.
    exact (proj1 (Forall_forall _ _) Hs c Hc).
  - destruct (encodeBytes_shape s Hs) as [Hfilter Hlen].
    destruct (encodeBytes_decoded s Hs) as [vs [Hvs [Hbytes Hmod]]].
    unfold atob. rewrite Hfilter, Hlen. cbn [Nat.eqb].
    apply Nat.eqb_neq in Hmod. rewrite Hmod, Hvs. now rewrite Hbytes.
Qed.

Lemma encodeBytes_not_empty (s : jsstring) :
  s <> [] -> encodeBytes s <> [].
Proof. destruct s as [|a [|b [|c s]]]; [contradiction|discriminate..]. Qed.

End Base64Facts.

Section DeviceKey.

Local Open Scope N_scope.

Variable h : Host.

Lemma latin1_checked (s : jsstring) :
  forallb (fun c => c <=? 255) s = true -> latin1 s.
Proof.
  intros H. apply Forall_forall. intros c Hc. apply N.leb_le.
  exact (proj1 (forallb_forall _ _) H c Hc).
Qed.

Lemma xor_latin1 (c d : N) : c <= 255 -> d <= 255 -> N.lxor c d <= 255.
Proof.
  intros Hc Hd.
  destruct (N.eq_dec (N.lxor c d) 0) as [->|Hnz]; [lia|].
  assert (Hlog : N.log2 (N.lxor c d) < 8).
  { eapply N.le_lt_trans; [apply N.log2_lxor|].
    apply N.max_lub_lt.
    - destruct (N.eq_dec c 0) as [->|]; [reflexivity|].
      apply N.log2_lt_pow2; lia.
    - destruct (N.eq_dec d 0) as [->|]; [reflexivity|].
      apply N.log2_lt_pow2; lia. }
  apply N.log2_lt_pow2 in Hlog; [|lia].
  change (2 ^ 8) with 256 in Hlog. lia.
Qed.

Lemma xor_twice (c d : N) : N.lxor (N.lxor c d) d = c.
Proof. now rewrite N.lxor_assoc, N.lxor_nilpotent, N.lxor_0_r. Qed.

(** With a device id that is not empty, combining twice gives the text
    back, and nothing is thrown. *)
Lemma xorWithDevice_twice (deviceId : jsstring) :
  deviceId <> [] -> latin1 deviceId ->
  forall (s : jsstring) (index : nat),
    latin1 s ->
    exists mixed,
      xorWithDevice h deviceId index s = Normal mixed
      /\ latin1 mixed
      /\ List.length mixed = List.length s
      /\ xorWithDevice h deviceId index mixed = Normal s.
Proof.
  intros Hne Hdev s. induction s as [|char s IH]; intros index Hs.
  - exists []. repeat split. constructor.
  - inversion Hs as [|? ? Hchar Hs']; subst.
    destruct (IH (S index) Hs') as [rest [Hrest [Hlatin [Hlen Hback]]]].
    assert (Hidx : (index mod List.length deviceId < List.length deviceId)%nat).
    { apply Nat.mod_upper_bound. destruct deviceId; [contradiction|discriminate]. }
    destruct (nth_error deviceId (index mod List.length deviceId)) as [d|] eqn:Hd;
      [|apply nth_error_None in Hd; lia].
    assert (Hdle : d <= 255).
    { apply nth_error_In in Hd. exact (proj1 (Forall_forall _ _) Hdev d Hd). }
    pose proof (xor_latin1 char d Hchar Hdle) as Hx.
    exists (N.lxor char d :: rest).
    cbn [xorWithDevice]. rewrite Hd, Hrest. cbn [bind].
    rewrite (N.mod_small (N.lxor char d)) by lia.
    split; [reflexivity|]. split; [now constructor|].
    split; [cbn [List.length]; now rewrite Hlen|].
    rewrite Hback. cbn [bind]. rewrite xor_twice.
    now rewrite N.mod_small by lia.
Qed.

Lemma hexDigit_latin1 (d : Z) : hexDigit d <= 255.
Proof.
  unfold hexDigit.
  assert (H : forall (l : jsstring) (n : nat),
             latin1 l -> nth n l 48 <= 255).
  { intros l. induction l as [|x l IH]; intros n Hl.
    - destruct n; simpl; lia.
    - inversion Hl; subst. destruct n; simpl; [assumption|]. now apply IH. }
  apply H. now apply latin1_checked.
Qed.

Lemma hexDigits_latin1 (fuel : nat) (n : Z) : latin1 (hexDigits fuel n).
Proof.
  revert n. induction fuel as [|fuel IH]; intros n; simpl; [constructor|].
  destruct (n <? 16)%Z.
  - constructor; [apply hexDigit_latin1|constructor].
  - apply Forall_app. split; [apply IH|].
    constructor; [apply hexDigit_latin1|constructor].
Qed.

(** The fuel of [toString16] is enough: more fuel changes nothing. *)
Lemma hexDigits_enough (fuel : nat) :
  forall (n : Z) (extra : nat),
    (0 <= n < 2 ^ Z.of_nat fuel)%Z -> (1 <= fuel)%nat ->
    hexDigits (fuel + extra) n = hexDigits fuel n.
Proof.
  induction fuel as [|fuel IH]; intros n extra Hn Hfuel; [lia|].
  cbn [Nat.add hexDigits].
  destruct (n <? 16)%Z eqn:Hsmall; [reflexivity|].
  apply Z.ltb_ge in Hsmall.
  rewrite Nat2Z.inj_succ, Z.pow_succ_r in Hn by lia.
  assert (Hfuel' : (1 <= fuel)%nat).
  { destruct fuel; [simpl in Hn; lia|lia]. }
  rewrite IH; [reflexivity| |exact Hfuel'].
  split; [apply Z.div_pos; lia|].
  apply Z.div_lt_upper_bound; lia.
Qed.

Lemma toString16_enough (n : Z) (extra : nat) :
  (0 <= n)%Z ->
  hexDigits (S (Z.to_nat (Z.log2 n)) + extra) n = toString16 n.
Proof.
  intros Hn. unfold toString16. apply hexDigits_enough; [|lia].
  rewrite Nat2Z.inj_succ, Z2Nat.id by apply Z.log2_nonneg.
  destruct (Z.eq_dec n 0) as [->|Hnz]; [simpl; lia|].
  split; [exact Hn|]. apply Z.log2_spec. lia.
Qed.

Lemma toString16_samples :
  toString16 0 = lit "0" /\ toString16 255 = lit "ff"
  /\ toString16 2147483648 = lit "80000000".
Proof. repeat split. Qed.

(** The device id is never empty and is made of Latin-1 characters. *)
Lemma getDeviceId_usable :
  getDeviceId h <> [] /\ latin1 (getDeviceId h).
Proof.
  unfold getDeviceId.
  set (hash := fold_left _ _ _).
  generalize (hexDigits_latin1 (S (Z.to_nat (Z.log2 (Z.abs hash)))) (Z.abs hash)).
  fold (toString16 (Z.abs hash)).
  generalize (toString16 (Z.abs hash)) as digits.
  intros digits Hdigits. unfold padStart16. split.
  - intros E. apply app_eq_nil in E as [E1 E2].
    destruct digits; [discriminate E1|discriminate E2].
  - apply Forall_app. split; [|exact Hdigits].
    apply Forall_forall. intros c Hc. apply repeat_spec in Hc. subst c. lia.
Qed.

End DeviceKey.

(** [C9] For every API key whose characters all have code points at most
    255, [encryptApiKey] returns an encrypted key from which
    [decryptApiKey], with the same device fingerprint, gives the key back;
    both functions map the empty string to the empty string. *)
Theorem decrypt_encrypt_roundtrip :
  forall (h : Host) (apiKey : jsstring),
    Forall (fun c => (c <= 255)%N) apiKey ->
    (exists encrypted,
        encryptApiKey h apiKey = Normal encrypted
        /\ decryptApiKey h encrypted = apiKey)
    /\ encryptApiKey h (lit "") = Normal (lit "")
    /\ decryptApiKey h (lit "") = lit "".
Proof.
  intros h apiKey Hkey. split; [|split; reflexivity].
  destruct apiKey as [|c key]; [exists []; split; reflexivity|].
  destruct (getDeviceId_usable h) as [Hne Hdev].
  destruct (xorWithDevice_twice h (getDeviceId h) Hne Hdev (c :: key) 0 Hkey)
    as [mixed [Hmixed [Hlatin [Hlen Hback]]]].
  destruct (atob_btoa mixed Hlatin) as [Hbtoa Hatob].
  assert (Hmixed_ne : mixed <> []).
  { destruct mixed; [discriminate Hlen|discriminate]. }
  exists (Base64.encodeBytes mixed). split.
  - unfold encryptApiKey. cbn [truthy negb]. rewrite Hmixed. cbn [bind].
    now rewrite Hbtoa.
  - unfold decryptApiKey.
    destruct (Base64.encodeBytes mixed) as [|e encoded] eqn:Henc;
      [now apply encodeBytes_not_empty in Henc|].
    cbn [truthy negb]. rewrite Hatob. cbn [bind]. now rewrite Hback.
Qed.

Lemma decrypt_encrypt_roundtrip_witness :
  exists encrypted,
    encryptApiKey quietHost (lit "sk-test-1234") = Normal encrypted
    /\ decryptApiKey quietHost encrypted = lit "sk-test-1234".
Proof.
  refine (proj1 (decrypt_encrypt_roundtrip quietHost (lit "sk-test-1234") _)).
  apply latin1_checked. reflexivity.
Defined.

(** The sample device: its id, and a key as it is stored. *)
Lemma encryptApiKey_sample :
  List.length (getDeviceId quietHost) = 16%nat
  /\ exists encrypted,
       encryptApiKey quietHost (lit "sk-test-1234") = Normal encrypted
       /\ Base64.atob encrypted <> None
       /\ decryptApiKey quietHost encrypted = lit "sk-test-1234".
Proof.
  split; [reflexivity|].
  eexists. split; [vm_compute; reflexivity|].
  split; [vm_compute; discriminate|vm_compute; reflexivity].
Qed.

(* ================================================================== *)
(** * Part III. Further properties of the code                         *)
(* ================================================================== *)

(** ** More on strings *)

Section TrimFacts.

Lemma trimStart_head (s : jsstring) :
  match trimStart s with
  | [] => True
  | c :: _ => isWhiteSpace c = false
  end.
Proof.
  induction s as [|c s IH]; simpl; [exact I|].
  destruct (isWhiteSpace c) eqn:E; [exact IH|exact E].
Qed.

Lemma trimStart_keeps (x y : jsstring) (c : N) :
  isWhiteSpace c = false ->
  trimStart (x ++ c :: y) = trimStart x ++ c :: y.
Proof.
  intros Hc. induction x as [|d x IH]; simpl; [now rewrite Hc|].
  destruct (isWhiteSpace d); [exact IH|reflexivity].
Qed.

Lemma trimEnd_cons (c : N) (s : jsstring) :
  isWhiteSpace c = false -> trimEnd (c :: s) = c :: trimEnd s.
Proof.
  intros Hc. unfold trimEnd. cbn [rev].
  rewrite trimStart_keeps by exact Hc.
  now rewrite rev_app_distr.
Qed.

Lemma trimEnd_last (s : jsstring) :
  match rev (trimEnd s) with
  | [] => True
  | c :: _ => isWhiteSpace c = false
  end.
Proof. unfold trimEnd. rewrite rev_involutive. apply trimStart_head. Qed.

(** [trim] leaves no whitespace at either end. *)
Lemma trim_ends (s : jsstring) :
  match trim s with [] => True | c :: _ => isWhiteSpace c = false end
  /\ match rev (trim s) with [] => True | c :: _ => isWhiteSpace c = false end.
Proof.
  unfold trim. split; [|apply trimEnd_last].
  pose proof (trimStart_head s) as H.
  destruct (trimStart s) as [|c t]; [exact I|].
  now rewrite trimEnd_cons.
Qed.

Lemma trim_idempotent (s : jsstring) : trim (trim s) = trim s.
Proof. destruct (trim_ends s). now apply trim_fixed. Qed.

Lemma trimStart_Forall (P : N -> Prop) (s : jsstring) :
  Forall P s -> Forall P (trimStart s).
Proof.
  induction 1 as [|c s Hc Hs IH]; simpl; [constructor|].
  destruct (isWhiteSpace c); [exact IH|now constructor].
Qed.

Lemma trim_Forall (P : N -> Prop) (s : jsstring) :
  Forall P s -> Forall P (trim s).
Proof.
  intros H. unfold trim, trimEnd.
  apply Forall_rev, trimStart_Forall, Forall_rev, trimStart_Forall, H.
Qed.

Lemma trimStart_length (s : jsstring) :
  (List.length (trimStart s) <= List.length s)%nat.
Proof.
  induction s as [|c s IH]; simpl; [lia|].
  destruct (isWhiteSpace c); simpl; lia.
Qed.

Lemma trim_length (s : jsstring) :
  (List.length (trim s) <= List.length s)%nat.
Proof.
  unfold trim, trimEnd. rewrite length_rev.
  pose proof (trimStart_length (rev (trimStart s))) as H.
  rewrite length_rev in H. pose proof (trimStart_length s). lia.
Qed.

(** A blank string is trimmed to nothing, and only a blank string. *)
Lemma trimStart_blank (s : jsstring) :
  trimStart s = [] <-> forallb isWhiteSpace s = true.
Proof.
  induction s as [|c s IH]; simpl; [tauto|].
  destruct (isWhiteSpace c); simpl; [exact IH|].
  split; discriminate.
Qed.

Lemma trim_blank (s : jsstring) :
  trim s = [] <-> forallb isWhiteSpace s = true.
Proof.
  unfold trim. split.
  - intros H. apply trimStart_blank.
    pose proof (trimStart_head s) as Hh.
    destruct (trimStart s) as [|c t]; [reflexivity|].
    rewrite trimEnd_cons in H by exact Hh. discriminate.
  - intros H. apply trimStart_blank in H. now rewrite H.
Qed.

End TrimFacts.

(** ** The sources shown for an answer *)

Section ListedSources.

Lemma readable_in (vault : Vault) (files : list TFile) (p c : jsstring) :
  In (p, c) (readable vault files) ->
  exists f, In f files /\ path f = p /\ cachedRead vault f = Some c.
Proof.
  unfold readable. intros H. apply in_flat_map in H as [f [Hf Hin]].
  exists f. split; [exact Hf|].
  destruct (cachedRead vault f) as [content|]; [|contradiction].
  destruct Hin as [E|[]]. now inversion E.
Qed.

End ListedSources.

(** [X1] With context inclusion enabled and "current file only" off, when
    the notes of the store have non-empty one-line paths and contents
    without ["FILE: "], every source that [extractSourceFiles] finds in the
    blob of [scanVault] is the path of a note of the store that was read,
    starts with the include folder, and starts with no exclude folder. *)
Theorem listed_sources_respect_filters :
  forall (s : VaultLLMAssistantSettings) (vault : Vault)
         (currentFile : option TFile),
    useVaultContent s = true ->
    includeCurrentFileOnly s = false ->
    (forall f, In f (getMarkdownFiles vault) ->
               path f <> lit "" /\ ~ In LF (path f)) ->
    (forall f c, In f (getMarkdownFiles vault) ->
                 cachedRead vault f = Some c ->
                 includes c (lit "FILE: ") = false) ->
    forall p,
      In p (extractSourceFiles (scanVault s vault (lit "") currentFile)) ->
      startsWith p (includeFolder s) = true
      /\ (forall folder, In folder (excludeFolder s) ->
                         startsWith p folder = false)
      /\ exists f, In f (getMarkdownFiles vault) /\ path f = p
                   /\ cachedRead vault f <> None.
Proof.
  intros s vault cur Hctx Hoff Hpaths Hcontents p Hp.
  unfold scanVault in Hp. rewrite Hctx in Hp. cbn [negb] in Hp.
  rewrite assemble_blocks in Hp. cbn [contextPrefix truthy lit map
    list_ascii_of_string app] in Hp.
  rewrite (selectFiles_filters s vault cur Hoff) in Hp.
  set (files := filter (fun f => negb (excluded s f))
                       (filter (included s) (getMarkdownFiles vault))) in Hp.
  assert (Hfiles : forall f, In f files ->
                             In f (getMarkdownFiles vault)
                             /\ included s f = true /\ excluded s f = false).
  { intros f Hf. unfold files in Hf.
    apply filter_In in Hf as [Hf Hex]. apply filter_In in Hf as [Hf Hinc].
    apply negb_true_iff in Hex. auto. }
  unfold extractSourceFiles in Hp. rewrite exec_blocks in Hp.
  - apply in_map_iff in Hp as [[p' c] [E Hin]]. simpl in E. subst p'.
    apply readable_in in Hin as [f [Hf [Hpath Hread]]].
    destruct (Hfiles f Hf) as [Hcat [Hinc Hex]]. subst p.
    split; [exact Hinc|]. split; [now apply excluded_false|].
    exists f. split; [exact Hcat|]. split; [reflexivity|]. congruence.
  - intros p' c Hin.
    apply readable_in in Hin as [f [Hf [Hpath Hread]]].
    destruct (Hfiles f Hf) as [Hcat _]. subst p'.
    destruct (Hpaths f Hcat). repeat split; auto.
    now apply (Hcontents f c).
Qed.

Lemma listed_sources_respect_filters_witness :
  extractSourceFiles (scanVault excludePrivate sampleVault (lit "") None)
  = [lit "notes/a.md"; lit "notes/b.md"; lit "public/y.md"]
  /\ startsWith (lit "public/y.md") (lit "private/") = false.
Proof.
  split; [reflexivity|].
  refine (proj1 (proj2 (listed_sources_respect_filters
                          excludePrivate sampleVault None eq_refl eq_refl
                          _ _ (lit "public/y.md") _))
                (lit "private/") (or_introl eq_refl)).
  - intros f Hf. simpl in Hf.
    repeat (destruct Hf as [<-|Hf];
            [split; [discriminate|];
             unfold LF; simpl; intros H;
             repeat (destruct H as [H|H]; [discriminate H|]); exact H|]).
    contradiction.
  - intros f c Hf. simpl in Hf.
    repeat (destruct Hf as [<-|Hf];
            [intros E; vm_compute in E; inversion E; reflexivity|]).
    contradiction.
  - vm_compute. auto.
Defined.

(** ** Context switched off *)

(** [X2] With context inclusion disabled, nothing of the store reaches
    the provider: [scanVault] returns the empty string for every store and
    current file, and [queryLLM] gives the same result whatever the store,
    the current file and its path. *)
Theorem disabled_context_keeps_the_vault_out :
  forall (h : Host) (p : Plugin) (query : jsstring)
         (vault1 vault2 : Vault) (current1 current2 : option TFile)
         (path1 path2 : option jsstring),
    useVaultContent (settings p) = false ->
    scanVault (settings p) vault1 (lit "") current1 = lit ""
    /\ buildPrompt (settings p) query
                   (scanVault (settings p) vault1 (lit "") current1) path1
       = buildPrompt (settings p) query
                     (scanVault (settings p) vault2 (lit "") current2) path2
    /\ queryLLM h p query
                (scanVault (settings p) vault1 (lit "") current1) path1
       = queryLLM h p query
                  (scanVault (settings p) vault2 (lit "") current2) path2.
Proof.
  intros h p query vault1 vault2 current1 current2 path1 path2 Hoff.
  assert (Hprompt :
            forall vc1 vc2,
              buildPrompt (settings p) query vc1 path1
              = buildPrompt (settings p) query vc2 path2).
  { intros vc1 vc2. unfold buildPrompt. rewrite Hoff.
    now destruct (mode (settings p)). }
  split; [unfold scanVault; now rewrite Hoff|].
  split; [apply Hprompt|].
  unfold queryLLM. now rewrite (Hprompt _ (scanVault (settings p) vault2 (lit "") current2)).
Qed.

Lemma disabled_context_keeps_the_vault_out_witness :
  queryLLM quietHost (samplePlugin contextOff) (lit "Hi")
           (scanVault contextOff sampleVault (lit "") (Some privateNote))
           (Some (lit "private/x.md"))
  = queryLLM quietHost (samplePlugin contextOff) (lit "Hi")
             (scanVault contextOff twoLineVault (lit "") None) None.
Proof.
  exact (proj2 (proj2 (disabled_context_keeps_the_vault_out
                         quietHost (samplePlugin contextOff) (lit "Hi")
                         sampleVault twoLineVault (Some privateNote) None
                         (Some (lit "private/x.md")) None eq_refl))).
Defined.

(** ** The adapters as a whole *)

Section AdapterOutcomes.

Variable h : Host.

Lemma queryWith_unfold (prov : Provider) (p : Plugin) (prompt : jsstring) :
  queryWith prov h p prompt
  = tryCatch (jsonResponse <- requestUrl h (requestOf prov p prompt) ;;
              extraction prov h jsonResponse)
             (fun error => Normal (str (adapterErrorText prov h error))).
Proof. destruct prov; reflexivity. Qed.

Lemma adapterErrorText_prefix (prov : Provider) (e : JsError) :
  startsWith (adapterErrorText prov h e) (errorPrefix prov) = true.
Proof.
  destruct prov; simpl.
  - apply gptErrorMessage_prefix.
  - apply geminiErrorMessage_prefix.
  - apply lmStudioErrorMessage_prefix.
Qed.

Lemma errorPrefix_is_error (prov : Provider) (text : jsstring) :
  startsWith text (errorPrefix prov) = true -> isErrorResponse text = true.
Proof.
  intros H. unfold isErrorResponse. apply orb_true_iff. left.
  assert (Hsplit : exists rest, errorPrefix prov = lit "Error querying " ++ rest).
  { destruct prov; eexists; reflexivity. }
  destruct Hsplit as [rest E]. rewrite E in H. clear E.
  revert text H. generalize (lit "Error querying ") as pre.
  induction pre as [|x pre IH]; intros text H; [reflexivity|].
  destruct text as [|c text]; [discriminate|]. simpl in H |- *.
  apply andb_true_iff in H as [Hx H]. rewrite Hx. now apply IH.
Qed.

End AdapterOutcomes.

(** [X3] [queryGPT], [queryGemini] and [queryLMStudio] never throw: they
    return what they read out of the response, and when reading it throws
    (a choice without message, a body that is [null]) they return a text
    that begins with ["Error querying <Provider>: "]. *)
Theorem adapters_never_throw :
  forall (prov : Provider) (h : Host) (p : Plugin) (prompt : jsstring),
  exists v,
    queryWith prov h p prompt = Normal v
    /\ (forall jsonResponse w,
           requestUrl h (requestOf prov p prompt) = Normal jsonResponse ->
           extraction prov h jsonResponse = Normal w -> v = w)
    /\ (forall jsonResponse e,
           requestUrl h (requestOf prov p prompt) = Normal jsonResponse ->
           extraction prov h jsonResponse = Abrupt e ->
           exists text, v = str text
                        /\ startsWith text (errorPrefix prov) = true).
Proof.
  intros prov h p prompt. rewrite queryWith_unfold. unfold tryCatch.
  destruct (requestUrl h (requestOf prov p prompt)) as [j|e0]; cbn [bind].
  - destruct (extraction prov h j) as [w|e] eqn:E.
    + exists w. split; [reflexivity|]. split.
      * intros j' w' Hj Hw. inversion Hj; subst. congruence.
      * intros j' e Hj He. inversion Hj; subst. congruence.
    + exists (str (adapterErrorText prov h e)). split; [reflexivity|]. split.
      * intros j' w' Hj Hw. inversion Hj; subst. congruence.
      * intros j' e' Hj He. eexists. split; [reflexivity|].
        apply adapterErrorText_prefix.
  - exists (str (adapterErrorText prov h e0)). split; [reflexivity|].
    split; intros j' ? Hj; discriminate Hj.
Qed.

Lemma adapters_never_throw_witness :
  queryGPT (sampleHost (Normal choiceWithoutMessage)) defaultPlugin (lit "Hi")
  = Normal (str (lit "Error querying OpenAI: Cannot read properties of undefined"))
  /\ exists v,
       queryGPT (sampleHost (Normal choiceWithoutMessage)) defaultPlugin (lit "Hi")
       = Normal v.
Proof.
  split; [reflexivity|].
  destruct (adapters_never_throw OpenAI (sampleHost (Normal choiceWithoutMessage))
                                 defaultPlugin (lit "Hi")) as [v [Hv _]].
  exists v. exact Hv.
Defined.

(** [X4] A response object whose list of answers is absent or empty (and,
    for Gemini, without an error object) gives the fixed text
    ["No response generated."], which the callers' prefix test takes for an
    answer. *)
Theorem empty_response_is_an_answer :
  forall (prov : Provider) (h : Host) (p : Plugin) (prompt : jsstring)
         (fields : list (jsstring * json)),
    requestUrl h (requestOf prov p prompt) = Normal (JObj fields) ->
    lookup (answersKey prov) fields = None
    \/ lookup (answersKey prov) fields = Some (JArr []) ->
    (prov = Gemini -> truthyV (lookup (lit "error") fields) = false) ->
    queryWith prov h p prompt = Normal (str (lit "No response generated."))
    /\ isErrorResponse (lit "No response generated.") = false.
Proof.
  intros prov h p prompt fields Hreq Hans Herr.
  split; [|reflexivity].
  rewrite queryWith_unfold, Hreq. cbn [bind tryCatch].
  destruct prov; cbn [extraction answersKey] in *.
  - unfold firstChoice. cbn [getProp bind].
    destruct Hans as [-> | ->]; reflexivity.
  - unfold geminiResult. cbn [getProp bind].
    rewrite (Herr eq_refl).
    destruct Hans as [-> | ->]; reflexivity.
  - unfold firstChoice. cbn [getProp bind].
    destruct Hans as [-> | ->]; reflexivity.
Qed.

Lemma empty_response_is_an_answer_witness :
  queryLMStudio (sampleHost (Normal (JObj [(lit "choices", JArr [])])))
                defaultPlugin (lit "Hi")
  = Normal (str (lit "No response generated.")).
Proof.
  refine (proj1 (empty_response_is_an_answer
                   LMStudio (sampleHost (Normal (JObj [(lit "choices", JArr [])])))
                   defaultPlugin (lit "Hi") [(lit "choices", JArr [])]
                   eq_refl (or_intror eq_refl) _)).
  discriminate.
Defined.

(** ** Error texts *)

(** [X5] When the thrown error has a body that parses to an object whose
    [error.message] is a non-empty string, [queryGPT] and [queryGemini]
    report that message after ["Server message: "], whatever the status of
    the error; the status texts are used only without such a message. *)
Theorem server_message_comes_first :
  forall (h : Host) (e : JsError) (errorBody m : jsstring)
         (fields efields : list (jsstring * json)),
    errText e = Some (Some errorBody) ->
    JSON_parse h errorBody = Some (JObj fields) ->
    lookup (lit "error") fields = Some (JObj efields) ->
    lookup (lit "message") efields = Some (JStr m) ->
    m <> lit "" ->
    gptErrorMessage h e
      = lit "Error querying OpenAI: Server message: " ++ m
    /\ geminiErrorMessage h e
       = lit "Error querying Gemini: Server message: " ++ m.
Proof.
  intros h e errorBody m fields efields Htext Hparse Herr Hmsg Hm.
  assert (Hserver : serverMessage h e = Some m).
  { unfold serverMessage. rewrite Htext, Hparse. cbn [getProp].
    rewrite Herr. cbn [truthyV getProp]. rewrite Hmsg. cbn [truthyV toStringV
      toStringJson].
    destruct m; [contradiction|reflexivity]. }
  unfold gptErrorMessage, geminiErrorMessage. rewrite Hserver.
  split; reflexivity.
Qed.

Lemma server_message_comes_first_witness :
  queryGPT explainingHost defaultPlugin (lit "Hi")
  = Normal (str (lit "Error querying OpenAI: Server message: Incorrect API key provided")).
Proof.
  unfold queryGPT, tryCatch. cbn [explainingHost requestUrl bind].
  rewrite (proj1 (server_message_comes_first
                    explainingHost (explainedError 401) (lit "{...}")
                    (lit "Incorrect API key provided")
                    [(lit "error",
                      JObj [(lit "message", JStr (lit "Incorrect API key provided"))])]
                    [(lit "message", JStr (lit "Incorrect API key provided"))]
                    eq_refl eq_refl eq_refl eq_refl
                    ltac:(discriminate))).
  reflexivity.
Defined.

(** [X6] [queryLMStudio] never answers a status with its connection
    text: an error whose status is 0 is handled as an error without
    status, by its message alone, and an error with any other status gets
    a text different from
    ["Connection failed. Is LM Studio running and the server started?"]. *)
Theorem lmStudio_connection_text_is_never_from_a_status :
  forall (e : JsError),
    (errStatus e = Some 0%Z ->
     lmStudioErrorMessage e
     = lmStudioErrorMessage
         {| errStatus := None; errMessage := errMessage e;
            errText := errText e |})
    /\ (forall st, errStatus e = Some st -> st <> 0%Z ->
                   lmStudioErrorMessage e
                   <> lit "Error querying LM Studio: Connection failed. Is LM Studio running and the server started?").
Proof.
  intros e. split.
  - intros H. unfold lmStudioErrorMessage, statusTruthy. now rewrite H.
  - intros st H Hnz. unfold lmStudioErrorMessage, statusTruthy. rewrite H.
    apply Z.eqb_neq in Hnz. rewrite Hnz.
    change (lit "Error querying LM Studio: Connection failed. Is LM Studio running and the server started?")
      with (lit "Error querying LM Studio: "
              ++ lit "Connection failed. Is LM Studio running and the server started?").
    destruct (Z.eqb st 404); [intros E; apply app_inv_head in E; discriminate E|].
    destruct (Z.eqb st 500); [intros E; apply app_inv_head in E; discriminate E|].
    rewrite Hnz. intros E. apply app_inv_head in E. discriminate E.
Qed.

Lemma lmStudio_connection_text_is_never_from_a_status_witness :
  lmStudioErrorMessage
    {| errStatus := Some 0%Z; errMessage := None; errText := None |}
  = lit "Error querying LM Studio: Unknown error occurred"
  /\ lmStudioErrorMessage (httpError 502)
     <> lit "Error querying LM Studio: Connection failed. Is LM Studio running and the server started?".
Proof.
  split.
  - rewrite (proj1 (lmStudio_connection_text_is_never_from_a_status
                      {| errStatus := Some 0%Z; errMessage := None;
                         errText := None |}) eq_refl).
    reflexivity.
  - apply (proj2 (lmStudio_connection_text_is_never_from_a_status (httpError 502))
                 502%Z eq_refl).
    discriminate.
Defined.

Section LocalUrl.

Lemma endsWith_app (a p : jsstring) : endsWith (a ++ p) p = true.
Proof. unfold endsWith. rewrite rev_app_distr. apply startsWith_app. Qed.

Lemma startsWith_prefix (a b : jsstring) : startsWith (a ++ b) a = true.
Proof. apply startsWith_app. Qed.

End LocalUrl.

(** [X7] The URL that [queryLMStudio] posts to always ends with
    ["/chat/completions"] and begins with the configured URL; a configured
    URL that already ends with the sub-path is used as it is, so that
    normalizing twice changes nothing more. *)
Theorem lmStudioUrl_normalized :
  forall (s : VaultLLMAssistantSettings),
    endsWith (lmStudioUrl s) (lit "/chat/completions") = true
    /\ startsWith (lmStudioUrl s) (lmStudioApiUrl s) = true
    /\ (endsWith (lmStudioApiUrl s) (lit "/chat/completions") = true ->
        lmStudioUrl s = lmStudioApiUrl s)
    /\ (endsWith (lmStudioApiUrl s) (lit "/chat/completions") = false ->
        endsWith (lmStudioApiUrl s) (lit "/") = true ->
        lmStudioUrl s = lmStudioApiUrl s ++ lit "chat/completions")
    /\ (endsWith (lmStudioApiUrl s) (lit "/chat/completions") = false ->
        endsWith (lmStudioApiUrl s) (lit "/") = false ->
        lmStudioUrl s = lmStudioApiUrl s ++ lit "/chat/completions").
Proof.
  intros s. unfold lmStudioUrl.
  destruct (endsWith (lmStudioApiUrl s) (lit "/chat/completions")) eqn:E;
    cbn [negb].
  - split; [exact E|]. split.
    { rewrite <- (app_nil_r (lmStudioApiUrl s)) at 1. apply startsWith_app. }
    repeat split; try discriminate; reflexivity.
  - destruct (endsWith (lmStudioApiUrl s) (lit "/")) eqn:Eslash.
    + split.
      { unfold endsWith in Eslash |- *. rewrite rev_app_distr.
        destruct (rev (lmStudioApiUrl s)) as [|c r]; [discriminate|].
        change (rev (lit "/")) with [47%N] in Eslash.
        cbn [startsWith] in Eslash. apply andb_true_iff in Eslash as [Ec _].
        apply N.eqb_eq in Ec. subst c.
        change (rev (lit "/chat/completions"))
          with (rev (lit "chat/completions") ++ [47%N]).
        replace (rev (lit "chat/completions") ++ 47%N :: r)
          with ((rev (lit "chat/completions") ++ [47%N]) ++ r)
          by (now rewrite <- app_assoc).
        apply startsWith_app. }
      split; [apply startsWith_app|].
      repeat split; try discriminate; reflexivity.
    + split; [apply endsWith_app|]. split; [apply startsWith_app|].
      repeat split; try discriminate; reflexivity.
Qed.

Lemma lmStudioUrl_normalized_witness :
  lmStudioUrl DEFAULT_SETTINGS = lit "http://localhost:1234/v1/chat/completions".
Proof.
  exact (proj2 (proj2 (proj2 (proj2 (lmStudioUrl_normalized DEFAULT_SETTINGS))))
           eq_refl eq_refl).
Defined.

(** ** The shape of the OpenAI request *)

Section RequestShape.

Lemma findModel_outside (catalog : list ModelConfig) (modelId : jsstring) :
  ~ In modelId (map id catalog) -> findModel catalog modelId = None.
Proof.
  unfold findModel. induction catalog as [|m catalog IH]; intros H;
    [reflexivity|].
  simpl. destruct (Js.eqb (id m) modelId) eqn:E.
  - apply jsstring_eqb_eq in E. exfalso. apply H. now left.
  - apply IH. intros Hin. apply H. now right.
Qed.

Lemma findModel_inside (catalog : list ModelConfig) (modelId : jsstring)
      (m : ModelConfig) :
  findModel catalog modelId = Some m -> In m catalog /\ id m = modelId.
Proof.
  unfold findModel. intros H. apply find_some in H as [Hin E].
  apply jsstring_eqb_eq in E. auto.
Qed.

End RequestShape.

(** [X8] Every request body of [queryGPT] carries the system message and
    the prompt, as [messages] or as [input] and never both, and never has
    the legacy [prompt] field: no model of the catalog has the endpoint
    ["/v1/completions"].  For a model id outside the catalog the request
    goes to ["/v1/chat/completions"] with [messages] and with [max_tokens]
    equal to the configured [maxTokens]. *)
Theorem gpt_request_carries_the_prompt :
  forall (p : Plugin) (prompt : jsstring),
    let body := gptRequestBody OPENAI_MODELS (settings p) prompt in
    let conversation := JArr [gptSystemMessage; userMessage prompt] in
    lookup (lit "prompt") body = None
    /\ ((lookup (lit "messages") body = Some conversation
         /\ lookup (lit "input") body = None)
        \/ (lookup (lit "input") body = Some conversation
            /\ lookup (lit "messages") body = None))
    /\ (~ In (model (settings p)) (map id OPENAI_MODELS) ->
        url (gptRequest OPENAI_MODELS p prompt)
        = lit "https://api.openai.com/v1/chat/completions"
        /\ lookup (lit "messages") body = Some conversation
        /\ lookup (lit "max_tokens") body = Some (JNum (maxTokens (settings p)))
        /\ lookup (lit "max_completion_tokens") body = None).
Proof.
  intros p prompt body conversation. subst body conversation.
  unfold gptRequest, gptRequestBody.
  destruct (findModel OPENAI_MODELS (model (settings p))) as [m|] eqn:F.
  - apply findModel_inside in F as [Hin Hid].
    split; [|split].
    + unfold OPENAI_MODELS in Hin. simpl In in Hin.
      repeat (destruct Hin as [<-|Hin]; [reflexivity|]). contradiction.
    + unfold OPENAI_MODELS in Hin. simpl In in Hin.
      repeat (destruct Hin as [<-|Hin];
              [first [left; split; reflexivity|right; split; reflexivity]|]).
      contradiction.
    + intros Hout. exfalso. apply Hout. rewrite <- Hid. now apply in_map.
  - split; [reflexivity|]. split; [left; split; reflexivity|].
    intros _. repeat split.
Qed.

Lemma gpt_request_carries_the_prompt_witness :
  url (gptRequest OPENAI_MODELS
         (samplePlugin (providerSettings false (lit "gpt") (lit "my-fine-tune")
                                         true ModeQuery)) (lit "Hi"))
  = lit "https://api.openai.com/v1/chat/completions".
Proof.
  refine (proj1 (proj2 (proj2 (gpt_request_carries_the_prompt
            (samplePlugin (providerSettings false (lit "gpt") (lit "my-fine-tune")
                                            true ModeQuery)) (lit "Hi"))) _)).
  simpl. intros H.
  repeat (destruct H as [H|H]; [discriminate H|]). exact H.
Defined.

(** ** The validator and the plugin *)

(** [X9] For every model of the OpenAI catalog, the validator
    ([validateOpenAI]) posts to the URL that [queryGPT] posts to, and its
    body passes the prompt and the token limit in the same fields as the
    body of [queryGPT]; the plugin adds [temperature], which the validator
    never sends. *)
Theorem validator_tests_the_request_of_the_plugin :
  forall (p : Plugin) (prompt : jsstring) (m : ModelConfig),
    In m OPENAI_MODELS ->
    model (settings p) = id m ->
    url (gptRequest OPENAI_MODELS p prompt) = validatorUrl m
    /\ Forall (fun key =>
                 present (lookup key (gptRequestBody OPENAI_MODELS (settings p) prompt))
                 = present (lookup key (validatorBody m)))
              shapeKeys
    /\ lookup (lit "temperature") (validatorBody m) = None
    /\ lookup (lit "temperature")
              (gptRequestBody OPENAI_MODELS (settings p) prompt)
       = Some (JNum (temperature (settings p))).
Proof.
  intros p prompt m Hin Hmodel.
  unfold gptRequest, gptRequestBody. rewrite Hmodel. clear Hmodel.
  unfold OPENAI_MODELS in Hin. simpl In in Hin.
  repeat (destruct Hin as [<-|Hin];
          [split; [reflexivity|];
           split; [repeat constructor|split; reflexivity]|]).
  contradiction.
Qed.

Lemma validator_tests_the_request_of_the_plugin_witness :
  url (gptRequest OPENAI_MODELS
         (samplePlugin (providerSettings false (lit "gpt") (lit "o1-pro")
                                         true ModeQuery)) (lit "Hi"))
  = lit "https://api.openai.com/v1/responses".
Proof.
  refine (eq_trans
            (proj1 (validator_tests_the_request_of_the_plugin
                      (samplePlugin (providerSettings false (lit "gpt") (lit "o1-pro")
                                                      true ModeQuery))
                      (lit "Hi") (responsesModel "o1-pro" "o1 Pro") _ eq_refl))
            eq_refl).
  simpl. tauto.
Defined.

(** ** From a failed request to the error panel *)

Section ErrorRoute.

Variable h : Host.

Lemma dispatch_selected (p : Plugin) (prompt : jsstring) (prov : Provider) :
  selectedProvider (settings p) = Some prov ->
  dispatch h p prompt = queryWith prov h p prompt.
Proof.
  unfold selectedProvider, dispatch.
  destruct (useLocalLLM (settings p)); [intros E; now inversion E|].
  destruct (Js.eqb (modelProvider (settings p)) (lit "gpt"));
    [intros E; now inversion E|].
  destruct (Js.eqb (modelProvider (settings p)) (lit "gemini"));
    [intros E; now inversion E|discriminate].
Qed.

Lemma clean_without_backticks (text : jsstring) :
  includes text (lit "```") = false -> cleanMarkdownResponse text = text.
Proof.
  intros H. unfold cleanMarkdownResponse, stripLeadingOpener, openerAt.
  rewrite (no_backticks_no_tag _ (includes_false_start _ _ H)).
  rewrite (no_backticks_stripTrailingCloser _ H).
  now rewrite (no_backticks_fenceIndex _ H).
Qed.

End ErrorRoute.

(** [X10] When the request of the selected adapter throws, [queryLLM]
    returns the adapter's error text and the callers' prefix test
    recognises it as an error: always in query mode, and in create mode
    when the text has no three backticks in a row (the cleanup of create
    mode is applied to error texts too). *)
Theorem failed_request_reaches_the_error_panel :
  forall (h : Host) (p : Plugin) (query vaultContent : jsstring)
         (currentFilePath : option jsstring) (prov : Provider) (e : JsError),
    selectedProvider (settings p) = Some prov ->
    requestUrl h (requestOf prov p
                    (buildPrompt (settings p) query vaultContent currentFilePath))
      = Abrupt e ->
    mode (settings p) = ModeQuery
    \/ includes (adapterErrorText prov h e) (lit "```") = false ->
    queryLLM h p query vaultContent currentFilePath
      = Normal (str (adapterErrorText prov h e))
    /\ isErrorResponse (adapterErrorText prov h e) = true.
Proof.
  intros h p query vaultContent currentFilePath prov e Hsel Hreq Hmode.
  split; [|apply (errorPrefix_is_error prov), adapterErrorText_prefix].
  unfold queryLLM.
  rewrite (dispatch_selected h p _ prov Hsel), queryWith_unfold, Hreq.
  cbn [bind tryCatch].
  destruct (mode (settings p)) eqn:Hm; [reflexivity|].
  destruct Hmode as [Hq|Hclean]; [discriminate Hq|].
  cbn [asString str bind]. now rewrite (clean_without_backticks _ Hclean).
Qed.

Lemma failed_request_reaches_the_error_panel_witness :
  queryLLM (sampleHost (Abrupt (httpError 429))) creatingPlugin
           (lit "Black holes") (lit "") None
  = Normal (str (lit "Error querying OpenAI: Rate limit exceeded or quota exceeded. Please check your OpenAI plan and limits.")).
Proof.
  exact (proj1 (failed_request_reaches_the_error_panel
                  (sampleHost (Abrupt (httpError 429))) creatingPlugin
                  (lit "Black holes") (lit "") None OpenAI (httpError 429)
                  eq_refl eq_refl (or_intror eq_refl))).
Defined.

(** In create mode an error text that quotes a markdown fence loses its
    prefix in the cleanup and is taken for an answer. *)
Lemma create_mode_can_lose_the_error_prefix :
  queryLLM fenceQuotingHost creatingPlugin (lit "Black holes") (lit "") None
  = Normal (str (lit "in input"))
  /\ isErrorResponse (lit "in input") = false
  /\ queryLLM fenceQuotingHost askingPlugin (lit "Black holes") (lit "") None
     = Normal (str (lit "Error querying OpenAI: Server message: Unexpected ```md"
                      ++ LF :: lit "in input")).
Proof. repeat split. Qed.

(** ** More on fence stripping *)

Section FenceHeuristics.

Lemma ciPrefix_extend (pat s t r : jsstring) :
  ciPrefix pat s = Some r -> ciPrefix pat (s ++ t) = Some (r ++ t).
Proof.
  revert s. induction pat as [|x pat IH]; intros s H.
  - simpl in H |- *. destruct s; inversion H; subst; reflexivity.
  - destruct s as [|c s]; [discriminate|]. simpl in H |- *.
    destruct (ciEq x c); [now apply IH|discriminate].
Qed.

Lemma fenceAt_extend (s t : jsstring) :
  fenceAt s = true -> fenceAt (s ++ t) = true.
Proof.
  unfold fenceAt.
  destruct (ciPrefix (lit "```m") s) as [rest|] eqn:E; [|discriminate].
  rewrite (ciPrefix_extend _ s t rest E).
  destruct (ciPrefix (lit "d") rest) as [r|] eqn:Ed.
  - now rewrite (ciPrefix_extend _ rest t r Ed).
  - destruct (ciPrefix (lit "arkdown") rest) as [r|] eqn:Ea; [|discriminate].
    rewrite (ciPrefix_extend _ rest t r Ea).
    now destruct (ciPrefix (lit "d") (rest ++ t)).
Qed.

Lemma fenceIndex_prefix (s t : jsstring) :
  fenceIndex (s ++ t) = None -> fenceIndex s = None.
Proof.
  induction s as [|c s IH]; intros H; [reflexivity|].
  change ((c :: s) ++ t) with (c :: (s ++ t)) in H.
  cbn [fenceIndex] in H |- *.
  change (c :: s ++ t) with ((c :: s) ++ t) in H.
  destruct (fenceAt (c :: s)) eqn:E.
  - now rewrite (fenceAt_extend _ t E) in H.
  - destruct (fenceAt ((c :: s) ++ t)); [discriminate|].
    destruct (fenceIndex (s ++ t)); [discriminate|]. now rewrite IH.
Qed.

Lemma openerAt_is_fence (s r : jsstring) :
  openerAt s = Some r -> fenceAt s = true.
Proof.
  unfold openerAt, fenceAt.
  destruct (ciPrefix (lit "```m") s) as [rest|]; [|discriminate].
  destruct (ciPrefix (lit "d") rest); [reflexivity|].
  destruct (ciPrefix (lit "arkdown") rest); [reflexivity|discriminate].
Qed.

Lemma fenceIndex_none_no_opener (s : jsstring) :
  fenceIndex s = None -> openerAt s = None.
Proof.
  intros H. destruct (openerAt s) as [r|] eqn:E; [|reflexivity].
  apply openerAt_is_fence in E. destruct s as [|c s].
  - discriminate E.
  - cbn [fenceIndex] in H. rewrite E in H. discriminate.
Qed.

Lemma closerAt_before_backtick (b ws : jsstring) :
  b <> [] -> closerAt (b ++ LF :: lit "```" ++ ws) = false.
Proof.
  intros Hb. unfold closerAt.
  change (b ++ LF :: lit "```" ++ ws)
    with (b ++ [LF; 96; 96]%N ++ 96%N :: ws).
  rewrite app_assoc, skipn_app, forallb_app.
  replace (4 - List.length (b ++ [LF; 96%N; 96%N]))%nat with 0%nat.
  - cbn [skipn forallb]. change (isWhiteSpace 96) with false.
    now rewrite !andb_false_r.
  - rewrite length_app. destruct b as [|c b]; [contradiction|].
    cbn [List.length]. lia.
Qed.

Lemma stripTrailingCloser_blank_end (b ws : jsstring) :
  forallb isWhiteSpace ws = true ->
  stripTrailingCloser (b ++ LF :: lit "```" ++ ws) = b.
Proof.
  intros Hws. induction b as [|c b IH].
  - cbn [app stripTrailingCloser]. unfold closerAt.
    change (skipn 4 (LF :: lit "```" ++ ws)) with ws.
    rewrite Hws. reflexivity.
  - change ((c :: b) ++ LF :: lit "```" ++ ws)
      with (c :: (b ++ LF :: lit "```" ++ ws)).
    cbn [stripTrailingCloser].
    change (c :: b ++ LF :: lit "```" ++ ws)
      with ((c :: b) ++ LF :: lit "```" ++ ws).
    rewrite closerAt_before_backtick by discriminate. now rewrite IH.
Qed.

End FenceHeuristics.

(** [X11] In create mode, an answer without a markdown-tagged fence
    ([```md], [```markdown]) that ends with a line feed, three backticks
    and whitespace loses exactly that ending: the last line of a code
    block of any other language is removed with it. *)
Theorem cleanMarkdownResponse_drops_a_last_fence_line :
  forall (body ws : jsstring),
    forallb isWhiteSpace ws = true ->
    fenceIndex (body ++ LF :: lit "```" ++ ws) = None ->
    cleanMarkdownResponse (body ++ LF :: lit "```" ++ ws) = body.
Proof.
  intros body ws Hws Hfence. unfold cleanMarkdownResponse, stripLeadingOpener.
  rewrite (fenceIndex_none_no_opener _ Hfence).
  rewrite (stripTrailingCloser_blank_end body ws Hws).
  now rewrite (fenceIndex_prefix body _ Hfence).
Qed.

Lemma cleanMarkdownResponse_drops_a_last_fence_line_witness :
  cleanMarkdownResponse
    (lit "Run:" ++ LF :: lit "```python" ++ LF :: lit "print(1)"
       ++ LF :: lit "```" ++ [LF])
  = lit "Run:" ++ LF :: lit "```python" ++ LF :: lit "print(1)".
Proof.
  exact (cleanMarkdownResponse_drops_a_last_fence_line
           (lit "Run:" ++ LF :: lit "```python" ++ LF :: lit "print(1)")
           [LF] eq_refl eq_refl).
Defined.

Section ProseBeforeFence.

Lemma ciEq_backtick (c : N) : N.eqb c 96 = false -> ciEq 96 c = false.
Proof. intros H. unfold ciEq. now rewrite H. Qed.

Lemma no_tag_without_backtick (c : N) (s : jsstring) :
  N.eqb c 96 = false ->
  fenceAt (c :: s) = false /\ openerAt (c :: s) = None.
Proof.
  intros H. unfold fenceAt, openerAt.
  change (lit "```m") with (96%N :: lit "``m"). cbn [ciPrefix].
  rewrite (ciEq_backtick c H). split; reflexivity.
Qed.

Lemma fenceIndex_after_prose (prose rest : jsstring) :
  noBacktick prose = true -> fenceAt rest = true ->
  fenceIndex (prose ++ rest) = Some (List.length prose).
Proof.
  intros Hp Hrest. induction prose as [|c prose IH].
  - destruct rest as [|r rest]; [discriminate Hrest|].
    cbn [app fenceIndex]. now rewrite Hrest.
  - cbn [noBacktick forallb] in Hp. apply andb_true_iff in Hp as [Hc Hp].
    apply negb_true_iff in Hc.
    change ((c :: prose) ++ rest) with (c :: (prose ++ rest)).
    cbn [fenceIndex].
    rewrite (proj1 (no_tag_without_backtick c (prose ++ rest) Hc)).
    now rewrite (IH Hp).
Qed.

Lemma opener_is_fence (opener t : jsstring) :
  isFenceOpener opener = true -> fenceAt (opener ++ t) = true.
Proof.
  intros Ho. unfold isFenceOpener in Ho.
  apply orb_true_iff in Ho as [Ho|Ho];
    pose proof (ciEqual_prefix _ opener t Ho) as P; unfold fenceAt.
  - change (lit "```md") with (lit "```m" ++ lit "d") in P.
    rewrite ciPrefix_app in P.
    destruct (ciPrefix (lit "```m") (opener ++ t)); [|discriminate].
    now rewrite P.
  - change (lit "```markdown") with (lit "```m" ++ lit "arkdown") in P.
    rewrite ciPrefix_app in P.
    destruct (ciPrefix (lit "```m") (opener ++ t)) as [rest|]; [|discriminate].
    rewrite P. now destruct (ciPrefix (lit "d") rest).
Qed.

Lemma opener_not_empty (opener : jsstring) :
  isFenceOpener opener = true -> opener <> [].
Proof. intros H E. subst opener. discriminate H. Qed.

Lemma stripFirstOpener_at_start (opener body : jsstring) :
  isFenceOpener opener = true -> startsInline body = true ->
  stripFirstOpener (opener ++ LF :: body) = body.
Proof.
  intros Ho Hb.
  pose proof (openerAt_opener opener body Ho) as H.
  rewrite <- (app_nil_r body) in H at 1.
  specialize (H (startsInline_no_newline_run body [] Hb)).
  destruct opener as [|c opener]; [now apply opener_not_empty in Ho|].
  change ((c :: opener) ++ LF :: body) with (c :: (opener ++ LF :: body)) in H |- *.
  cbn [stripFirstOpener]. now rewrite H.
Qed.

(** Steps 1 and 3 of [cleanMarkdownResponse] on prose followed by a
    fenced body, once the closer is gone. *)
Lemma discard_prose (prose opener body : jsstring) :
  prose <> [] -> noBacktick prose = true ->
  isFenceOpener opener = true -> startsInline body = true ->
  match fenceIndex (prose ++ opener ++ LF :: body) with
  | Some (S i) =>
      stripFirstOpener (substringFrom (S i) (prose ++ opener ++ LF :: body))
  | _ => prose ++ opener ++ LF :: body
  end = body.
Proof.
  intros Hne Hp Ho Hb.
  rewrite (fenceIndex_after_prose prose _ Hp (opener_is_fence opener _ Ho)).
  destruct prose as [|c prose]; [contradiction|].
  cbn [List.length]. unfold substringFrom.
  change (S (List.length prose)) with (List.length (c :: prose)).
  rewrite skipn_app, skipn_all, Nat.sub_diag. cbn [skipn app].
  now apply stripFirstOpener_at_start.
Qed.

End ProseBeforeFence.

(** [X12] Explanatory text before the fence is discarded: for an answer
    made of a non-empty introduction without backticks, a fence opener
    ([```md] or [```markdown] in any letter case), a line feed, a body that
    starts inline, a line feed and the closer [```], the result of
    [cleanMarkdownResponse] is the body alone. *)
Theorem cleanMarkdownResponse_discards_the_introduction :
  forall (prose opener body : jsstring),
    prose <> lit "" ->
    noBacktick prose = true ->
    isFenceOpener opener = true ->
    startsInline body = true ->
    cleanMarkdownResponse (prose ++ fenced opener body) = body.
Proof.
  intros prose opener body Hne Hp Ho Hb.
  unfold cleanMarkdownResponse, stripLeadingOpener, fenced.
  assert (Hstart : openerAt (prose ++ opener ++ LF :: body ++ LF :: lit "```")
                   = None).
  { destruct prose as [|c rest]; [contradiction|].
    cbn [noBacktick forallb] in Hp.
    apply andb_true_iff in Hp as [Hc _]. apply negb_true_iff in Hc.
    apply (no_tag_without_backtick c _ Hc). }
  rewrite Hstart.
  replace (prose ++ opener ++ LF :: body ++ LF :: lit "```")
    with ((prose ++ opener ++ LF :: body) ++ LF :: lit "```")
    by (now rewrite <- !app_assoc).
  rewrite stripTrailingCloser_closer.
  now apply discard_prose.
Qed.

Lemma cleanMarkdownResponse_discards_the_introduction_witness :
  cleanMarkdownResponse
    (lit "Here is your note:" ++ LF
       :: fenced (lit "```Markdown") (lit "# Black holes"))
  = lit "# Black holes".
Proof.
  exact (cleanMarkdownResponse_discards_the_introduction
           (lit "Here is your note:" ++ [LF]) (lit "```Markdown")
           (lit "# Black holes") ltac:(discriminate) eq_refl eq_refl eq_refl).
Defined.

(** ** Titles *)

(** [X13] The title made of the query is never longer than 53
    characters; it is empty exactly when the query is blank and has at
    most 50 characters; for a query of more than 50 characters it is a
    text of at most 50 characters followed by ["..."], and it is ["..."]
    alone exactly when the first 50 characters of the query are blank. *)
Theorem queryTitle_bounds :
  forall (query : jsstring),
    (List.length (queryTitle query) <= 53)%nat
    /\ (queryTitle query = lit "" <-> forallb isWhiteSpace query = true
                                      /\ (List.length query <= 50)%nat)
    /\ ((50 < List.length query)%nat ->
        (exists stem, queryTitle query = stem ++ lit "..."
                      /\ (List.length stem <= 50)%nat)
        /\ (queryTitle query = lit "..."
            <-> forallb isWhiteSpace (firstn 50 query) = true)).
Proof.
  intros query. unfold queryTitle, substringTo.
  destruct (50 <? List.length query)%nat eqn:Hlen.
  - apply Nat.ltb_lt in Hlen.
    pose proof (trim_length (firstn 50 query)) as Ht.
    rewrite length_firstn in Ht.
    split; [rewrite length_app; change (List.length (lit "...")) with 3%nat; lia|].
    split.
    + split.
      * intros E. apply app_eq_nil in E as [_ E]. discriminate E.
      * intros [_ H]. lia.
    + intros _. split.
      * exists (trim (firstn 50 query)). split; [reflexivity|lia].
      * rewrite <- trim_blank. split.
        -- intros E. change (lit "...") with ([] ++ lit "...") in E.
           now apply app_inv_tail in E.
        -- now intros ->.
  - apply Nat.ltb_ge in Hlen. pose proof (trim_length query).
    split; [lia|]. split.
    + rewrite trim_blank. tauto.
    + intros Hlong. lia.
Qed.

Section GeneratedTitle.

Variable h : Host.

Lemma defaultTitle_not_empty : defaultTitle h <> [].
Proof. unfold defaultTitle. discriminate. Qed.

Lemma dropLastIf_app (f : N -> bool) (a t : jsstring) :
  t <> [] -> dropLastIf f (a ++ t) = a ++ dropLastIf f t.
Proof.
  intros Ht. induction a as [|x a IH]; [reflexivity|].
  change ((x :: a) ++ t) with (x :: (a ++ t)).
  assert (E : exists y l, a ++ t = y :: l).
  { destruct (a ++ t) as [|y l] eqn:E; [|now exists y, l].
    apply app_eq_nil in E as [_ E]. contradiction. }
  destruct E as [y [l E]]. rewrite E.
  change (dropLastIf f (x :: y :: l)) with (x :: dropLastIf f (y :: l)).
  rewrite <- E, IH. reflexivity.
Qed.

Lemma trimEnd_keeps (a b : jsstring) (c : N) :
  isWhiteSpace c = false -> trimEnd (a ++ c :: b) = a ++ c :: trimEnd b.
Proof.
  intros Hc. unfold trimEnd. rewrite rev_app_distr. cbn [rev].
  rewrite <- app_assoc. cbn [app].
  rewrite trimStart_keeps by exact Hc.
  rewrite rev_app_distr. cbn [rev]. rewrite rev_involutive.
  now rewrite <- app_assoc.
Qed.

Lemma adapterErrorText_shape (prov : Provider) (e : JsError) :
  exists rest, adapterErrorText prov h e = errorPrefix prov ++ rest.
Proof.
  destruct prov; cbn [adapterErrorText errorPrefix];
    unfold gptErrorMessage, geminiErrorMessage, lmStudioErrorMessage;
    repeat match goal with
           | |- context [match ?x with _ => _ end] => destruct x
           end; eexists; reflexivity.
Qed.

Lemma stripTitlePunctuation_plain (c : N) (s : jsstring) :
  isQuote c = false ->
  stripTitlePunctuation (c :: s)
  = dropLastIf (fun c => isQuote c || N.eqb c 46 || N.eqb c 58) (c :: s).
Proof. intros H. unfold stripTitlePunctuation. now rewrite H. Qed.

(** The cleaned form of an error text still begins as the text did. *)
Lemma cleaned_error_title (prov : Provider) (rest : jsstring) :
  exists tail,
    trim (stripTitlePunctuation (errorPrefix prov ++ rest))
    = lit "Error querying " ++ tail.
Proof.
  assert (Hshape : exists stem,
             errorPrefix prov ++ rest
             = 69%N :: ((lit "rror querying " ++ stem) ++ [58%N])
                      ++ 32%N :: rest).
  { destruct prov; [exists (lit "OpenAI")|exists (lit "Gemini")
                    |exists (lit "LM Studio")]; reflexivity. }
  destruct Hshape as [stem ->].
  rewrite stripTitlePunctuation_plain by reflexivity.
  set (front := (lit "rror querying " ++ stem) ++ [58%N]).
  change (69%N :: front ++ 32%N :: rest)
    with ((69%N :: front) ++ 32%N :: rest).
  rewrite dropLastIf_app by discriminate.
  set (t := dropLastIf _ (32%N :: rest)).
  unfold trim. cbn [app trimStart].
  change (isWhiteSpace 69) with false. cbn iota.
  unfold front. rewrite <- app_assoc. cbn [app].
  change (69%N :: (lit "rror querying " ++ stem) ++ 58%N :: t)
    with ((69%N :: lit "rror querying " ++ stem) ++ 58%N :: t).
  rewrite trimEnd_keeps by reflexivity.
  exists (stem ++ 58%N :: trimEnd t).
  change (lit "Error querying ") with (69%N :: lit "rror querying ").
  cbn [app]. now rewrite <- app_assoc.
Qed.

End GeneratedTitle.

(** [X14] [generateTitleForResponse] never returns an empty title.  When
    every request of the selected adapter throws, the title is not the
    date-stamped default: it is made of the adapter's error text and
    begins with ["Error querying "]. *)
Theorem generated_title_of_a_failed_request :
  forall (h : Host) (p : Plugin) (query response : jsstring),
    generateTitleForResponse h p query response <> lit ""
    /\ (forall (prov : Provider) (e : JsError),
           selectedProvider (settings p) = Some prov ->
           (forall request, requestUrl h request = Abrupt e) ->
           startsWith (generateTitleForResponse h p query response)
                      (lit "Error querying ") = true
           /\ generateTitleForResponse h p query response <> defaultTitle h).
Proof.
  intros h p query response. split.
  - unfold generateTitleForResponse.
    match goal with
    | |- context [dispatch h p ?prompt] =>
        destruct (dispatch h p prompt) as [v|e]
    end; cbn [bind]; [|apply defaultTitle_not_empty].
    destruct (asString h v) as [title|e]; cbn [bind];
      [|apply defaultTitle_not_empty].
    unfold orDefault.
    destruct (trim (stripTitlePunctuation title)) eqn:E; cbn [truthy];
      [apply defaultTitle_not_empty|discriminate].
  - intros prov e Hsel Hreq.
    assert (Htitle : exists tail,
               generateTitleForResponse h p query response
               = lit "Error querying " ++ tail).
    { unfold generateTitleForResponse.
      rewrite (dispatch_selected h p _ prov Hsel), queryWith_unfold, Hreq.
      cbn [bind tryCatch asString str].
      destruct (adapterErrorText_shape h prov e) as [rest ->].
      destruct (cleaned_error_title prov rest) as [tail ->].
      exists tail. reflexivity. }
    destruct Htitle as [tail ->]. split; [apply startsWith_app|].
    unfold defaultTitle. discriminate.
Qed.

Lemma generated_title_of_a_failed_request_witness :
  generateTitleForResponse (sampleHost (Abrupt (httpError 401))) askingPlugin
                           (lit "Capital?") (lit "Paris")
  = lit "Error querying OpenAI: Authentication error. Please check your API key"
  /\ startsWith
       (generateTitleForResponse (sampleHost (Abrupt (httpError 401)))
                                 askingPlugin (lit "Capital?") (lit "Paris"))
       (lit "Error querying ") = true.
Proof.
  split; [reflexivity|].
  exact (proj1 (proj2 (generated_title_of_a_failed_request
                         (sampleHost (Abrupt (httpError 401))) askingPlugin
                         (lit "Capital?") (lit "Paris"))
                      OpenAI (httpError 401) eq_refl (fun _ => eq_refl))).
Defined.

(** ** The path of a new note *)

Section NotePath.

Lemma cleanTitle_legal (title : jsstring) :
  Forall (fun c => isIllegalInFileName c = false) (cleanTitle title).
Proof.
  unfold cleanTitle. apply trim_Forall. apply Forall_forall.
  intros c Hc. apply filter_In in Hc as [_ Hc]. now apply negb_true_iff in Hc.
Qed.

Lemma noteFolderPath_separator (s : VaultLLMAssistantSettings) :
  noteFolderPath s = lit "" \/ endsWith (noteFolderPath s) (lit "/") = true.
Proof.
  unfold noteFolderPath.
  destruct (trim (newNoteFolder s)) as [|c folder] eqn:E; [now left|].
  cbn [truthy andb].
  destruct (endsWith (c :: folder) (lit "/")) eqn:Eslash; cbn [negb].
  - now right.
  - right. apply endsWith_app.
Qed.

End NotePath.

(** [X15] The file name that [createNoteFromContent] makes of a title is
    never empty: it is the title without backslash, slash, colon,
    asterisk, question mark, double quote, angle brackets and bar, and
    without whitespace at either end, or, when
    nothing is left of the title, the date-stamped default.  The folder
    part of the path is empty or ends with a slash, the path ends with
    [.md], and a file is returned only when the store created it at that
    path. *)
Theorem note_path_is_well_formed :
  forall (h : Host) (s : VaultLLMAssistantSettings) (title : jsstring),
    noteFileName h title <> lit ""
    /\ (cleanTitle title <> lit "" ->
        noteFileName h title = cleanTitle title
        /\ Forall (fun c => isIllegalInFileName c = false) (noteFileName h title)
        /\ trim (noteFileName h title) = noteFileName h title)
    /\ (cleanTitle title = lit "" ->
        noteFileName h title = lit "LLM response " ++ today h)
    /\ (noteFolderPath s = lit ""
        \/ endsWith (noteFolderPath s) (lit "/") = true)
    /\ endsWith (noteFullPath h s title) (lit ".md") = true
    /\ (forall (store : NoteStore) (content : jsstring) (f : TFile),
           createNoteFromContent h s store title content = Some f ->
           create store (noteFullPath h s title) content = Normal f).
Proof.
  intros h s title. unfold noteFileName, orDefault.
  split; [|split; [|split; [|split; [|split]]]].
  - destruct (cleanTitle title); cbn [truthy]; [|discriminate].
    unfold defaultTitle. discriminate.
  - intros Hne. destruct (cleanTitle title) as [|c t] eqn:E; [contradiction|].
    cbn [truthy]. rewrite <- E. split; [reflexivity|].
    split; [apply cleanTitle_legal|].
    unfold cleanTitle. apply trim_idempotent.
  - intros ->. reflexivity.
  - apply noteFolderPath_separator.
  - unfold noteFullPath. rewrite app_assoc. apply endsWith_app.
  - intros store content f H. unfold createNoteFromContent in H.
    match type of H with
    | match bind ?c _ with _ => _ end = _ => destruct c as [[]|e]
    end; cbn [bind] in H; [|discriminate].
    destruct (create store (noteFullPath h s title) content) as [f'|e];
      [now inversion H|discriminate].
Qed.

Lemma note_path_is_well_formed_witness :
  noteFullPath quietHost (folderSettings (lit "Notes ")) (lit " Black/holes: a? ")
  = lit "Notes/Blackholes a.md"
  /\ noteFullPath quietHost (folderSettings (lit "")) (lit "???")
     = lit "LLM response 2026-11-02.md"
  /\ createNoteFromContent quietHost (folderSettings (lit "Notes ")) emptyStore
                           (lit " Black/holes: a? ") (lit "# Black holes")
     = Some (file "Notes/Blackholes a.md")
  /\ noteFileName quietHost (lit " Black/holes: a? ") = lit "Blackholes a".
Proof.
  split; [reflexivity|]. split; [reflexivity|]. split; [reflexivity|].
  rewrite (proj1 (proj1 (proj2 (note_path_is_well_formed
                                  quietHost (folderSettings (lit "Notes "))
                                  (lit " Black/holes: a? ")))
                        ltac:(discriminate))).
  reflexivity.
Defined.

(** ** Splitting *)

Section SplitFacts.

Lemma startsWith_chars (s pat : jsstring) :
  startsWith s pat = true -> forall x, In x pat -> In x s.
Proof.
  revert s. induction pat as [|p pat IH]; intros s H x Hx; [contradiction|].
  destruct s as [|c s]; [discriminate|]. simpl in H.
  apply andb_true_iff in H as [Hc H]. apply N.eqb_eq in Hc. subst c.
  destruct Hx as [->|Hx]; [now left|]. right. now apply (IH s).
Qed.

(** A text without a character of the pattern does not include it. *)
Lemma includes_without (s pat : jsstring) (c : N) :
  In c pat -> ~ In c s -> includes s pat = false.
Proof.
  intros Hpat. induction s as [|x s IH]; intros Hs.
  - simpl. destruct pat; [contradiction|reflexivity].
  - cbn [includes].
    destruct (startsWith (x :: s) pat) eqn:E.
    + exfalso. apply Hs. now apply (startsWith_chars _ _ E).
    + cbn [orb]. apply IH. intros Hin. apply Hs. now right.
Qed.

Lemma includes_app_start (a pat b : jsstring) :
  includes (a ++ pat ++ b) pat = true.
Proof.
  induction a as [|x a IH].
  - cbn [app]. apply includes_start. apply startsWith_app.
  - change ((x :: a) ++ pat ++ b) with (x :: (a ++ pat ++ b)).
    cbn [includes]. rewrite IH. apply orb_true_r.
Qed.

(** Splitting at a single character. *)
Lemma split_char_none (c : N) (s cur : jsstring) :
  ~ In c s -> splitAux [c] 0 cur s = [rev cur ++ s].
Proof.
  revert cur. induction s as [|x s IH]; intros cur Hs.
  - simpl. now rewrite app_nil_r.
  - cbn [splitAux startsWith].
    destruct (N.eqb_spec c x) as [->|Hne].
    + exfalso. apply Hs. now left.
    + cbn [andb]. rewrite IH by (intros Hin; apply Hs; now right).
      cbn [rev]. now rewrite <- app_assoc.
Qed.

Lemma split_char_first (c : N) (a b cur : jsstring) :
  ~ In c a ->
  splitAux [c] 0 cur (a ++ c :: b) = (rev cur ++ a) :: splitAux [c] 0 [] b.
Proof.
  revert cur. induction a as [|x a IH]; intros cur Ha.
  - cbn [app splitAux startsWith]. rewrite N.eqb_refl. cbn [andb].
    rewrite app_nil_r. reflexivity.
  - change ((x :: a) ++ c :: b) with (x :: (a ++ c :: b)).
    cbn [splitAux startsWith].
    destruct (N.eqb_spec c x) as [->|Hne].
    + exfalso. apply Ha. now left.
    + cbn [andb]. rewrite IH by (intros Hin; apply Ha; now right).
      cbn [rev]. now rewrite <- app_assoc.
Qed.

Lemma split_char_head (c : N) (s cur : jsstring) :
  nth 0 (splitAux [c] 0 cur s) [] = rev cur ++ before c s.
Proof.
  revert cur. induction s as [|x s IH]; intros cur.
  - simpl. now rewrite app_nil_r.
  - cbn [splitAux startsWith before]. rewrite (N.eqb_sym c x).
    destruct (N.eqb x c); cbn [andb].
    + cbn [nth]. now rewrite app_nil_r.
    + rewrite IH. cbn [rev]. now rewrite <- app_assoc.
Qed.

(** Splitting at [" > "] a text whose only greater-than sign is the one
    of the separator. *)
Lemma split_arrow_none (s cur : jsstring) :
  ~ In 62%N s -> splitAux (lit " > ") 0 cur s = [rev cur ++ s].
Proof.
  revert cur. induction s as [|x s IH]; intros cur Hs.
  - simpl. now rewrite app_nil_r.
  - cbn [splitAux].
    destruct (startsWith (x :: s) (lit " > ")) eqn:E.
    + exfalso. apply Hs. apply (startsWith_chars _ _ E). vm_compute. tauto.
    + rewrite IH by (intros Hin; apply Hs; now right).
      cbn [rev]. now rewrite <- app_assoc.
Qed.

Lemma split_arrow_first (a b cur : jsstring) :
  ~ In 62%N a ->
  splitAux (lit " > ") 0 cur (a ++ lit " > " ++ b)
  = (rev cur ++ a) :: splitAux (lit " > ") 0 [] b.
Proof.
  revert cur. induction a as [|x a IH]; intros cur Ha.
  - cbn [app]. change (lit " > " ++ b) with (32%N :: 62%N :: 32%N :: b).
    cbn [splitAux]. change (startsWith (32%N :: 62%N :: 32%N :: b) (lit " > "))
      with true. cbn iota.
    change (List.length (lit " > ") - 1)%nat with 2%nat.
    cbn [splitAux]. now rewrite app_nil_r.
  - change ((x :: a) ++ lit " > " ++ b) with (x :: (a ++ lit " > " ++ b)).
    cbn [splitAux].
    destruct (startsWith (x :: a ++ lit " > " ++ b) (lit " > ")) eqn:E.
    + exfalso.
      change (lit " > ") with [32%N; 62%N; 32%N] in E.
      cbn [startsWith] in E. apply andb_true_iff in E as [_ E].
      destruct a as [|y a].
      * cbn [app] in E. discriminate E.
      * cbn [app] in E. apply andb_true_iff in E as [E _].
        apply N.eqb_eq in E. subst y. apply Ha. right. now left.
    + rewrite IH by (intros Hin; apply Ha; now right).
      cbn [rev]. now rewrite <- app_assoc.
Qed.

End SplitFacts.

(** ** More on links *)

Section PlainText.

Variable h : Host.




End PlainText.



Section References.

Variable h : Host.

Lemma plainRefChar_without (c : N) (s : jsstring) :
  plainRefChar c = false -> forallb plainRefChar s = true -> ~ In c s.
Proof.
  intros Hc Hs Hin.
  pose proof (proj1 (forallb_forall _ _) Hs c Hin). congruence.
Qed.

Lemma removeBrackets_plain (s : jsstring) :
  forallb plainRefChar s = true -> removeBrackets s = s.
Proof.
  unfold removeBrackets. induction s as [|c s IH]; intros Hs; [reflexivity|].
  cbn [forallb] in Hs. apply andb_true_iff in Hs as [Hc Hs].
  cbn [filter]. rewrite (IH Hs).
  unfold plainRefChar in Hc. apply negb_true_iff in Hc.
  apply orb_false_iff in Hc as [Hc _]. apply orb_false_iff in Hc as [Hc _].
  now rewrite Hc.
Qed.

Lemma trimmed_ends (s : jsstring) :
  s <> [] -> trim s = s ->
  (exists c t, s = c :: t /\ isWhiteSpace c = false)
  /\ (exists d u, rev s = d :: u /\ isWhiteSpace d = false).
Proof.
  intros Hne Ht. destruct (trim_ends s) as [Hh Hl]. rewrite Ht in Hh, Hl.
  split.
  - destruct s as [|c t]; [contradiction|]. now exists c, t.
  - destruct (rev s) as [|d u] eqn:E.
    + apply (f_equal (@rev N)) in E. rewrite rev_involutive in E.
      now subst s.
    + now exists d, u.
Qed.

(** Two plain parts joined by a separator are not changed by trimming. *)
Lemma joined_is_trimmed (a sep b : jsstring) :
  plainRefPart a -> plainRefPart b -> trim (a ++ sep ++ b) = a ++ sep ++ b.
Proof.
  intros [Ha [_ Hta]] [Hb [_ Htb]].
  destruct (trimmed_ends a Ha Hta) as [[c [t [-> Hc]]] _].
  destruct (trimmed_ends b Hb Htb) as [_ [d [u [Hrev Hd]]]].
  apply trim_fixed; [exact Hc|].
  rewrite !rev_app_distr, Hrev. exact Hd.
Qed.

Lemma joined_is_clean (a sep b : jsstring) :
  plainRefPart a -> plainRefPart b -> removeBrackets sep = sep ->
  trim (removeBrackets (a ++ sep ++ b)) = a ++ sep ++ b.
Proof.
  intros Ha Hb Hsep. unfold removeBrackets in *. rewrite !filter_app.
  fold (removeBrackets a). fold (removeBrackets b).
  rewrite Hsep, (removeBrackets_plain a), (removeBrackets_plain b)
    by (apply Ha || apply Hb).
  now apply joined_is_trimmed.
Qed.

Lemma plain_is_clean (a : jsstring) :
  plainRefPart a -> trim (removeBrackets a) = a.
Proof.
  intros [_ [Ha Ht]]. now rewrite removeBrackets_plain.
Qed.

End References.

(** [X17] What [processLinks] makes of a link target.  For a path and a
    section that hold no bracket, comma, hash or greater-than sign, are
    not empty and have no white space at their ends: [path#section] opens
    [path] at [#section]; [path > section] opens [path] at the heading
    slug of the section, that is its lower case with every run of white
    space turned into one dash; a bare [path] opens the file with no
    fragment. *)
Theorem resolveHref_splits_path_and_section :
  forall (h : Host) (path section : jsstring),
    plainRefPart path -> plainRefPart section ->
    resolveHref h (path ++ lit "#" ++ section)
      = {| filePath := path; fragment := lit "#" ++ section |}
    /\ resolveHref h (path ++ lit " > " ++ section)
      = {| filePath := path;
           fragment := lit "#" ++ dashRuns false (toLowerCase h section) |}
    /\ resolveHref h path = {| filePath := path; fragment := lit "" |}.
Proof.
  intros h path section Hp Hs.
  pose proof Hp as [_ [Hpc Hpt]]. pose proof Hs as [_ [Hsc Hst]].
  assert (Hp62 : ~ In 62%N path) by (now apply plainRefChar_without).
  assert (Hs62 : ~ In 62%N section) by (now apply plainRefChar_without).
  assert (Hp35 : ~ In 35%N path) by (now apply plainRefChar_without).
  assert (Hs35 : ~ In 35%N section) by (now apply plainRefChar_without).
  split; [|split].
  - unfold resolveHref.
    rewrite (joined_is_clean path (lit "#") section Hp Hs eq_refl).
    rewrite (includes_without _ (lit " > ") 62%N).
    2: { vm_compute. tauto. }
    2: { intros Hin. apply in_app_or in Hin as [Hin|Hin]; [tauto|].
         apply in_app_or in Hin as [Hin|Hin]; [|tauto].
         destruct Hin as [Hin|[]]. discriminate Hin. }
    rewrite includes_app_start.
    unfold splitLimit, split.
    change (lit "#" ++ section) with (35%N :: section).
    change (lit "#") with [35%N].
    rewrite (split_char_first 35%N path section [] Hp35).
    rewrite (split_char_none 35%N section [] Hs35).
    cbn [rev app firstn nth List.length Nat.ltb Nat.leb].
    now rewrite Hpt, Hst.
  - unfold resolveHref.
    rewrite (joined_is_clean path (lit " > ") section Hp Hs eq_refl).
    rewrite includes_app_start.
    unfold splitLimit, split.
    rewrite (split_arrow_first path section [] Hp62).
    rewrite (split_arrow_none section [] Hs62).
    cbn [rev app firstn nth List.length Nat.ltb Nat.leb].
    now rewrite Hpt, Hst.
  - unfold resolveHref. rewrite (plain_is_clean path Hp).
    rewrite (includes_without path (lit " > ") 62%N),
            (includes_without path (lit "#") 35%N); trivial;
      vm_compute; tauto.
Qed.

Lemma resolveHref_splits_path_and_section_witness :
  resolveHref quietHost (lit "Notes/Trip > Day One")
  = {| filePath := lit "Notes/Trip";
       fragment := lit "#" ++ dashRuns false
                                (toLowerCase quietHost (lit "Day One")) |}.
Proof.
  refine (proj1 (proj2 (resolveHref_splits_path_and_section
                   quietHost (lit "Notes/Trip") (lit "Day One") _ _)));
    (split; [intros H; discriminate H | split; reflexivity]).
Defined.

(** ** The error panel *)

Section ErrorPanel.

Variable h : Host.


(** [response.split(":", 2)] of a text whose first colon ends [head]. *)
Lemma errorParts_first_colon (head rest : jsstring) :
  ~ In 58%N head ->
  errorParts (head ++ lit ":" ++ rest)
  = Some (head ++ lit ":", trim (before 58 rest)).
Proof.
  intros Hhead. unfold errorParts. rewrite includes_app_start.
  unfold splitLimit, split.
  change (lit ":" ++ rest) with (58%N :: rest). change (lit ":") with [58%N].
  rewrite (split_char_first 58%N head rest [] Hhead).
  cbn [rev app firstn nth].
  pose proof (split_char_head 58%N rest []) as Hrest. cbn [rev app] in Hrest.
  destruct (splitAux [58%N] 0 [] rest) as [|x l].
  - cbn [firstn nth] in *. now rewrite <- Hrest.
  - cbn [firstn nth] in *. now rewrite Hrest.
Qed.

Lemma panelTitle_prefix (prov : Provider) :
  exists stem, ~ In 58%N stem
    /\ panelTitle prov = stem ++ lit ":"
    /\ errorPrefix prov = stem ++ lit ":" ++ lit " ".
Proof.
  destruct prov;
    [exists (lit "Error querying OpenAI")
    |exists (lit "Error querying Gemini")
    |exists (lit "Error querying LM Studio")];
    (split; [vm_compute; intuition discriminate | split; reflexivity]).
Qed.

Lemma trim_after_space (s : jsstring) : trim (32%N :: s) = trim s.
Proof. reflexivity. Qed.

(** The panel for a text made of an adapter's prefix and [rest]. *)
Lemma errorParts_of_prefixed (prov : Provider) (rest : jsstring) :
  errorParts (errorPrefix prov ++ rest)
  = Some (panelTitle prov, trim (before 58 rest)).
Proof.
  destruct (panelTitle_prefix prov) as [stem [Hstem [-> ->]]].
  rewrite <- !app_assoc. rewrite (errorParts_first_colon _ _ Hstem).
  change (lit " " ++ rest) with (32%N :: rest).
  cbn [before]. change (N.eqb 32 58) with false. cbn iota.
  now rewrite trim_after_space.
Qed.

End ErrorPanel.



(** [X19] When the server explains a failure, the error text of
    [queryGPT] and of [queryGemini] is the prefix of the adapter,
    ["Server message: "] and the explanation, and the error panel shows
    the title of the adapter and the words ["Server message"] as the
    details: the explanation itself lies behind the second colon and is
    not displayed. *)
Theorem error_panel_hides_the_server_message :
  forall (h : Host) (prov : Provider) (e : JsError) (m : jsstring),
    prov <> LMStudio ->
    serverMessage h e = Some m ->
    adapterErrorText prov h e
      = errorPrefix prov ++ lit "Server message: " ++ m
    /\ errorParts (adapterErrorText prov h e)
       = Some (panelTitle prov, lit "Server message").
Proof.
  intros h prov e m Hprov Hm.
  assert (Htext : adapterErrorText prov h e
                  = errorPrefix prov ++ lit "Server message: " ++ m).
  { destruct prov; [| |contradiction]; cbn [adapterErrorText errorPrefix];
      [unfold gptErrorMessage|unfold geminiErrorMessage]; now rewrite Hm. }
  split; [exact Htext|].
  rewrite Htext, errorParts_of_prefixed. reflexivity.
Qed.

Lemma error_panel_hides_the_server_message_witness :
  adapterErrorText OpenAI explainingHost (explainedError 401)
    = lit "Error querying OpenAI: Server message: Incorrect API key provided"
  /\ errorParts (adapterErrorText OpenAI explainingHost (explainedError 401))
     = Some (lit "Error querying OpenAI:", lit "Server message").
Proof.
  refine (error_panel_hides_the_server_message explainingHost OpenAI
            (explainedError 401)
            (lit "Incorrect API key provided") _ _).
  - intros H; discriminate H.
  - reflexivity.
Defined.

(** ** Keys *)

Section KeyStorage.

Local Open Scope N_scope.

Variable h : Host.

Lemma latin1_decide (s : jsstring) :
  latin1 s <-> forallb (fun c => c <=? 255) s = true.
Proof.
  split; [|apply latin1_checked].
  intros H. apply forallb_forall. intros c Hc. apply N.leb_le.
  exact (proj1 (Forall_forall _ _) H c Hc).
Qed.

(** A key within Latin-1 is encrypted, decrypts to itself, and its
    encrypted form is empty only when the key is. *)
Lemma stored_key_decrypts (key : jsstring) :
  latin1 key ->
  exists encrypted,
    encryptApiKey h key = Normal encrypted
    /\ decryptApiKey h encrypted = key
    /\ truthy encrypted = truthy key.
Proof.
  intros Hkey.
  destruct key as [|c key]; [exists []; repeat split|].
  destruct (getDeviceId_usable h) as [Hne Hdev].
  destruct (xorWithDevice_twice h (getDeviceId h) Hne Hdev (c :: key) 0%nat Hkey)
    as [mixed [Hmixed [Hlatin [Hlen Hback]]]].
  destruct (atob_btoa mixed Hlatin) as [Hbtoa Hatob].
  assert (Hmixed_ne : mixed <> []).
  { destruct mixed; [discriminate Hlen|discriminate]. }
  exists (Base64.encodeBytes mixed).
  destruct (Base64.encodeBytes mixed) as [|e encoded] eqn:Henc;
    [now apply encodeBytes_not_empty in Henc|].
  split; [|split; [|reflexivity]].
  - unfold encryptApiKey. cbn [truthy negb]. rewrite Hmixed. cbn [bind].
    now rewrite Hbtoa.
  - unfold decryptApiKey. cbn [truthy negb]. rewrite Hatob. cbn [bind].
    now rewrite Hback.
Qed.

Lemma xor_back (c d : N) : d <= 255 -> N.lxor c d <= 255 -> c <= 255.
Proof.
  intros Hd Hx. rewrite <- (xor_twice c d). now apply xor_latin1.
Qed.

Lemma xor_code_unit (c d : N) : c < 65536 -> d <= 255 -> N.lxor c d < 65536.
Proof.
  intros Hc Hd.
  destruct (N.eq_dec (N.lxor c d) 0) as [->|Hnz]; [lia|].
  assert (Hlog : N.log2 (N.lxor c d) < 16).
  { eapply N.le_lt_trans; [apply N.log2_lxor|].
    apply N.max_lub_lt.
    - destruct (N.eq_dec c 0) as [->|]; [reflexivity|].
      apply N.log2_lt_pow2; [lia|exact Hc].
    - destruct (N.eq_dec d 0) as [->|]; [reflexivity|].
      apply N.log2_lt_pow2; [lia|]. change (2 ^ 16) with 65536. lia. }
  apply N.log2_lt_pow2 in Hlog; [|lia]. exact Hlog.
Qed.

(** Combining with the device id keeps a character within Latin-1 or
    outside of it. *)
Lemma xorWithDevice_keeps_latin1 (deviceId : jsstring) :
  deviceId <> [] -> latin1 deviceId ->
  forall (s : jsstring) (index : nat),
    codeUnits s ->
    exists mixed,
      xorWithDevice h deviceId index s = Normal mixed
      /\ (latin1 mixed <-> latin1 s).
Proof.
  intros Hne Hdev s. induction s as [|char s IH]; intros index Hs.
  - exists []. split; [reflexivity|tauto].
  - inversion Hs as [|? ? Hchar Hs']; subst.
    destruct (IH (S index) Hs') as [rest [Hrest Hiff]].
    assert (Hidx : (index mod List.length deviceId < List.length deviceId)%nat).
    { apply Nat.mod_upper_bound. destruct deviceId; [contradiction|discriminate]. }
    destruct (nth_error deviceId (index mod List.length deviceId)) as [d|] eqn:Hd;
      [|apply nth_error_None in Hd; lia].
    assert (Hdle : d <= 255).
    { apply nth_error_In in Hd. exact (proj1 (Forall_forall _ _) Hdev d Hd). }
    pose proof (xor_code_unit char d Hchar Hdle) as Hx.
    exists (N.lxor char d :: rest).
    cbn [xorWithDevice]. rewrite Hd, Hrest. cbn [bind].
    rewrite (N.mod_small (N.lxor char d)) by exact Hx.
    split; [reflexivity|]. unfold latin1 in *. split; intros H.
    + inversion H as [|? ? Hc Hr]; subst. constructor.
      * now apply (xor_back char d).
      * now apply Hiff.
    + inversion H as [|? ? Hc Hr]; subst. constructor.
      * now apply xor_latin1.
      * now apply Hiff.
Qed.

Lemma encryptApiKey_rejects (key : jsstring) :
  codeUnits key -> ~ latin1 key ->
  encryptApiKey h key = Abrupt (invalidCharacterError h).
Proof.
  intros Hunits Hkey.
  destruct (getDeviceId_usable h) as [Hne Hdev].
  destruct (xorWithDevice_keeps_latin1 (getDeviceId h) Hne Hdev key 0%nat Hunits)
    as [mixed [Hmixed Hiff]].
  unfold encryptApiKey.
  destruct key as [|c key]; [exfalso; apply Hkey; constructor|].
  cbn [truthy negb]. rewrite Hmixed. cbn [bind]. unfold Base64.btoa.
  destruct (forallb (fun c0 => c0 <=? 255) mixed) eqn:E; [|reflexivity].
  exfalso. apply Hkey. apply Hiff. now apply latin1_checked.
Qed.

End KeyStorage.

(** [X20] [encryptApiKey] throws the error of [btoa] exactly when the key
    has a character above 255. *)
Theorem encryptApiKey_throws_outside_latin1 :
  forall (h : Host) (key : jsstring),
    codeUnits key ->
    (encryptApiKey h key = Abrupt (invalidCharacterError h) <-> ~ latin1 key).
Proof.
  intros h key Hunits. split.
  - intros Hthrown Hkey.
    destruct (stored_key_decrypts h key Hkey) as [encrypted [Henc _]].
    rewrite Henc in Hthrown. discriminate Hthrown.
  - now apply encryptApiKey_rejects.
Qed.

Lemma encryptApiKey_throws_outside_latin1_witness :
  encryptApiKey quietHost euroKey = Abrupt (invalidCharacterError quietHost).
Proof.
  apply (proj2 (encryptApiKey_throws_outside_latin1 quietHost euroKey
                  ltac:(repeat constructor))).
  intros H. apply latin1_decide in H. discriminate H.
Defined.

Section StoredKeys.

Import Persistence.

Variable h : Host.

Lemma assignKey_keeps_old_properties (provider key : jsstring) (st st' : State)
      (r : option JsError) :
  assignKey h provider key st = (st', r) ->
  apiKey (settings st') = apiKey (settings st)
  /\ encryptedApiKey (settings st') = encryptedApiKey (settings st)
  /\ data st' = data st.
Proof.
  unfold assignKey. intros H.
  destruct (Js.eqb provider (lit "gpt")).
  - destruct (encryptApiKey h key); inversion H; subst; now repeat split.
  - destruct (Js.eqb provider (lit "gemini")).
    + destruct (encryptApiKey h key); inversion H; subst; now repeat split.
    + inversion H; subst; now repeat split.
Qed.

Lemma loadEncryptedKeys_settings (st : State) :
  settings (loadEncryptedKeys h st) = settings st
  /\ data (loadEncryptedKeys h st) = data st.
Proof.
  unfold loadEncryptedKeys.
  destruct (truthy (encryptedOpenAIApiKey (typed (settings st))));
    cbn [settings setOpenAIApiKey];
    destruct (truthy (encryptedGeminiApiKey (typed (settings st))));
    now split.
Qed.

Lemma migrateEncryptedApiKey_keeps_apiKey (st st' : State) (r : option JsError) :
  migrateEncryptedApiKey h st = (st', r) ->
  apiKey (settings st') = apiKey (settings st).
Proof.
  unfold migrateEncryptedApiKey. intros H.
  destruct (encryptedApiKey (settings st)) as [legacy|];
    [|now inversion H].
  destruct (truthy legacy); [|now inversion H].
  destruct (truthy (decryptApiKey h legacy)); [|now inversion H].
  destruct (assignKey h (modelProvider (typed (settings st)))
                      (decryptApiKey h legacy) st) as [st1 [e|]] eqn:E;
    cbn [andThen] in H; inversion H; subst;
    destruct (assignKey_keeps_old_properties _ _ _ _ _ E) as [Hk _];
    exact Hk.
Qed.

Lemma loadEncryptedKeys_keys (o : SettingsObject) (st : State) :
  openAIApiKey (loadEncryptedKeys h (setSettings o st))
  = (if truthy (encryptedOpenAIApiKey (typed o))
     then decryptApiKey h (encryptedOpenAIApiKey (typed o))
     else openAIApiKey st)
  /\ geminiApiKey (loadEncryptedKeys h (setSettings o st))
    = (if truthy (encryptedGeminiApiKey (typed o))
       then decryptApiKey h (encryptedGeminiApiKey (typed o))
       else geminiApiKey st).
Proof.
  unfold loadEncryptedKeys.
  cbn [settings setSettings setOpenAIApiKey].
  destruct (truthy (encryptedOpenAIApiKey (typed o)));
    cbn [settings setSettings setOpenAIApiKey];
    destruct (truthy (encryptedGeminiApiKey (typed o))); now split.
Qed.

(** Without the properties of older versions nothing is migrated. *)
Lemma nothing_to_migrate (st : State) :
  encryptedApiKey (settings st) = None -> apiKey (settings st) = None ->
  andThen (migrateEncryptedApiKey h st) (migrateApiKey h) = (st, None).
Proof.
  intros He Ha. unfold migrateEncryptedApiKey. rewrite He. cbn [andThen].
  unfold migrateApiKey. now rewrite Ha.
Qed.

End StoredKeys.

(** [X21] A key within Latin-1 that [setApiKey] has stored is the key of
    the plugin after a restart, for either provider: [loadSettings], given
    the saved data by a plugin just constructed on the same device,
    decrypts it to the key that was set.  The settings are those of the
    current version, without the properties of older ones. *)
Theorem saved_key_survives_a_restart :
  forall (h : Host) (key : jsstring) (st : Persistence.State),
    latin1 key ->
    Persistence.encryptedApiKey (Persistence.settings st) = None ->
    Persistence.apiKey (Persistence.settings st) = None ->
    (exists st' stored,
        Persistence.setApiKey h key (lit "gpt") st = (st', None)
        /\ Persistence.openAIApiKey st' = key
        /\ Persistence.data st' = Some stored
        /\ forall o, exists st'',
             Persistence.loadSettings h stored (Persistence.constructed o)
             = (st'', None)
             /\ Persistence.openAIApiKey st'' = key
             /\ Persistence.settings st'' = stored)
    /\ (exists st' stored,
        Persistence.setApiKey h key (lit "gemini") st = (st', None)
        /\ Persistence.geminiApiKey st' = key
        /\ Persistence.data st' = Some stored
        /\ forall o, exists st'',
             Persistence.loadSettings h stored (Persistence.constructed o)
             = (st'', None)
             /\ Persistence.geminiApiKey st'' = key
             /\ Persistence.settings st'' = stored).
Proof.
  intros h key st Hkey Hold Hplain.
  destruct (stored_key_decrypts h key Hkey) as [encrypted [Henc [Hdec Htruthy]]].
  destruct st as [[s legacy plain] openAI gemini saved].
  cbn [Persistence.settings Persistence.encryptedApiKey Persistence.apiKey]
    in Hold, Hplain. subst legacy plain.
  split.
  - eexists. eexists.
    split; [unfold Persistence.setApiKey, Persistence.assignKey;
            change (Js.eqb (lit "gpt") (lit "gpt")) with true; cbn iota;
            rewrite Henc; reflexivity|].
    split; [reflexivity|]. split; [reflexivity|].
    intros o. eexists. unfold Persistence.loadSettings.
    rewrite nothing_to_migrate;
      [|now rewrite (proj1 (loadEncryptedKeys_settings h _))..].
    split; [reflexivity|]. split.
    + rewrite (proj1 (loadEncryptedKeys_keys h _ _)).
      cbn [Persistence.typed Persistence.settings Persistence.setTyped
           Persistence.setSettings Persistence.setOpenAIApiKey
           withEncryptedOpenAIApiKey encryptedOpenAIApiKey].
      rewrite Htruthy, Hdec. now destruct key.
    + now rewrite (proj1 (loadEncryptedKeys_settings h _)).
  - eexists. eexists.
    split; [unfold Persistence.setApiKey, Persistence.assignKey;
            change (Js.eqb (lit "gemini") (lit "gpt")) with false;
            change (Js.eqb (lit "gemini") (lit "gemini")) with true; cbn iota;
            rewrite Henc; reflexivity|].
    split; [reflexivity|]. split; [reflexivity|].
    intros o. eexists. unfold Persistence.loadSettings.
    rewrite nothing_to_migrate;
      [|now rewrite (proj1 (loadEncryptedKeys_settings h _))..].
    split; [reflexivity|]. split.
    + rewrite (proj2 (loadEncryptedKeys_keys h _ _)).
      cbn [Persistence.typed Persistence.settings Persistence.setTyped
           Persistence.setSettings Persistence.setGeminiApiKey
           withEncryptedGeminiApiKey encryptedGeminiApiKey].
      rewrite Htruthy, Hdec. now destruct key.
    + now rewrite (proj1 (loadEncryptedKeys_settings h _)).
Qed.

Lemma saved_key_survives_a_restart_witness :
  exists st' stored,
    Persistence.setApiKey quietHost (lit "sk-test-1234") (lit "gpt")
                          constructedPlugin = (st', None)
    /\ Persistence.openAIApiKey st' = lit "sk-test-1234"
    /\ Persistence.data st' = Some stored
    /\ forall o, exists st'',
         Persistence.loadSettings quietHost stored (Persistence.constructed o)
         = (st'', None)
         /\ Persistence.openAIApiKey st'' = lit "sk-test-1234"
         /\ Persistence.settings st'' = stored.
Proof.
  refine (proj1 (saved_key_survives_a_restart quietHost (lit "sk-test-1234")
                   constructedPlugin _ eq_refl eq_refl)).
  apply latin1_checked. reflexivity.
Defined.

(** [X22] [setApiKey] with a key that has a character above 255 throws
    the error of [btoa] after the key of the running plugin has been
    replaced: the new key is in memory, while the settings and the saved
    data hold what they held before. *)
Theorem unstorable_key_stays_in_memory :
  forall (h : Host) (key : jsstring) (st : Persistence.State),
    codeUnits key -> ~ latin1 key ->
    Persistence.setApiKey h key (lit "gpt") st
      = (Persistence.setOpenAIApiKey key st, Some (invalidCharacterError h))
    /\ Persistence.setApiKey h key (lit "gemini") st
      = (Persistence.setGeminiApiKey key st, Some (invalidCharacterError h))
    /\ Persistence.settings (Persistence.setOpenAIApiKey key st)
       = Persistence.settings st
    /\ Persistence.data (Persistence.setGeminiApiKey key st)
       = Persistence.data st.
Proof.
  intros h key st Hunits Hkey.
  pose proof (encryptApiKey_rejects h key Hunits Hkey) as Henc.
  unfold Persistence.setApiKey, Persistence.assignKey.
  change (Js.eqb (lit "gpt") (lit "gpt")) with true.
  change (Js.eqb (lit "gemini") (lit "gpt")) with false.
  change (Js.eqb (lit "gemini") (lit "gemini")) with true.
  cbn iota. rewrite Henc. now repeat split.
Qed.

Lemma unstorable_key_stays_in_memory_witness :
  Persistence.setApiKey quietHost euroKey (lit "gpt") constructedPlugin
  = (Persistence.setOpenAIApiKey euroKey constructedPlugin,
     Some (invalidCharacterError quietHost)).
Proof.
  refine (proj1 (unstorable_key_stays_in_memory quietHost euroKey
                   constructedPlugin ltac:(repeat constructor) _)).
  intros H. apply latin1_decide in H. discriminate H.
Defined.

(** [X23] When [loadSettings] completes, the settings object holds no key
    in plain text; if the loaded data had one, the data have been saved
    again without it. *)
Theorem loadSettings_removes_the_plaintext_key :
  forall (h : Host) (merged : Persistence.SettingsObject)
         (st st' : Persistence.State),
    Persistence.loadSettings h merged st = (st', None) ->
    match Persistence.apiKey (Persistence.settings st') with
    | Some plain => truthy plain = false
    | None => True
    end
    /\ (forall plain,
          Persistence.apiKey merged = Some plain -> truthy plain = true ->
          Persistence.apiKey (Persistence.settings st') = None
          /\ Persistence.data st' = Some (Persistence.settings st')).
Proof.
  intros h merged st st' Hload. unfold Persistence.loadSettings in Hload.
  set (st1 := Persistence.loadEncryptedKeys h
                (Persistence.setSettings merged st)) in Hload.
  assert (H1 : Persistence.apiKey (Persistence.settings st1)
               = Persistence.apiKey merged).
  { unfold st1. now rewrite (proj1 (loadEncryptedKeys_settings h _)). }
  destruct (Persistence.migrateEncryptedApiKey h st1) as [st2 [e|]] eqn:E1;
    [discriminate Hload|].
  apply migrateEncryptedApiKey_keeps_apiKey in E1.
  cbn [Persistence.andThen] in Hload.
  unfold Persistence.migrateApiKey in Hload.
  rewrite E1, H1 in Hload.
  destruct (Persistence.apiKey merged) as [plain|] eqn:Hplain.
  - destruct (truthy plain) eqn:Htruthy.
    + match type of Hload with
      | Persistence.andThen ?c _ = _ => destruct c as [st3 [e|]]
      end; [discriminate Hload|].
      cbn [Persistence.andThen] in Hload. inversion Hload; subst st'.
      split; [exact I|]. intros plain' _ _. now split.
    + inversion Hload; subst st'. rewrite E1, H1. split; [exact Htruthy|].
      intros plain' Heq Ht. inversion Heq; subst. congruence.
  - inversion Hload; subst st'. rewrite E1, H1. split; [exact I|].
    intros plain' Heq. discriminate Heq.
Qed.

Lemma loadSettings_removes_the_plaintext_key_witness :
  Persistence.apiKey
    (Persistence.settings
       (fst (Persistence.loadSettings quietHost
               (Persistence.plainTextFormat (settingsOf "gpt") (lit "sk-old"))
               constructedPlugin))) = None.
Proof.
  refine (proj1 (proj2 (loadSettings_removes_the_plaintext_key quietHost
            (Persistence.plainTextFormat (settingsOf "gpt") (lit "sk-old"))
            constructedPlugin _ _) (lit "sk-old") eq_refl eq_refl)).
  vm_compute. reflexivity.
Defined.

Ltac persist :=
  cbn [Persistence.settings Persistence.openAIApiKey Persistence.geminiApiKey
       Persistence.data Persistence.typed Persistence.encryptedApiKey
       Persistence.apiKey Persistence.setSettings Persistence.setTyped
       Persistence.setOpenAIApiKey Persistence.setGeminiApiKey
       Persistence.plainTextFormat Persistence.currentFormat
       Persistence.constructed Persistence.andThen].

(** [X24] A key that an older version stored in plain text becomes the
    OpenAI key when the provider is [gpt]: when no encrypted key is stored
    and the key is not empty and within Latin-1, [loadSettings] on a
    plugin just constructed makes it the key in memory, stores its
    encrypted form, from which [decryptApiKey] gives it back, and saves
    the settings without the plain text. *)
Theorem plaintext_key_is_migrated :
  forall (h : Host) (s : VaultLLMAssistantSettings) (plain : jsstring)
         (o : Persistence.SettingsObject),
    latin1 plain -> plain <> lit "" ->
    encryptedOpenAIApiKey s = lit "" -> encryptedGeminiApiKey s = lit "" ->
    modelProvider s = lit "gpt" ->
    exists st',
      Persistence.loadSettings h (Persistence.plainTextFormat s plain)
                               (Persistence.constructed o) = (st', None)
      /\ Persistence.openAIApiKey st' = plain
      /\ decryptApiKey h
           (encryptedOpenAIApiKey
              (Persistence.typed (Persistence.settings st'))) = plain
      /\ Persistence.apiKey (Persistence.settings st') = None
      /\ Persistence.data st' = Some (Persistence.settings st').
Proof.
  intros h s plain o Hlatin Hne Hopen Hgem Hprov.
  destruct (stored_key_decrypts h plain Hlatin) as [encrypted [Henc [Hdec _]]].
  assert (Htruthy : truthy plain = true) by (now destruct plain).
  eexists. split.
  - unfold Persistence.loadSettings, Persistence.loadEncryptedKeys.
    persist. rewrite Hopen. change (truthy (lit "")) with false. cbn iota.
    persist. rewrite Hgem. change (truthy (lit "")) with false. cbn iota.
    unfold Persistence.migrateEncryptedApiKey. persist.
    unfold Persistence.migrateApiKey. persist.
    rewrite Htruthy. change (truthy (lit "")) with false. cbn [negb andb].
    cbn iota. unfold Persistence.assignKey. persist. rewrite Hprov.
    change (Js.eqb (lit "gpt") (lit "gpt")) with true. cbn iota.
    rewrite Henc. persist. reflexivity.
  - split; [reflexivity|]. split; [exact Hdec|]. now split.
Qed.

Lemma plaintext_key_is_migrated_witness :
  exists st',
    Persistence.loadSettings quietHost
      (Persistence.plainTextFormat (settingsOf "gpt") (lit "sk-old"))
      (Persistence.constructed (Persistence.currentFormat DEFAULT_SETTINGS))
    = (st', None)
    /\ Persistence.openAIApiKey st' = lit "sk-old"
    /\ decryptApiKey quietHost
         (encryptedOpenAIApiKey
            (Persistence.typed (Persistence.settings st'))) = lit "sk-old"
    /\ Persistence.apiKey (Persistence.settings st') = None
    /\ Persistence.data st' = Some (Persistence.settings st').
Proof.
  refine (plaintext_key_is_migrated quietHost (settingsOf "gpt") (lit "sk-old")
            (Persistence.currentFormat DEFAULT_SETTINGS)
            _ _ eq_refl eq_refl eq_refl).
  - apply latin1_checked. reflexivity.
  - intros H. discriminate H.
Defined.

(** ** The device id *)

Section DeviceId.

Variable h : Host.

Lemma toInt32_range (z : Z) :
  (- 2147483648 <= toInt32 z < 2147483648)%Z.
Proof.
  unfold toInt32.
  pose proof (Z.mod_pos_bound (z + 2147483648) 4294967296 eq_refl). lia.
Qed.

Lemma hash_range (seed : jsstring) :
  forall init : Z,
    (- 2147483648 <= init < 2147483648)%Z ->
    (- 2147483648
     <= fold_left (fun hash char =>
                     toInt32 (shiftLeft5 hash - hash + Z.of_N char)%Z)
                  seed init
     < 2147483648)%Z.
Proof.
  induction seed as [|c seed IH]; intros init Hinit; [exact Hinit|].
  cbn [fold_left]. apply IH. apply toInt32_range.
Qed.

Lemma hexDigit_hex (d : Z) : (0 <= d < 16)%Z -> isHexDigit (hexDigit d) = true.
Proof.
  intros Hd. unfold hexDigit.
  assert (Hn : (Z.to_nat d < 16)%nat) by lia.
  destruct (Z.to_nat d) as [|[|[|[|[|[|[|[|[|[|[|[|[|[|[|[|n]]]]]]]]]]]]]]]];
    try reflexivity.
  lia.
Qed.

Lemma hexDigits_hex (fuel : nat) :
  forall n : Z, (0 <= n)%Z -> forallb isHexDigit (hexDigits fuel n) = true.
Proof.
  induction fuel as [|fuel IH]; intros n Hn; [reflexivity|].
  cbn [hexDigits]. destruct (n <? 16)%Z eqn:Hsmall.
  - apply Z.ltb_lt in Hsmall. cbn [forallb].
    rewrite hexDigit_hex by lia. reflexivity.
  - rewrite forallb_app, IH by (apply Z.div_pos; lia).
    cbn [forallb]. rewrite hexDigit_hex; [reflexivity|].
    apply Z.mod_pos_bound. lia.
Qed.

Lemma hexDigits_length (fuel : nat) :
  forall (n : Z) (k : nat),
    (0 <= n < 16 ^ Z.of_nat k)%Z -> (1 <= k)%nat ->
    (List.length (hexDigits fuel n) <= k)%nat.
Proof.
  induction fuel as [|fuel IH]; intros n k Hn Hk; [cbn; lia|].
  cbn [hexDigits]. destruct (n <? 16)%Z eqn:Hsmall; [cbn; lia|].
  apply Z.ltb_ge in Hsmall.
  destruct k as [|k]; [lia|].
  rewrite Nat2Z.inj_succ, Z.pow_succ_r in Hn by lia.
  assert (Hk' : (1 <= k)%nat).
  { destruct k; [cbn in Hn; lia|lia]. }
  rewrite length_app. cbn [List.length].
  assert (Hdiv : (0 <= n / 16 < 16 ^ Z.of_nat k)%Z).
  { split; [apply Z.div_pos; lia|apply Z.div_lt_upper_bound; lia]. }
  pose proof (IH (n / 16)%Z k Hdiv Hk'). lia.
Qed.

Lemma padStart16_shape (digits : jsstring) :
  (List.length digits <= 8)%nat ->
  List.length (padStart16 digits) = 16%nat
  /\ firstn 8 (padStart16 digits) = lit "00000000".
Proof.
  intros Hlen. unfold padStart16. split.
  - rewrite length_app, repeat_length. lia.
  - replace (16 - List.length digits)%nat
      with (8 + (8 - List.length digits))%nat by lia.
    rewrite repeat_app, <- app_assoc.
    change (repeat 48%N 8) with (lit "00000000").
    rewrite firstn_app.
    change (firstn 8 (lit "00000000")) with (lit "00000000").
    change (8 - List.length (lit "00000000"))%nat with 0%nat.
    cbn [firstn]. apply app_nil_r.
Qed.

End DeviceId.

(** [X25] The device id has sixteen characters, all of them digits or
    letters from [a] to [f], and its first eight are zeros whatever the
    user agent and the name of the vault: the hash has 32 bits. *)
Theorem getDeviceId_shape :
  forall h : Host,
    List.length (getDeviceId h) = 16%nat
    /\ firstn 8 (getDeviceId h) = lit "00000000"
    /\ forallb isHexDigit (getDeviceId h) = true.
Proof.
  intros h. unfold getDeviceId.
  set (seed := orDefault (userAgent h) (lit "unknown") ++ _).
  pose proof (hash_range seed 0%Z ltac:(lia)) as Hrange.
  set (hash := fold_left _ seed 0%Z) in *.
  assert (Hdigits : (List.length (toString16 (Z.abs hash)) <= 8)%nat).
  { apply hexDigits_length; [|lia].
    change (16 ^ Z.of_nat 8)%Z with 4294967296%Z. lia. }
  destruct (padStart16_shape _ Hdigits) as [Hlen Hzeros].
  split; [exact Hlen|]. split; [exact Hzeros|].
  unfold padStart16. rewrite forallb_app. apply andb_true_iff. split.
  - apply forallb_forall. intros c Hc. apply repeat_spec in Hc. now subst c.
  - apply hexDigits_hex. lia.
Qed.

(** ** The settings tab *)

Section ProviderDropdown.

Lemma model_after_gpt (s : VaultLLMAssistantSettings) :
  model (onProviderChange (lit "gpt") s)
  = (if startsWith (model s) (lit "gpt") then model s else lit "gpt-4o-mini").
Proof.
  unfold onProviderChange.
  change (Js.eqb (lit "gpt") (lit "gpt")) with true. cbn iota.
  cbn [model withApiEndpoint withModelProvider].
  now destruct (startsWith (model s) (lit "gpt")).
Qed.

Lemma model_after_gemini (s : VaultLLMAssistantSettings) :
  model (onProviderChange (lit "gemini") s)
  = (if startsWith (model s) (lit "gemini")
     then model s else lit "gemini-3-pro-preview").
Proof.
  unfold onProviderChange.
  change (Js.eqb (lit "gemini") (lit "gpt")) with false.
  change (Js.eqb (lit "gemini") (lit "gemini")) with true. cbn iota.
  cbn [model withApiEndpoint withModelProvider].
  now destruct (startsWith (model s) (lit "gemini")).
Qed.

Lemma provider_after (value : jsstring) (s : VaultLLMAssistantSettings) :
  modelProvider (onProviderChange value s) = value
  /\ useLocalLLM (onProviderChange value s) = useLocalLLM s.
Proof.
  unfold onProviderChange.
  destruct (Js.eqb value (lit "gpt")).
  - cbn [model withApiEndpoint withModelProvider].
    now destruct (startsWith (model s) (lit "gpt")).
  - destruct (Js.eqb value (lit "gemini")).
    + cbn [model withApiEndpoint withModelProvider].
      now destruct (startsWith (model s) (lit "gemini")).
    + now split.
Qed.

(** The model of a catalog, after the dropdown has changed. *)
Lemma catalog_model_after (modelId : jsstring) :
  inCatalog (OPENAI_MODELS ++ GEMINI_MODELS) modelId = true ->
  inCatalog OPENAI_MODELS
    (if startsWith modelId (lit "gpt") then modelId else lit "gpt-4o-mini")
  = true
  /\ inCatalog GEMINI_MODELS
       (if startsWith modelId (lit "gemini")
        then modelId else lit "gemini-3-pro-preview")
     = true.
Proof.
  intros H. unfold inCatalog in H.
  apply existsb_exists in H as [m [Hin Hm]].
  apply jsstring_eqb_eq in Hm. subst modelId.
  repeat (destruct Hin as [<-|Hin]; [split; vm_compute; reflexivity|]).
  destruct Hin.
Qed.

End ProviderDropdown.

(** [X26] The provider dropdown of the settings tab.  After it has
    changed to [gpt] or to [gemini] the settings name that provider and,
    with the local server switched off, [dispatch] calls the adapter of
    that provider.  A model whose id begins with the name of the provider
    is kept, any other is replaced by [gpt-4o-mini] or by
    [gemini-3-pro-preview]; so that a model that was one of the two
    catalogs before is one of the catalog of the selected provider
    afterwards. *)
Theorem provider_change_keeps_a_catalog_model :
  forall s : VaultLLMAssistantSettings,
    (modelProvider (onProviderChange (lit "gpt") s) = lit "gpt"
     /\ modelProvider (onProviderChange (lit "gemini") s) = lit "gemini")
    /\ (useLocalLLM s = false ->
        selectedProvider (onProviderChange (lit "gpt") s) = Some OpenAI
        /\ selectedProvider (onProviderChange (lit "gemini") s) = Some Gemini)
    /\ model (onProviderChange (lit "gpt") s)
       = (if startsWith (model s) (lit "gpt")
          then model s else lit "gpt-4o-mini")
    /\ model (onProviderChange (lit "gemini") s)
       = (if startsWith (model s) (lit "gemini")
          then model s else lit "gemini-3-pro-preview")
    /\ (inCatalog (OPENAI_MODELS ++ GEMINI_MODELS) (model s) = true ->
        inCatalog OPENAI_MODELS (model (onProviderChange (lit "gpt") s)) = true
        /\ inCatalog GEMINI_MODELS
             (model (onProviderChange (lit "gemini") s)) = true).
Proof.
  intros s.
  split; [split; apply provider_after|].
  split.
  { intros Hlocal. unfold selectedProvider.
    destruct (provider_after (lit "gpt") s) as [-> ->].
    destruct (provider_after (lit "gemini") s) as [-> ->].
    rewrite Hlocal. now split. }
  split; [apply model_after_gpt|]. split; [apply model_after_gemini|].
  intros Hmodel.
  destruct (catalog_model_after (model s) Hmodel) as [Hgpt Hgemini].
  rewrite model_after_gpt, model_after_gemini. now split.
Qed.

Lemma provider_change_keeps_a_catalog_model_witness :
  selectedProvider (onProviderChange (lit "gpt") (settingsOf "gemini"))
  = Some OpenAI
  /\ model (onProviderChange (lit "gpt") (settingsOf "gemini"))
     = lit "gpt-4o-mini"
  /\ inCatalog OPENAI_MODELS
       (model (onProviderChange (lit "gpt") (settingsOf "gemini"))) = true.
Proof.
  pose proof (provider_change_keeps_a_catalog_model (settingsOf "gemini"))
    as [_ [Hadapter [Hgpt [_ Hcatalog]]]].
  split; [exact (proj1 (Hadapter eq_refl))|].
  split; [rewrite Hgpt; reflexivity|].
  exact (proj1 (Hcatalog eq_refl)).
Defined.

Section ExcludeFolders.

Lemma pushNew_spec (folders : list jsstring) (folder : jsstring) :
  (In folder folders /\ pushNew folders folder = folders)
  \/ (~ In folder folders /\ pushNew folders folder = folders ++ [folder]).
Proof.
  unfold pushNew. destruct (existsb (Js.eqb folder) folders) eqn:E.
  - left. split; [|reflexivity].
    apply existsb_exists in E as [x [Hx Heq]].
    apply jsstring_eqb_eq in Heq. now subst x.
  - right. split; [|reflexivity]. intros Hin.
    assert (Ht : existsb (Js.eqb folder) folders = true).
    { apply existsb_exists. exists folder. split; [exact Hin|].
      apply jsstring_eqb_refl. }
    congruence.
Qed.

Lemma NoDup_snoc {A} (l : list A) (x : A) :
  NoDup l -> ~ In x l -> NoDup (l ++ [x]).
Proof.
  induction l as [|y l IH]; intros Hl Hx.
  - constructor; [intros []|constructor].
  - inversion Hl as [|? ? Hy Hl']; subst. cbn [app]. constructor.
    + intros Hin. apply in_app_or in Hin as [Hin|[->|[]]]; [now apply Hy|].
      apply Hx. now left.
    + apply IH; [exact Hl'|]. intros Hin. apply Hx. now right.
Qed.

(** Pushing the folders that are not listed yet: the list grows at its
    end, by folders that were given; all the folders given are listed;
    no folder is listed twice if none was. *)
Lemma fold_pushNew (given : list jsstring) :
  forall folders : list jsstring,
    (exists added,
        fold_left pushNew given folders = folders ++ added
        /\ forall x, In x added -> In x given)
    /\ (forall x, In x given -> In x (fold_left pushNew given folders))
    /\ (NoDup folders -> NoDup (fold_left pushNew given folders)).
Proof.
  induction given as [|g given IH]; intros folders.
  - split; [exists []; split; [now rewrite app_nil_r|intros x []]|].
    split; [intros x []|trivial].
  - cbn [fold_left].
    destruct (IH (pushNew folders g)) as [[added [Heq Hadded]] [Hin Hnodup]].
    destruct (pushNew_spec folders g) as [[Hg Hp]|[Hg Hp]]; rewrite Hp in *.
    + split; [exists added; split; [exact Heq|intros x Hx; right; auto]|].
      split; [|exact Hnodup].
      intros x [<-|Hx]; [|now apply Hin].
      rewrite Heq. apply in_or_app. now left.
    + split.
      { exists (g :: added). split; [now rewrite Heq, <- app_assoc|].
        intros x [<-|Hx]; [now left|right; auto]. }
      split.
      { intros x [<-|Hx]; [|now apply Hin].
        rewrite Heq. apply in_or_app. left. apply in_or_app. right. now left. }
      intros Hf. apply Hnodup. now apply NoDup_snoc.
Qed.

(** A file under an exclude folder is not selected by a scan without a
    current file. *)
Lemma excluded_not_selected (s : VaultLLMAssistantSettings) (vault : Vault)
      (f : TFile) :
  excluded s f = true -> ~ In f (selectFiles s vault None).
Proof.
  unfold excluded. intros Hex Hin.
  assert (Hsel : selectFiles s vault None
                 = filter (fun file =>
                       negb (existsb (fun folder => startsWith (path file) folder)
                                     (excludeFolder s)))
                     (if truthy (includeFolder s)
                      then filter (fun file =>
                                     startsWith (path file) (includeFolder s))
                                  (getMarkdownFiles vault)
                      else getMarkdownFiles vault)).
  { unfold selectFiles.
    destruct (excludeFolder s) as [|e l]; [discriminate Hex|].
    now destruct (includeCurrentFileOnly s). }
  rewrite Hsel in Hin. apply filter_In in Hin as [_ Hkeep].
  rewrite Hex in Hkeep. discriminate Hkeep.
Qed.

End ExcludeFolders.

(** [X27] The Add button of the exclude folders.  The folders listed
    before stay where they are and the new ones follow them; every part of
    the input between commas, trimmed, is listed afterwards unless it is
    empty; no empty folder is added and no folder is listed twice if none
    was; and a note whose path begins with one of the folders typed is not
    selected by the next scan of the vault. *)
Theorem added_folders_are_excluded :
  forall (input : jsstring) (s : VaultLLMAssistantSettings),
    (exists added,
        excludeFolder (addExcludeFolders input s) = excludeFolder s ++ added
        /\ forall x, In x added -> x <> lit "" /\ trim x = x)
    /\ (NoDup (excludeFolder s) ->
        NoDup (excludeFolder (addExcludeFolders input s)))
    /\ (forall part,
          In part (split (lit ",") input) -> trim part <> lit "" ->
          In (trim part) (excludeFolder (addExcludeFolders input s))
          /\ forall (vault : Vault) (f : TFile),
               startsWith (path f) (trim part) = true ->
               ~ In f (selectFiles (addExcludeFolders input s) vault None)).
Proof.
  intros input s.
  set (given := filter truthy (map trim (split (lit ",") input))).
  assert (Hgiven : forall x, In x given -> x <> lit "" /\ trim x = x).
  { intros x Hx. unfold given in Hx. apply filter_In in Hx as [Hx Ht].
    apply in_map_iff in Hx as [part [<- _]].
    split; [intros E; rewrite E in Ht; discriminate Ht|apply trim_idempotent]. }
  destruct (fold_pushNew given (excludeFolder s))
    as [[added [Heq Hadded]] [Hin Hnodup]].
  destruct input as [|c input].
  - change (addExcludeFolders [] s) with s.
    split; [exists []; split; [now rewrite app_nil_r|intros x []]|].
    split; [trivial|].
    intros part [<-|[]] Hne. exfalso. now apply Hne.
  - assert (Hlist : excludeFolder (addExcludeFolders (c :: input) s)
                    = fold_left pushNew given (excludeFolder s)) by reflexivity.
    rewrite Hlist.
    split; [exists added; split; [exact Heq|intros x Hx; auto]|].
    split; [exact Hnodup|].
    intros part Hpart Hne.
    assert (Hlisted : In (trim part)
                         (fold_left pushNew given (excludeFolder s))).
    { apply Hin. unfold given. apply filter_In. split.
      - apply in_map. exact Hpart.
      - destruct (trim part); [now exfalso; apply Hne|reflexivity]. }
    split; [exact Hlisted|].
    intros vault f Hstarts. apply excluded_not_selected.
    unfold excluded. rewrite Hlist. apply existsb_exists.
    exists (trim part). now split.
Qed.

Lemma added_folders_are_excluded_witness :
  ~ In privateNote
       (selectFiles (addExcludeFolders (lit "drafts, private") DEFAULT_SETTINGS)
                    sampleVault None).
Proof.
  refine (proj2 (proj2 (proj2 (added_folders_are_excluded
                                 (lit "drafts, private") DEFAULT_SETTINGS))
                       (lit " private") _ _)
                sampleVault privateNote eq_refl).
  - right. left. reflexivity.
  - intros H. discriminate H.
Defined.

(** ** The arguments of the validator *)

Section ValidatorArguments.

Lemma parseArgsFrom_step (arg value : jsstring) (rest : list jsstring)
      (parsed : ParsedArgs) :
  parseArgsFrom (arg :: value :: rest) parsed
  = if Js.eqb arg (lit "--openai") && truthy value then
      parseArgsFrom rest {| openai := Some value; gemini := gemini parsed |}
    else if Js.eqb arg (lit "--gemini") && truthy value then
      parseArgsFrom rest {| openai := openai parsed; gemini := Some value |}
    else parseArgsFrom (value :: rest) parsed.
Proof. reflexivity. Qed.

(** The loop keeps to keys given after their flags: [pre] holds the
    arguments already passed. *)
Lemma parseArgsFrom_given (n : nat) :
  forall (args pre : list jsstring) (parsed : ParsedArgs),
    (List.length args <= n)%nat ->
    givenKey (lit "--openai") (openai parsed) (pre ++ args) ->
    givenKey (lit "--gemini") (gemini parsed) (pre ++ args) ->
    givenKey (lit "--openai") (openai (parseArgsFrom args parsed)) (pre ++ args)
    /\ givenKey (lit "--gemini") (gemini (parseArgsFrom args parsed))
                (pre ++ args).
Proof.
  induction n as [|n IH]; intros args pre parsed Hlen Ho Hg.
  - destruct args; [now split|cbn in Hlen; lia].
  - destruct args as [|arg [|value rest]]; [now split..|].
    cbn [List.length] in Hlen.
    rewrite parseArgsFrom_step.
    replace (pre ++ arg :: value :: rest)
      with ((pre ++ [arg; value]) ++ rest) in * by (now rewrite <- app_assoc).
    destruct (Js.eqb arg (lit "--openai") && truthy value) eqn:Eo.
    + apply andb_true_iff in Eo as [Earg Evalue].
      apply jsstring_eqb_eq in Earg. subst arg.
      apply IH; [lia| |exact Hg].
      intros v Hv. cbn [openai] in Hv. inversion Hv; subst v.
      split; [exact Evalue|]. exists pre, rest. now rewrite <- app_assoc.
    + destruct (Js.eqb arg (lit "--gemini") && truthy value) eqn:Eg.
      * apply andb_true_iff in Eg as [Earg Evalue].
        apply jsstring_eqb_eq in Earg. subst arg.
        apply IH; [lia|exact Ho|].
        intros v Hv. cbn [gemini] in Hv. inversion Hv; subst v.
        split; [exact Evalue|]. exists pre, rest. now rewrite <- app_assoc.
      * replace ((pre ++ [arg; value]) ++ rest)
          with ((pre ++ [arg]) ++ value :: rest) in *
          by (now rewrite <- !app_assoc).
        apply IH; [cbn [List.length]; lia|exact Ho|exact Hg].
Qed.

End ValidatorArguments.

(** [X28] The keys that [parseArgs] returns were given on the command
    line: each is a non-empty argument that directly follows its flag.
    Given [--openai], a key, [--gemini] and a key, with neither key empty,
    both keys are returned. *)
Theorem parseArgs_keys_follow_their_flags :
  forall args : list jsstring,
    givenKey (lit "--openai") (openai (parseArgs args)) args
    /\ givenKey (lit "--gemini") (gemini (parseArgs args)) args
    /\ forall k1 k2 : jsstring,
         k1 <> lit "" -> k2 <> lit "" ->
         parseArgs [lit "--openai"; k1; lit "--gemini"; k2]
         = {| openai := Some k1; gemini := Some k2 |}.
Proof.
  intros args.
  destruct (parseArgsFrom_given (List.length args) args []
              {| openai := None; gemini := None |} (le_n _))
    as [Ho Hg]; [intros v Hv; discriminate Hv..|].
  split; [exact Ho|]. split; [exact Hg|].
  intros k1 k2 H1 H2. unfold parseArgs. rewrite parseArgsFrom_step.
  change (Js.eqb (lit "--openai") (lit "--openai")) with true.
  change (Js.eqb (lit "--gemini") (lit "--openai")) with false.
  change (Js.eqb (lit "--gemini") (lit "--gemini")) with true.
  destruct k1 as [|c1 k1]; [now exfalso; apply H1|].
  destruct k2 as [|c2 k2]; [now exfalso; apply H2|].
  reflexivity.
Qed.

Lemma parseArgs_keys_follow_their_flags_witness :
  parseArgs [lit "--openai"; lit "sk-test"; lit "--gemini"; lit "AIza-test"]
  = {| openai := Some (lit "sk-test"); gemini := Some (lit "AIza-test") |}.
Proof.
  refine (proj2 (proj2 (parseArgs_keys_follow_their_flags []))
                (lit "sk-test") (lit "AIza-test") _ _);
    intros H; discriminate H.
Defined.
